(** * Freestyle parameter editor: blending algebra, thickness assignment,
      split controllers and stroke utilities

    A shallow embedding of [modules/freestyle/utils.py] and
    [modules/parameter_editor.py].  Python floats are idealised as real
    numbers; every operation that can raise in Python (division by zero,
    dispatch on an unknown mode string, stepping an iterator over its ends,
    reading an unbound local) returns in an explicit error monad.

    The real numbers carry the branch structure, the order facts and the
    error paths of the code.  Where a property is an identity between
    rounded results (the two sides of a thickness adding up to the blended
    value), the code is embedded a second time over IEEE 754 binary64, the
    floats Python computes with, in the module [Binary64]. *)

From Stdlib Require Import Floats.
From Stdlib Require Import Reals Lra Lia List String ZArith Bool Arith.
Import ListNotations.

Open Scope R_scope.

(** ** Python exceptions and the error monad *)

Inductive exn : Type :=
| ValueError (msg : string)
| AssertionError
| ZeroDivisionError
| IndexError
| RuntimeError
| StopIteration
| AttributeError
| UnboundLocalError (name : string).

Inductive result (A : Type) : Type :=
| Ok (a : A)
| Raise (e : exn).

Arguments Ok {A} a.
Arguments Raise {A} e.

Definition bind {A B : Type} (m : result A) (k : A -> result B) : result B :=
  match m with
  | Ok a => k a
  | Raise e => Raise e
  end.

Notation "x <- m ;; k" := (bind m (fun x => k))
  (at level 61, m at next level, right associativity).

(** [try: body except ZeroDivisionError: handler] *)
Definition except_ZeroDivisionError {A : Type} (body : result A) (handler : A) : result A :=
  match body with
  | Raise ZeroDivisionError => Ok handler
  | other => other
  end.

(** ** Python arithmetic on (idealised) floats *)

(** [x / y] on floats raises [ZeroDivisionError] when [y == 0.0]. *)
Definition py_div (x y : R) : result R :=
  if Req_dec_T y 0 then Raise ZeroDivisionError else Ok (x / y).

(** [min(a, b)] keeps the first argument unless the second is strictly smaller. *)
Definition py_min (a b : R) : R := if Rlt_dec b a then b else a.

(** [max(a, b)] keeps the first argument unless the second is strictly larger. *)
Definition py_max (a b : R) : R := if Rlt_dec a b then b else a.

(** [abs(x)] *)
Definition py_abs (x : R) : R := Rabs x.

(** Case analysis on every real comparison of the goal, closing each branch
    by linear arithmetic where possible. *)
Ltac real_cases :=
  repeat match goal with
         | |- context [Rle_dec ?a ?b] => destruct (Rle_dec a b)
         | |- context [Rlt_dec ?a ?b] => destruct (Rlt_dec a b)
         | |- context [Rge_dec ?a ?b] => destruct (Rge_dec a b)
         | |- context [Rgt_dec ?a ?b] => destruct (Rgt_dec a b)
         | |- context [Req_dec_T ?a ?b] => destruct (Req_dec_T a b)
         | H : context [Rle_dec ?a ?b] |- _ => destruct (Rle_dec a b)
         | H : context [Rlt_dec ?a ?b] |- _ => destruct (Rlt_dec a b)
         | H : context [Rge_dec ?a ?b] |- _ => destruct (Rge_dec a b)
         | H : context [Req_dec_T ?a ?b] |- _ => destruct (Req_dec_T a b)
         end.

Ltac real_eval := real_cases; try reflexivity; try (exfalso; lra); try lra.

(** ** freestyle.types and mathutils: the data the two modules work on *)

(** 2D and 3D vectors of [mathutils]. *)
Record Vector2 : Type := vec2 { vx : R; vy : R }.
Record Vector3 : Type := vec3 { x3 : R; y3 : R; z3 : R }.

Definition sub2 (p q : Vector2) : Vector2 := vec2 (vx p - vx q) (vy p - vy q).
Definition length2 (p : Vector2) : R := sqrt (vx p * vx p + vy p * vy p).
(** The cross product of two 2D vectors is a scalar. *)
Definition cross2 (p q : Vector2) : R := vx p * vy q - vy p * vx q.

Definition length3 (p : Vector3) : R := sqrt (x3 p * x3 p + y3 p * y3 p + z3 p * z3 p).
Definition dot3 (p q : Vector3) : R := x3 p * x3 q + y3 p * y3 q + z3 p * z3 q.
Definition neg3 (p : Vector3) : Vector3 := vec3 (- x3 p) (- y3 p) (- z3 p).
(** [Vector.normalized()]: a zero-length vector stays the zero vector. *)
Definition normalized3 (p : Vector3) : Vector3 :=
  if Req_dec_T (length3 p) 0 then vec3 0 0 0
  else vec3 (x3 p / length3 p) (y3 p / length3 p) (z3 p / length3 p).

(** A feature edge.  The attributes of smooth and of sharp edges are carried
    by one record; [is_smooth] tells which of them the code consults.
    [nature] is the bit set of [Nature] flags. *)
Record FEdge : Type := mkFEdge {
  nature : Z;
  is_smooth : bool;
  normal_left : Vector3;
  face_mark : bool;
  face_mark_left : bool;
  face_mark_right : bool;
  material_index : Z;
  material_index_left : Z
}.

(** A ViewEdge: [first_fedge] is the head of [fedges], [next_fedge] of an
    element is its successor, and the successor of the last one is [None]. *)
Record ViewEdge : Type := mkViewEdge { fedges : list FEdge }.

Record StrokeAttribute : Type := mkAttribute {
  alpha : R;
  thickness : R * R
}.

(** A stroke vertex; [sv_fedge] is the feature edge
    [sv.first_svertex.get_fedge(sv.second_svertex)]. *)
Record StrokeVertex : Type := mkStrokeVertex {
  point : Vector2;
  point_3d : Vector3;
  sv_fedge : FEdge;
  attribute : StrokeAttribute
}.

(** A stroke: its vertices in order and the cached [length_2d]. *)
Record Stroke : Type := mkStroke {
  vertices : list StrokeVertex;
  length_2d : R
}.

(** [StrokeVertexIterator]: a position in the vertex sequence; the position
    one past the last vertex is the end. *)
Record StrokeVertexIterator : Type := mkSVIterator {
  svi_vertices : list StrokeVertex;
  svi_pos : nat
}.

Definition is_begin (it : StrokeVertexIterator) : bool := (svi_pos it =? 0)%nat.
Definition is_end (it : StrokeVertexIterator) : bool :=
  (List.length (svi_vertices it) <=? svi_pos it)%nat.
Definition incremented (it : StrokeVertexIterator) : StrokeVertexIterator :=
  mkSVIterator (svi_vertices it) (S (svi_pos it)).
Definition decremented (it : StrokeVertexIterator) : StrokeVertexIterator :=
  mkSVIterator (svi_vertices it) (pred (svi_pos it)).
(** Reading the vertex under an iterator that points to none raises. *)
Definition object (it : StrokeVertexIterator) : result StrokeVertex :=
  match nth_error (svi_vertices it) (svi_pos it) with
  | Some sv => Ok sv
  | None => Raise RuntimeError
  end.

(** A scene object (the target of the distance-from-object modifiers). *)
Record SceneObject : Type := mkSceneObject { location : Vector3 }.

(** Modelled from the spec: the [Interface0DIterator] handed to a splitting
    predicate, which the source only uses.  A chain of [n] feature edges has
    the vertices [0 .. n]; edge [j] joins the vertices [j] and [j + 1].
    [decrement] raises [RuntimeError] at the first vertex, [next] steps to the
    following vertex and returns it, raising [StopIteration] when there is
    none: the predicate looks one vertex back and one vertex forward from
    the split candidate. *)
Record Interface0DIterator : Type := mkI0DIterator {
  chain : list FEdge;
  i0d_pos : nat
}.

Definition i0d_decrement (it : Interface0DIterator) : result unit * Interface0DIterator :=
  match i0d_pos it with
  | O => (Raise RuntimeError, it)
  | S p => (Ok tt, mkI0DIterator (chain it) p)
  end.

Definition i0d_object (it : Interface0DIterator) : result nat :=
  if (i0d_pos it <=? List.length (chain it))%nat then Ok (i0d_pos it)
  else Raise RuntimeError.

Definition i0d_next (it : Interface0DIterator) : result nat * Interface0DIterator :=
  if (S (i0d_pos it) <=? List.length (chain it))%nat
  then (Ok (S (i0d_pos it)), mkI0DIterator (chain it) (S (i0d_pos it)))
  else (Raise StopIteration, it).

(** [v.get_fedge(w)]: the edge two neighbouring vertices share; for other
    pairs the lookup gives [None], whose attributes cannot be read. *)
Definition get_fedge (edges : list FEdge) (v w : nat) : result FEdge :=
  if ((S v =? w) || (S w =? v))%nat then
    match nth_error edges (Nat.min v w) with
    | Some fe => Ok fe
    | None => Raise AttributeError
    end
  else Raise AttributeError.

(** A material as the curve-material functor returns it: RGBA diffuse and
    specular colours and the shininess. *)
Record Material : Type := mkMaterial {
  diffuse : R * R * R * R;
  specular : R * R * R * R;
  shininess : R
}.

Definition dot2 (p q : Vector2) : R := vx p * vx q + vy p * vy q.
Definition add2 (p q : Vector2) : Vector2 := vec2 (vx p + vx q) (vy p + vy q).
Definition scale2 (k : R) (p : Vector2) : Vector2 := vec2 (k * vx p) (k * vy p).
Definition sub3 (p q : Vector3) : Vector3 :=
  vec3 (x3 p - x3 q) (y3 p - y3 q) (z3 p - z3 q).
(** [Vector.normalized()] in 2D: a zero-length vector stays the zero vector. *)
Definition normalized2 (p : Vector2) : Vector2 :=
  if Req_dec_T (length2 p) 0 then vec2 0 0
  else vec2 (vx p / length2 p) (vy p / length2 p).

(** [stroke[i]] for a non-negative index. *)
Definition getitem (stroke : list StrokeVertex) (i : nat) : result StrokeVertex :=
  match nth_error stroke i with
  | Some sv => Ok sv
  | None => Raise IndexError
  end.

(** [min(xs)] and [max(xs)] of a non-empty sequence: the running extremum is
    replaced only by a strictly smaller (larger) item. *)
Definition py_min_seq (xs : list R) : result R :=
  match xs with
  | [] => Raise (ValueError "min() arg is an empty sequence")
  | x :: rest => Ok (fold_left py_min rest x)
  end.

Definition py_max_seq (xs : list R) : result R :=
  match xs with
  | [] => Raise (ValueError "max() arg is an empty sequence")
  | x :: rest => Ok (fold_left py_max rest x)
  end.

(** [range(n)] for an integer [n]: empty when [n <= 0]. *)
Definition py_range (n : Z) : list Z := map Z.of_nat (seq 0 (Z.to_nat n)).

(** ** modules/freestyle/utils.py *)

Module Utils.

(** [bound(lower, x, higher)]:
    [lower if x <= lower else higher if x >= higher else x] *)
Definition bound (lower x higher : R) : R :=
  if Rle_dec x lower then lower
  else if Rge_dec x higher then higher
  else x.

(** The expression the docstring of [bound] calls equivalent:
    [min(max(x, lower), higher)]. *)
Definition bound_docstring (lower x higher : R) : R :=
  py_min (py_max x lower) higher.

(** [pairwise(iterable)]: [zip(a, b)] with [b] one element ahead. *)
Definition pairwise {A : Type} (l : list A) : list (A * A) := combine l (tl l).

(** The loop of [iter_t2d_along_stroke] after its first yield: [distance] is
    the running sum. *)
Fixpoint iter_t2d_loop (total distance : R) (pairs : list (StrokeVertex * StrokeVertex))
  : list R :=
  match pairs with
  | [] => []
  | (prev, svert) :: rest =>
      let distance := distance + length2 (sub2 (point prev) (point svert)) in
      (* the division is evaluated only when total != 0.0 *)
      (if Req_dec_T total 0 then 0 else py_min (distance / total) 1)
        :: iter_t2d_loop total distance rest
  end.

(** [iter_t2d_along_stroke(stroke)], as the list of the values it yields. *)
Definition iter_t2d_along_stroke (stroke : Stroke) : list R :=
  0 :: iter_t2d_loop (length_2d stroke) 0 (pairwise (vertices stroke)).

(** One iteration of the loop of [iter_distance_from_camera]. *)
Definition distance_from_camera_step (range_min range_max normfac : R)
           (svert : StrokeVertex) : result R :=
  let distance := length3 (point_3d svert) in
  if Rlt_dec range_min distance then
    if Rlt_dec distance range_max then py_div (distance - range_min) normfac
    else Ok (if Rgt_dec range_min distance then 0 else 1)
  else Ok (if Rgt_dec range_min distance then 0 else 1).

Fixpoint collect {A B : Type} (f : A -> result B) (l : list A) : result (list B) :=
  match l with
  | [] => Ok []
  | a :: rest => b <- f a ;; bs <- collect f rest ;; Ok (b :: bs)
  end.

(** [iter_distance_from_camera(stroke, range_min, range_max)], as the list of
    the values it yields (or the exception that interrupts it). *)
Definition iter_distance_from_camera (stroke : Stroke) (range_min range_max : R)
  : result (list R) :=
  let normfac := range_max - range_min in
  collect (distance_from_camera_step range_min range_max normfac) (vertices stroke).

(** [stroke_curvature(it)] *)
Definition stroke_curvature (it : StrokeVertexIterator) : result R :=
  if is_end it || is_begin it then Ok 0
  else
    next <- object (incremented it) ;;
    prev <- object (decremented it) ;;
    current <- object it ;;
    let next := point next in
    let prev := point prev in
    let current := point current in
    let ab := sub2 current prev in
    let bc := sub2 next current in
    let ac := sub2 prev next in
    let a := length2 ab in
    let b := length2 bc in
    let c := length2 ac in
    except_ZeroDivisionError
      (let area := 0.5 * cross2 ab ac in
       K <- py_div (4 * area) (a * b * c) ;;
       Ok (bound 0 K 1))
      0.

(** [rgb_to_bw(r, g, b)] *)
Definition rgb_to_bw (r g b : R) : R := 0.35 * r + 0.45 * g + 0.2 * b.

(** [bounding_box(stroke)]: the transposed point list of an empty stroke has
    nothing to unpack into [x, y]. *)
Definition bounding_box (stroke : Stroke) : result (Vector2 * Vector2) :=
  match vertices stroke with
  | [] => Raise (ValueError "not enough values to unpack (expected 2, got 0)")
  | _ :: _ =>
      let x := map (fun svert => vx (point svert)) (vertices stroke) in
      let y := map (fun svert => vy (point svert)) (vertices stroke) in
      min_x <- py_min_seq x ;;
      min_y <- py_min_seq y ;;
      max_x <- py_max_seq x ;;
      max_y <- py_max_seq y ;;
      Ok (vec2 min_x min_y, vec2 max_x max_y)
  end.

(** [phase_to_direction(length)]; the cache does not change its results. *)
Definition phase_to_direction (length : Z) : result (list (R * Vector2)) :=
  collect (fun i =>
             phase <- py_div (IZR i) (IZR (length - 1)) ;;
             Ok (phase, vec2 (cos (2 * PI * phase)) (sin (2 * PI * phase))))
          (py_range length).

(** [itertools.tee(iterable)]: without a count, two independent iterators. *)
Definition tee {A : Type} (l : list A) : list (list A) := [l; l].

(** [tripplewise(iterable)]: the first statement unpacks what [tee] returns
    into the three names [a, b, c]; had it three iterators, the function
    would return [zip(a, b, c)] with [b] one and [c] two elements ahead. *)
Definition tripplewise {A : Type} (l : list A) : result (list (A * A * A)) :=
  match tee l with
  | [a; b; c] =>
      let b := tl b in
      let c := tl (tl c) in
      Ok (map (fun abc => (fst abc, fst (snd abc), snd (snd abc)))
              (combine a (combine b c)))
  | _ => Raise (ValueError "not enough values to unpack (expected 3, got 2)")
  end.

(** One iteration of the loop of [iter_distance_from_object]. *)
Definition distance_from_object_step (location : Vector3) (range_min range_max normfac : R)
           (svert : StrokeVertex) : result R :=
  let distance := length3 (sub3 (point_3d svert) location) in
  if Rlt_dec range_min distance then
    if Rlt_dec distance range_max then py_div (distance - range_min) normfac
    else Ok (if Rlt_dec distance range_min then 0 else 1)
  else Ok (if Rlt_dec distance range_min then 0 else 1).

Definition iter_distance_from_object (stroke : Stroke) (location : Vector3)
           (range_min range_max : R) : result (list R) :=
  let normfac := range_max - range_min in
  collect (distance_from_object_step location range_min range_max normfac)
          (vertices stroke).

(** [get_material_value(material, attribute)] *)
Definition get_material_value (material : Material) (attribute : string) : result R :=
  let '(dr, dg, db, da) := diffuse material in
  let '(sr, sg, sb, _) := specular material in
  if (attribute =? "DIFF")%string then Ok (rgb_to_bw dr dg db)
  else if (attribute =? "ALPHA")%string then Ok da
  else if (attribute =? "SPEC")%string then Ok (rgb_to_bw sr sg sb)
  else if (attribute =? "DIFF_R")%string then Ok dr
  else if (attribute =? "DIFF_G")%string then Ok dg
  else if (attribute =? "DIFF_B")%string then Ok db
  else if (attribute =? "SPEC_R")%string then Ok sr
  else if (attribute =? "SPEC_G")%string then Ok sg
  else if (attribute =? "SPEC_B")%string then Ok sb
  else if (attribute =? "SPEC_HARDNESS")%string then Ok (shininess material)
  else Raise (ValueError ("unexpected material attribute: " ++ attribute)).

(** The loop of [iter_distance_along_stroke] after its first yield. *)
Fixpoint iter_distance_loop (distance : R) (pairs : list (Vector2 * Vector2)) : list R :=
  match pairs with
  | [] => []
  | (prev, curr) :: rest =>
      let distance := distance + length2 (sub2 prev curr) in
      distance :: iter_distance_loop distance rest
  end.

(** [iter_distance_along_stroke(stroke)]: the points are copied first. *)
Definition iter_distance_along_stroke (stroke : Stroke) : list R :=
  let points := map point (vertices stroke) in
  0 :: iter_distance_loop 0 (pairwise points).

(** The body of the loop of [stroke_normal] for vertex [i]. *)
Definition stroke_normal_step (stroke : list StrokeVertex) (n : Z) (i : nat)
           (svert : StrokeVertex) : result Vector2 :=
  if (Z.of_nat i =? 0)%Z then
    next <- getitem stroke (i + 1) ;;
    let e := sub2 (point next) (point svert) in
    Ok (normalized2 (vec2 (vy e) (- vx e)))
  else if (Z.of_nat i =? n)%Z then
    prev <- getitem stroke (i - 1) ;;
    let e := sub2 (point svert) (point prev) in
    Ok (normalized2 (vec2 (vy e) (- vx e)))
  else
    next <- getitem stroke (i + 1) ;;
    let e1 := sub2 (point next) (point svert) in
    prev <- getitem stroke (i - 1) ;;
    let e2 := sub2 (point svert) (point prev) in
    let n1 := normalized2 (vec2 (vy e1) (- vx e1)) in
    let n2 := normalized2 (vec2 (vy e2) (- vx e2)) in
    Ok (normalized2 (add2 n1 n2)).

Fixpoint stroke_normal_loop (stroke : list StrokeVertex) (n : Z) (i : nat)
         (rest : list StrokeVertex) : result (list Vector2) :=
  match rest with
  | [] => Ok []
  | svert :: rest =>
      normal <- stroke_normal_step stroke n i svert ;;
      normals <- stroke_normal_loop stroke n (S i) rest ;;
      Ok (normal :: normals)
  end.

(** [stroke_normal(stroke)], as the list of the normals it yields. *)
Definition stroke_normal (stroke : Stroke) : result (list Vector2) :=
  let n := (Z.of_nat (List.length (vertices stroke)) - 1)%Z in
  stroke_normal_loop (vertices stroke) n 0 (vertices stroke).

End Utils.

(** ** modules/parameter_editor.py *)

Module ParameterEditor.

(** Reading a local variable: a name that no assignment has bound yet
    raises. *)
Definition read_local {A : Type} (name : string) (slot : option A) : result A :=
  match slot with
  | Some v => Ok v
  | None => Raise (UnboundLocalError name)
  end.

(** *** Blending and mapping modifiers *)

Module ScalarBlendModifier.

Record t : Type := mk { __blend : string; __influence : R }.

Definition __init__ (blend : string) (influence : R) : result t :=
  Ok (mk blend influence).

Definition blend (self : t) (v1 v2 : R) : result R :=
  let fac := __influence self in
  let facm := 1 - fac in
  if (__blend self =? "MIX")%string then
    Ok (facm * v1 + fac * v2)
  else if (__blend self =? "ADD")%string then
    Ok (v1 + fac * v2)
  else if (__blend self =? "MULTIPLY")%string then
    Ok (v1 * (facm + fac * v2))
  else if (__blend self =? "SUBTRACT")%string then
    Ok (v1 - fac * v2)
  else if (__blend self =? "DIVIDE")%string then
    if Req_dec_T v2 0 then Ok v1
    else q <- py_div (fac * v1) v2 ;; Ok (facm * v1 + q)
  else if (__blend self =? "DIFFERENCE")%string then
    Ok (facm * v1 + fac * py_abs (v1 - v2))
  else if (__blend self =? "MININUM")%string then
    Ok (py_min (fac * v2) v1)
  else if (__blend self =? "MAXIMUM")%string then
    Ok (py_max (fac * v2) v1)
  else
    Raise (ValueError ("unknown curve blend type: " ++ __blend self)).

End ScalarBlendModifier.

Module CurveMappingModifier.
Section Evaluator.

(** The curve-mapping data and its evaluator are external. *)
Variable Curve : Type.
Variable evaluateCurveMappingF : Curve -> Z -> R -> R.

Record t : Type := mk {
  base : ScalarBlendModifier.t;
  __mapping : string;
  __invert : bool;
  __curve : Curve
}.

Definition __init__ (blend : string) (influence : R) (mapping : string)
           (invert : bool) (curve : Curve) : result t :=
  base <- ScalarBlendModifier.__init__ blend influence ;;
  if (mapping =? "LINEAR")%string || (mapping =? "CURVE")%string
  then Ok (mk base mapping invert curve)
  else Raise AssertionError.

Definition LINEAR (self : t) (t0 : R) : R :=
  if __invert self then 1 - t0 else t0.

Definition CURVE (self : t) (t0 : R) : R :=
  evaluateCurveMappingF (__curve self) 0%Z t0.

(** [self.__mapping] is the method named by [mapping]. *)
Definition evaluate (self : t) (t0 : R) : R :=
  if (__mapping self =? "LINEAR")%string then LINEAR self t0 else CURVE self t0.

End Evaluator.
End CurveMappingModifier.

(** *** Thickness side assignment and thickness blending *)

Module ThicknessModifierMixIn.

Record t : Type := mk { __persp_camera : bool }.

(** [camera_type] is [getCurrentScene().camera.data.type]. *)
Definition __init__ (camera_type : string) : t :=
  mk (camera_type =? "PERSP")%string.

Section Nature.

(** [Nature.BORDER] and [Nature.SILHOUETTE] *)
Variables BORDER SILHOUETTE : Z.

Definition set_thickness (self : t) (sv : StrokeVertex) (outer inner : R)
  : StrokeVertex :=
  let fe := sv_fedge sv in
  let nature := nature fe in
  let '(outer, inner) :=
    if negb (Z.land nature BORDER =? 0)%Z then
      let dir :=
        if __persp_camera self then
          let point := neg3 (normalized3 (point_3d sv)) in
          dot3 point (normal_left fe)
        else z3 (normal_left fe) in
      if Rlt_dec dir 0 then (inner, outer) else (outer, inner)
    else if negb (Z.land nature SILHOUETTE =? 0)%Z then
      if is_smooth fe then (inner, outer) else (outer, inner)
    else ((outer + inner) / 2, (outer + inner) / 2) in
  mkStrokeVertex (point sv) (point_3d sv) (sv_fedge sv)
                 (mkAttribute (alpha (attribute sv)) (outer, inner)).

End Nature.
End ThicknessModifierMixIn.

Module ThicknessBlenderMixIn.

Record t : Type := mk {
  base : ThicknessModifierMixIn.t;
  __position : string;
  __ratio : R
}.

Definition __init__ (camera_type : string) (position : string) (ratio : R) : result t :=
  Ok (mk (ThicknessModifierMixIn.__init__ camera_type) position ratio).

(** [self.blend] is the [blend] of the scalar blend modifier the mix-in is
    combined with.  Over the reals the product [v * ratio] and the
    difference [v - outer] of the RELATIVE branch are exact, which Python's
    are not: what that branch computes is studied on
    [Binary64.ThicknessBlenderMixIn.blend_thickness], and this definition is
    used for the branch taken, the error path and the sides as expressions. *)
Definition blend_thickness (self : t) (blender : ScalarBlendModifier.t)
           (outer inner v : R) : result (R * R) :=
  v <- ScalarBlendModifier.blend blender (outer + inner) v ;;
  if (__position self =? "CENTER")%string then
    let outer := v * 0.5 in
    let inner := v - outer in
    Ok (outer, inner)
  else if (__position self =? "INSIDE")%string then
    Ok (0, v)
  else if (__position self =? "OUTSIDE")%string then
    Ok (v, 0)
  else if (__position self =? "RELATIVE")%string then
    let outer := v * __ratio self in
    let inner := v - outer in
    Ok (outer, inner)
  else
    Raise (ValueError ("unknown thickness position: " ++ __position self)).

End ThicknessBlenderMixIn.

Module BaseThicknessShader.

Record t : Type := mk {
  base : ThicknessModifierMixIn.t;
  __outer : R;
  __inner : R
}.

(** The constructor checks the position and stores the two sides; see
    [Binary64.BaseThicknessShader.__init__] for the sides as Python rounds
    them. *)
Definition __init__ (camera_type : string) (thickness : R) (position : string)
           (ratio : R) : result t :=
  let base := ThicknessModifierMixIn.__init__ camera_type in
  if (position =? "CENTER")%string then
    Ok (mk base (thickness * 0.5) (thickness - thickness * 0.5))
  else if (position =? "INSIDE")%string then
    Ok (mk base 0 thickness)
  else if (position =? "OUTSIDE")%string then
    Ok (mk base thickness 0)
  else if (position =? "RELATIVE")%string then
    Ok (mk base (thickness * ratio) (thickness - thickness * ratio))
  else
    Raise (ValueError ("unknown thickness position: " ++ position)).

Section Nature.
Variables BORDER SILHOUETTE : Z.

(** [shade(stroke)]: every vertex gets the pair fixed by the constructor. *)
Definition shade (self : t) (stroke : Stroke) : Stroke :=
  mkStroke
    (map (fun svert =>
            ThicknessModifierMixIn.set_thickness BORDER SILHOUETTE (base self) svert
                                                 (__outer self) (__inner self))
         (vertices stroke))
    (length_2d stroke).

End Nature.
End BaseThicknessShader.

(** *** Thickness along the stroke *)

Module ThicknessAlongStrokeShader.
Section Collaborators.
Variables BORDER SILHOUETTE : Z.
Variable Curve : Type.
Variable evaluateCurveMappingF : Curve -> Z -> R -> R.

Record t : Type := mk {
  blender : ThicknessBlenderMixIn.t;
  base : CurveMappingModifier.t Curve;
  __value_min : R;
  __value_max : R
}.

Definition __init__ (camera_type : string) (thickness_position : string)
           (thickness_ratio : R) (blend : string) (influence : R) (mapping : string)
           (invert : bool) (curve : Curve) (value_min value_max : R) : result t :=
  blender <- ThicknessBlenderMixIn.__init__ camera_type thickness_position thickness_ratio ;;
  base <- CurveMappingModifier.__init__ Curve blend influence mapping invert curve ;;
  Ok (mk blender base value_min value_max).

(** The new thickness pair of one vertex, before the sides are assigned. *)
Definition shade_pair (self : t) (delta : R) (svert : StrokeVertex) (t0 : R)
  : result (R * R) :=
  let '(R0, L0) := thickness (attribute svert) in
  let b := __value_min self
           + CurveMappingModifier.evaluate Curve evaluateCurveMappingF (base self) t0
             * delta in
  ThicknessBlenderMixIn.blend_thickness
    (blender self) (CurveMappingModifier.base Curve (base self)) R0 L0 b.

Fixpoint shade_loop (self : t) (delta : R) (pairs : list (StrokeVertex * R))
  : result (list StrokeVertex) :=
  match pairs with
  | [] => Ok []
  | (svert, t0) :: rest =>
      RL <- shade_pair self delta svert t0 ;;
      let svert := ThicknessModifierMixIn.set_thickness
                     BORDER SILHOUETTE (ThicknessBlenderMixIn.base (blender self))
                     svert (fst RL) (snd RL) in
      rest' <- shade_loop self delta rest ;;
      Ok (svert :: rest')
  end.

Definition shade (self : t) (stroke : Stroke) : result Stroke :=
  let delta := __value_max self - __value_min self in
  vs <- shade_loop self delta
          (combine (vertices stroke) (Utils.iter_t2d_along_stroke stroke)) ;;
  Ok (mkStroke vs (length_2d stroke)).

End Collaborators.
End ThicknessAlongStrokeShader.


(** *** A modifier shading a stroke: alpha along the stroke *)

Module AlphaAlongStrokeShader.
Section Evaluator.

Variable Curve : Type.
Variable evaluateCurveMappingF : Curve -> Z -> R -> R.

Definition set_alpha (svert : StrokeVertex) (a : R) : StrokeVertex :=
  mkStrokeVertex (point svert) (point_3d svert) (sv_fedge svert)
                 (mkAttribute a (thickness (attribute svert))).

Fixpoint shade_loop (self : CurveMappingModifier.t Curve)
         (pairs : list (StrokeVertex * R)) : result (list StrokeVertex) :=
  match pairs with
  | [] => Ok []
  | (svert, t0) :: rest =>
      let a := alpha (attribute svert) in
      let b := CurveMappingModifier.evaluate Curve evaluateCurveMappingF self t0 in
      v <- ScalarBlendModifier.blend (CurveMappingModifier.base Curve self) a b ;;
      rest' <- shade_loop self rest ;;
      Ok (set_alpha svert v :: rest')
  end.

Definition shade (self : CurveMappingModifier.t Curve) (stroke : Stroke) : result Stroke :=
  vs <- shade_loop self (combine (vertices stroke) (Utils.iter_t2d_along_stroke stroke)) ;;
  Ok (mkStroke vs (length_2d stroke)).

End Evaluator.
End AlphaAlongStrokeShader.

(** *** Alpha by distance from the camera *)

Module AlphaDistanceFromCameraShader.
Section Evaluator.
Variable Curve : Type.
Variable evaluateCurveMappingF : Curve -> Z -> R -> R.

Record t : Type := mk {
  base : CurveMappingModifier.t Curve;
  __range_min : R;
  __range_max : R
}.

Definition __init__ (blend : string) (influence : R) (mapping : string) (invert : bool)
           (curve : Curve) (range_min range_max : R) : result t :=
  base <- CurveMappingModifier.__init__ Curve blend influence mapping invert curve ;;
  Ok (mk base range_min range_max).

Definition shade (self : t) (stroke : Stroke) : result Stroke :=
  it <- Utils.iter_distance_from_camera stroke (__range_min self) (__range_max self) ;;
  vs <- AlphaAlongStrokeShader.shade_loop Curve evaluateCurveMappingF (base self)
          (combine (vertices stroke) it) ;;
  Ok (mkStroke vs (length_2d stroke)).

End Evaluator.
End AlphaDistanceFromCameraShader.

(** *** Distance from object *)

Module ColorRampModifier.
Section Ramp.
Variable ColorRamp : Type.

Record t : Type := mk { __blend : string; __influence : R; __ramp : ColorRamp }.

Definition __init__ (blend : string) (influence : R) (ramp : ColorRamp) : result t :=
  Ok (mk blend influence ramp).

End Ramp.
End ColorRampModifier.

Module ColorDistanceFromObjectShader.
Section Scene.
Variable ColorRamp : Type.
(** [getCurrentScene().camera.matrix_world.inverted()], applied to a point. *)
Variable model_view : Vector3 -> Vector3.

Record t : Type := mk {
  base : ColorRampModifier.t ColorRamp;
  range_min : R;
  range_max : R;
  loc : Vector3
}.

Definition __init__ (blend : string) (influence : R) (ramp : ColorRamp)
           (target : option SceneObject) (range_min range_max : R) : result t :=
  base <- ColorRampModifier.__init__ ColorRamp blend influence ramp ;;
  match target with
  | None => Raise (ValueError "ColorDistanceFromObjectShader: target can't be None ")
  | Some target => Ok (mk base range_min range_max (model_view (location target)))
  end.

End Scene.
End ColorDistanceFromObjectShader.

Module AlphaDistanceFromObjectShader.
Section Scene.
Variable Curve : Type.
Variable model_view : Vector3 -> Vector3.

Record t : Type := mk {
  base : CurveMappingModifier.t Curve;
  range_min : R;
  range_max : R;
  loc : Vector3
}.

Definition __init__ (blend : string) (influence : R) (mapping : string) (invert : bool)
           (curve : Curve) (target : option SceneObject) (range_min range_max : R)
  : result t :=
  base <- CurveMappingModifier.__init__ Curve blend influence mapping invert curve ;;
  match target with
  | None => Raise (ValueError "AlphaDistanceFromObjectShader: target can't be None ")
  | Some target => Ok (mk base range_min range_max (model_view (location target)))
  end.

End Scene.
End AlphaDistanceFromObjectShader.

Module ThicknessDistanceFromObjectShader.
Section Scene.
Variable Curve : Type.
Variable model_view : Vector3 -> Vector3.

Record t : Type := mk {
  blender : ThicknessBlenderMixIn.t;
  base : CurveMappingModifier.t Curve;
  __range_min : R;
  __range_max : R;
  __value_min : R;
  __value_max : R;
  loc : Vector3
}.

Definition __init__ (camera_type : string) (thickness_position : string)
           (thickness_ratio : R) (blend : string) (influence : R) (mapping : string)
           (invert : bool) (curve : Curve) (target : option SceneObject)
           (range_min range_max value_min value_max : R) : result t :=
  blender <- ThicknessBlenderMixIn.__init__ camera_type thickness_position thickness_ratio ;;
  base <- CurveMappingModifier.__init__ Curve blend influence mapping invert curve ;;
  match target with
  | None => Raise (ValueError "ThicknessDistanceFromObjectShader: target can't be None ")
  | Some target =>
      Ok (mk blender base range_min range_max value_min value_max
             (model_view (location target)))
  end.

End Scene.
End ThicknessDistanceFromObjectShader.

(** *** 2D transform *)

Module Transform2DShader.

Record t : Type := mk {
  __pivot : string;
  scale : Vector2;
  cos_theta : R;
  sin_theta : R;
  __pivot_u : R;
  __pivot_x : R;
  __pivot_y : R
}.

Definition known_pivot (pivot : string) : bool :=
  ((pivot =? "START") || (pivot =? "END") || (pivot =? "CENTER")
   || (pivot =? "ABSOLUTE") || (pivot =? "PARAM"))%string.

Definition __init__ (pivot : string) (scale_x scale_y angle pivot_u pivot_x pivot_y : R)
  : result t :=
  if negb (known_pivot pivot) then
    Raise (ValueError
             ("expected pivot in {'START', 'END', 'CENTER', 'ABSOLUTE', 'PARAM'}, not"
                ++ pivot))
  else
    Ok (mk pivot (vec2 scale_x scale_y) (cos angle) (sin angle) pivot_u pivot_x pivot_y).

Section Shade.

(** [svert.u] and [stroke.update_length()] belong to the stroke library. *)
Variable u_of : StrokeVertex -> R.
Variable update_length : Stroke -> Stroke.

(** [pivot] is either the point of a vertex of the stroke, which stays the
    vertex' own vector, or a vector computed afresh. *)
Inductive Pivot : Type :=
| PivotOf (i : nat)
| PivotValue (v : Vector2).

Definition pivot_value (pivot : Pivot) (stroke : list StrokeVertex) : result Vector2 :=
  match pivot with
  | PivotOf i => svert <- getitem stroke i ;; Ok (point svert)
  | PivotValue v => Ok v
  end.

(** The loop [for prev, svert in pairwise(stroke)] with its [break]: the
    pair the two names are bound to when the loop is left, if any. *)
Fixpoint param_loop (pivot_u : R) (pairs : list (StrokeVertex * StrokeVertex))
         (bound_to : option (StrokeVertex * StrokeVertex))
  : option (StrokeVertex * StrokeVertex) :=
  match pairs with
  | [] => bound_to
  | (prev, svert) :: rest =>
      if Rlt_dec pivot_u (u_of svert) then Some (prev, svert)
      else param_loop pivot_u rest (Some (prev, svert))
  end.

(** The pivot of scaling and rotation; [None] when no branch binds it. *)
Definition find_pivot (self : t) (stroke : list StrokeVertex) : result (option Pivot) :=
  if (__pivot self =? "START")%string then
    _ <- getitem stroke 0 ;; Ok (Some (PivotOf 0))
  else if (__pivot self =? "END")%string then
    match stroke with
    | [] => Raise IndexError
    | _ :: _ => Ok (Some (PivotOf (List.length stroke - 1)))
    end
  else if (__pivot self =? "CENTER")%string then
    k <- py_div 1 (INR (List.length stroke)) ;;
    Ok (Some (PivotValue (scale2 k (fold_left add2 (map point stroke) (vec2 0 0)))))
  else if (__pivot self =? "ABSOLUTE")%string then
    Ok (Some (PivotValue (vec2 (__pivot_x self) (__pivot_y self))))
  else if (__pivot self =? "PARAM")%string then
    first <- getitem stroke 0 ;;
    if Rlt_dec (__pivot_u self) (u_of first) then Ok (Some (PivotOf 0))
    else
      bound_to <- read_local "svert" (param_loop (__pivot_u self) (Utils.pairwise stroke) None) ;;
      let '(prev, svert) := bound_to in
      Ok (Some (PivotValue
                  (add2 (point svert)
                        (scale2 (u_of svert - __pivot_u self)
                                (sub2 (point prev) (point svert))))))
  else Ok None.

(** The new position of a point [p0]. *)
Definition transform (self : t) (pivot p0 : Vector2) : Vector2 :=
  let p := sub2 p0 pivot in
  let x := vx p * vx (scale self) in
  let y := vy p * vy (scale self) in
  let p := vec2 (x * cos_theta self - y * sin_theta self)
                (x * sin_theta self + y * cos_theta self) in
  add2 p pivot.

Definition set_point (svert : StrokeVertex) (p : Vector2) : StrokeVertex :=
  mkStrokeVertex p (point_3d svert) (sv_fedge svert) (attribute svert).

(** The loop [for svert in stroke]: [done] holds the vertices already moved,
    [todo] the others; the stroke seen through [pivot] is [done ++ todo]. *)
Fixpoint shade_loop (self : t) (pivot : option Pivot) (done todo : list StrokeVertex)
  : result (list StrokeVertex) :=
  match todo with
  | [] => Ok done
  | svert :: rest =>
      pivot_ref <- read_local "pivot" pivot ;;
      pv <- pivot_value pivot_ref (done ++ svert :: rest) ;;
      shade_loop self pivot (done ++ [set_point svert (transform self pv (point svert))]) rest
  end.

Definition shade (self : t) (stroke : Stroke) : result Stroke :=
  pivot <- find_pivot self (vertices stroke) ;;
  vs <- shade_loop self pivot [] (vertices stroke) ;;
  Ok (update_length (mkStroke vs (length_2d stroke))).

End Shade.
End Transform2DShader.

(** *** Split by dashed line pattern *)

Module SplitPatternController.

Record t : Type := mk {
  sampling : R;
  start_pos : list R;
  stop_pos : list R;
  start_len : R;
  start_idx : nat;
  stop_len : R;
  stop_idx : nat
}.

Definition init (self : t) : t :=
  mk (sampling self) (start_pos self) (stop_pos self) 0 0%nat (sampling self) 0%nat.

(** [float(sampling)] is the identity on reals; [k] and [n] of the
    constructor are computed and never used. *)
Definition __init__ (pattern : list R) (sampling : R) : t :=
  init (mk sampling
           (map (fun pc => fst pc + snd pc) (Utils.pairwise pattern))
           (map fst (Utils.pairwise pattern))
           0 0%nat 0 0%nat).

(** A method returns its result (or the exception raised) and the
    controller as the call leaves it. *)
Definition start (self : t) : result bool * t :=
  let self := mk (sampling self) (start_pos self) (stop_pos self)
                 (start_len self + sampling self) (start_idx self)
                 (stop_len self) (stop_idx self) in
  match nth_error (start_pos self) (start_idx self) with
  | None => (Raise IndexError, self)
  | Some p =>
      if Rlt_dec (py_abs (start_len self - p)) (sampling self / 2) then
        (Ok true,
         mk (sampling self) (start_pos self) (stop_pos self)
            0 (S (start_idx self) mod List.length (start_pos self))%nat
            (stop_len self) (stop_idx self))
      else (Ok false, self)
  end.

Definition stop (self : t) : result bool * t :=
  let self := if Rgt_dec (start_len self) 0 then init self else self in
  let self := mk (sampling self) (start_pos self) (stop_pos self)
                 (start_len self) (start_idx self)
                 (stop_len self + sampling self) (stop_idx self) in
  match nth_error (stop_pos self) (stop_idx self) with
  | None => (Raise IndexError, self)
  | Some p =>
      if Rlt_dec (py_abs (stop_len self - p)) (sampling self / 2) then
        (Ok true,
         mk (sampling self) (start_pos self) (stop_pos self)
            (start_len self) (start_idx self)
            (sampling self) (S (stop_idx self) mod List.length (stop_pos self))%nat)
      else (Ok false, self)
  end.

(** The controller after [n] successive calls of [start()]. *)
Fixpoint after_starts (n : nat) (self : t) : t :=
  match n with
  | O => self
  | S k => after_starts k (snd (start self))
  end.

(** What call number [n + 1] of [start()] returns. *)
Definition start_call (n : nat) (self : t) : result bool :=
  fst (start (after_starts n self)).

(** The controller after [n] successive calls of [stop()]. *)
Fixpoint after_stops (n : nat) (self : t) : t :=
  match n with
  | O => self
  | S k => after_stops k (snd (stop self))
  end.

(** What call number [n + 1] of [stop()] returns. *)
Definition stop_call (n : nat) (self : t) : result bool :=
  fst (stop (after_stops n self)).

(** Any sequence of calls: [true] stands for [start()], [false] for
    [stop()]. *)
Fixpoint after_calls (calls : list bool) (self : t) : t :=
  match calls with
  | [] => self
  | c :: rest => after_calls rest (snd (if c then start self else stop self))
  end.

End SplitPatternController.

(** *** Face mark predicates *)

Module FaceMarkBothUP1D.
Section Nature.
Variable BORDER : Z.

(** The test of the loop body on one feature edge. *)
Definition marked (fe : FEdge) : bool :=
  if is_smooth fe then face_mark fe
  else if negb (Z.land (nature fe) BORDER =? 0)%Z then face_mark_left fe
  else face_mark_right fe && face_mark_left fe.

(** [while fe is not None: ...; fe = fe.next_fedge], then [return False];
    the list is [fe] followed by its successors. *)
Fixpoint loop (fe : list FEdge) : bool :=
  match fe with
  | [] => false
  | e :: next_fedge => if marked e then true else loop next_fedge
  end.

(** [fe] is a local of the method (the loop body assigns it) and the loop
    condition reads it before any assignment. *)
Definition __call__ (inter : ViewEdge) : result bool :=
  let fe : option (list FEdge) := None in
  fe <- read_local "fe" fe ;;
  Ok (loop fe).

End Nature.
End FaceMarkBothUP1D.

Module FaceMarkOneUP1D.
Section Nature.
Variable BORDER : Z.

Definition marked (fe : FEdge) : bool :=
  if is_smooth fe then face_mark fe
  else if negb (Z.land (nature fe) BORDER =? 0)%Z then face_mark_left fe
  else face_mark_right fe || face_mark_left fe.

Fixpoint loop (fe : list FEdge) : bool :=
  match fe with
  | [] => false
  | e :: next_fedge => if marked e then true else loop next_fedge
  end.

Definition __call__ (inter : ViewEdge) : result bool :=
  let fe : option (list FEdge) := Some (fedges inter) in
  fe <- read_local "fe" fe ;;
  Ok (loop fe).

End Nature.
End FaceMarkOneUP1D.

(** *** Material boundary predicate *)

Module MaterialBoundaryUP0D.

(** [except (RuntimeError, StopIteration): return False] *)
Definition handler {A : Type} (e : exn) : result A + bool :=
  match e with
  | RuntimeError | StopIteration => inr false
  | other => inl (Raise other)
  end.

Definition material_of (fe : FEdge) : Z :=
  if is_smooth fe then material_index fe else material_index_left fe.

(** The statements after the [try] block. *)
Definition compare (edges : list FEdge) (prev svert succ : nat) : result bool :=
  fe <- get_fedge edges svert prev ;;
  let idx1 := material_of fe in
  fe <- get_fedge edges svert succ ;;
  let idx2 := material_of fe in
  Ok (negb (idx1 =? idx2)%Z).

Definition caught (e : exn) (it : Interface0DIterator) : result bool * Interface0DIterator :=
  match handler (A := bool) e with
  | inr b => (Ok b, it)
  | inl r => (r, it)
  end.

(** The call returns its result and the iterator as it leaves it. *)
Definition __call__ (it : Interface0DIterator) : result bool * Interface0DIterator :=
  match i0d_decrement it with
  | (Raise e, it) => caught e it
  | (Ok _, it) =>
      match i0d_object it with
      | Raise e => caught e it
      | Ok prev =>
          match i0d_next it with
          | (Raise e, it) => caught e it
          | (Ok svert, it) =>
              match i0d_next it with
              | (Raise e, it) => caught e it
              | (Ok succ, it) => (compare (chain it) prev svert succ, it)
              end
          end
      end
  end.

End MaterialBoundaryUP0D.

(** *** Chain selection and fixed-length split *)

Module LengthThresholdUP1D.

Record t : Type := mk { _length_min : option R; _length_max : option R }.

(** [length] is [inter.length_2d]. *)
Definition __call__ (self : t) (length : R) : bool :=
  match _length_min self with
  | Some m => if Rlt_dec length m then false
              else match _length_max self with
                   | Some M => if Rgt_dec length M then false else true
                   | None => true
                   end
  | None => match _length_max self with
            | Some M => if Rgt_dec length M then false else true
            | None => true
            end
  end.

End LengthThresholdUP1D.

Module Length2DThresholdUP0D.

Record t : Type := mk { _length_limit : R; _t : R }.

Definition __init__ (length_limit : R) : t := mk length_limit 0.

(** [t0] is the curvilinear abscissa [inter.t]; the call returns its answer
    and the predicate as the call leaves it. *)
Definition __call__ (self : t) (t0 : R) : bool * t :=
  if Rlt_dec t0 (_t self) then (false, mk (_length_limit self) 0)
  else if Rlt_dec (t0 - _t self) (_length_limit self) then (false, self)
  else (true, mk (_length_limit self) t0).

(** The answers of successive calls at the abscissas [ts]. *)
Fixpoint calls (self : t) (ts : list R) : list bool :=
  match ts with
  | [] => []
  | t0 :: rest => fst (__call__ self t0) :: calls (snd (__call__ self t0)) rest
  end.

End Length2DThresholdUP0D.

(** *** Seed for random number generation *)

Module Seed.

Record t : Type := mk { t_max : Z; t_ : Z }.

(** [now] is [int(time.time())]. *)
Definition __init__ (now : Z) : t := mk (2 ^ 15) (now mod 2 ^ 15).

Definition get (self : t) (seed : Z) : Z * t :=
  if (seed <? 0)%Z then
    let self := mk (t_max self) ((t_ self + 1) mod t_max self) in
    (t_ self, self)
  else (seed, self).

(** The generator after [n] calls of [get] with a negative seed. *)
Fixpoint after_gets (n : nat) (self : t) : t :=
  match n with
  | O => self
  | S k => after_gets k (snd (get self (-1)))
  end.

End Seed.

(** *** The split pattern assembled by [process] *)

Module Process.

Definition both_positive (dash gap : R) : bool :=
  if Rgt_dec dash 0 then (if Rgt_dec gap 0 then true else false) else false.

(** The [pattern] list built from the three dash/gap pairs of the line
    style. *)
Definition split_pattern (dash1 gap1 dash2 gap2 dash3 gap3 : R) : list R :=
  let pattern := [] in
  let pattern := if both_positive dash1 gap1 then pattern ++ [dash1; gap1] else pattern in
  let pattern := if both_positive dash2 gap2 then pattern ++ [dash2; gap2] else pattern in
  let pattern := if both_positive dash3 gap3 then pattern ++ [dash3; gap3] else pattern in
  pattern.

(** The controller [process] hands to the two split predicates, if any. *)
Definition split_controller (dash1 gap1 dash2 gap2 dash3 gap3 : R)
  : option SplitPatternController.t :=
  let pattern := split_pattern dash1 gap1 dash2 gap2 dash3 gap3 in
  if (0 <? List.length pattern)%nat
  then Some (SplitPatternController.__init__ pattern 1)
  else None.

End Process.

End ParameterEditor.

(** ** The rounded arithmetic, over binary64

    [rgb_to_bw], [ScalarBlendModifier.blend],
    [ThicknessBlenderMixIn.blend_thickness] and the constructor of
    [BaseThicknessShader] once more, statement by statement, on Python's own
    floats: every [+], [-], [*] and [/] rounds to the nearest binary64
    value, comparisons are those of IEEE 754 (an unordered pair compares
    false, [!=] true). *)

Module Binary64.

Local Open Scope float_scope.

(** [x / y] on floats raises [ZeroDivisionError] when [y == 0.0]. *)
Definition py_div (x y : float) : result float :=
  if y =? 0 then Raise ZeroDivisionError else Ok (x / y).

(** [min(a, b)] keeps the first argument unless the second is strictly smaller. *)
Definition py_min (a b : float) : float := if b <? a then b else a.

(** [max(a, b)] keeps the first argument unless the second is strictly larger. *)
Definition py_max (a b : float) : float := if a <? b then b else a.

(** [abs(x)] *)
Definition py_abs (x : float) : float := PrimFloat.abs x.

(** [rgb_to_bw(r, g, b)] of [freestyle/utils.py]; the three weights are the
    binary64 numbers nearest to the decimals, as in Python. *)
#[warnings="-inexact-float"]
Definition rgb_to_bw (r g b : float) : float := 0.35 * r + 0.45 * g + 0.2 * b.

Module ScalarBlendModifier.

Record t : Type := mk { __blend : string; __influence : float }.

Definition __init__ (blend : string) (influence : float) : result t :=
  Ok (mk blend influence).

Definition blend (self : t) (v1 v2 : float) : result float :=
  let fac := __influence self in
  let facm := 1 - fac in
  if (__blend self =? "MIX")%string then
    Ok (facm * v1 + fac * v2)
  else if (__blend self =? "ADD")%string then
    Ok (v1 + fac * v2)
  else if (__blend self =? "MULTIPLY")%string then
    Ok (v1 * (facm + fac * v2))
  else if (__blend self =? "SUBTRACT")%string then
    Ok (v1 - fac * v2)
  else if (__blend self =? "DIVIDE")%string then
    if negb (v2 =? 0) then q <- py_div (fac * v1) v2 ;; Ok (facm * v1 + q)
    else Ok v1
  else if (__blend self =? "DIFFERENCE")%string then
    Ok (facm * v1 + fac * py_abs (v1 - v2))
  else if (__blend self =? "MININUM")%string then
    Ok (py_min (fac * v2) v1)
  else if (__blend self =? "MAXIMUM")%string then
    Ok (py_max (fac * v2) v1)
  else
    Raise (ValueError ("unknown curve blend type: " ++ __blend self)).

End ScalarBlendModifier.

Module ThicknessBlenderMixIn.

Record t : Type := mk {
  base : ParameterEditor.ThicknessModifierMixIn.t;
  __position : string;
  __ratio : float
}.

Definition __init__ (camera_type : string) (position : string) (ratio : float)
  : result t :=
  Ok (mk (ParameterEditor.ThicknessModifierMixIn.__init__ camera_type) position ratio).

Definition blend_thickness (self : t) (blender : ScalarBlendModifier.t)
           (outer inner v : float) : result (float * float) :=
  v <- ScalarBlendModifier.blend blender (outer + inner) v ;;
  if (__position self =? "CENTER")%string then
    let outer := v * 0.5 in
    let inner := v - outer in
    Ok (outer, inner)
  else if (__position self =? "INSIDE")%string then
    Ok (0, v)
  else if (__position self =? "OUTSIDE")%string then
    Ok (v, 0)
  else if (__position self =? "RELATIVE")%string then
    let outer := v * __ratio self in
    let inner := v - outer in
    Ok (outer, inner)
  else
    Raise (ValueError ("unknown thickness position: " ++ __position self)).

End ThicknessBlenderMixIn.

Module BaseThicknessShader.

Record t : Type := mk {
  base : ParameterEditor.ThicknessModifierMixIn.t;
  __outer : float;
  __inner : float
}.

Definition __init__ (camera_type : string) (thickness : float) (position : string)
           (ratio : float) : result t :=
  let base := ParameterEditor.ThicknessModifierMixIn.__init__ camera_type in
  if (position =? "CENTER")%string then
    Ok (mk base (thickness * 0.5) (thickness - thickness * 0.5))
  else if (position =? "INSIDE")%string then
    Ok (mk base 0 thickness)
  else if (position =? "OUTSIDE")%string then
    Ok (mk base thickness 0)
  else if (position =? "RELATIVE")%string then
    Ok (mk base (thickness * ratio) (thickness - thickness * ratio))
  else
    Raise (ValueError ("unknown thickness position: " ++ position)).

End BaseThicknessShader.

End Binary64.

(** ** Vocabulary of the properties *)

(** Three points on one line: the vectors from the first point to the other
    two are parallel. *)
Definition colinear (p q r : Vector2) : Prop :=
  (vx q - vx p) * (vy r - vy p) = (vy q - vy p) * (vx r - vx p).



Definition known_blend (blend : string) : bool :=
  existsb (String.eqb blend)
          ["MIX"; "ADD"; "MULTIPLY"; "SUBTRACT"; "DIVIDE"; "DIFFERENCE"; "MININUM";
           "MAXIMUM"]%string.

Definition known_position (position : string) : bool :=
  existsb (String.eqb position) ["CENTER"; "INSIDE"; "OUTSIDE"; "RELATIVE"]%string.

(** The positions that split a value without rounding a product: one side
    takes all of it, or it is halved. *)
Definition exact_position (position : string) : bool :=
  existsb (String.eqb position) ["CENTER"; "INSIDE"; "OUTSIDE"]%string.

(** The sum [total] of the two sides into which a thickness blender with
    the given position and ratio splits the blended value [v]: [v] itself
    for CENTER, INSIDE and OUTSIDE, and the sum of the two sides
    [v * ratio] and [v - v * ratio] for RELATIVE. *)
Definition blended_total (position : string) (ratio v total : R) : Prop :=
  (exact_position position = true -> total = v)
  /\ (position = "RELATIVE"%string -> total = v * ratio + (v - v * ratio)).

(** What [iter_distance_from_camera] is to yield for a vertex at distance
    [d]: 0 below the range, 1 above it, linear strictly inside, and in every
    case a value of [0, 1]. *)
Definition clipped_ratio (range_min range_max d t0 : R) : Prop :=
  (d < range_min -> t0 = 0)
  /\ (d > range_max -> t0 = 1)
  /\ (range_min < d < range_max -> t0 = (d - range_min) / (range_max - range_min))
  /\ 0 <= t0 <= 1.

(** A chain whose material index changes once, at vertex [k]: the edges
    before [k] carry [m1], the edges from [k] on carry [m2]. *)
Definition changes_once_at (edges : list FEdge) (k : nat) (m1 m2 : Z) : Prop :=
  m1 <> m2
  /\ (0 < k < List.length edges)%nat
  /\ (forall j fe, nth_error edges j = Some fe ->
                   ParameterEditor.MaterialBoundaryUP0D.material_of fe
                   = if (j <? k)%nat then m1 else m2).

(** The both-sides rule of the face-mark selection, as the specification
    words it: a smooth edge consults its single face mark, a border edge its
    left mark, any other edge needs the left and the right mark. *)
Definition both_sides_marked (BORDER : Z) (fe : FEdge) : bool :=
  if is_smooth fe then face_mark fe
  else if (Z.land (nature fe) BORDER =? 0)%Z
       then face_mark_left fe && face_mark_right fe
       else face_mark_left fe.

(** Successive values never decrease. *)
Definition nondecreasing (l : list R) : Prop :=
  forall i a b, nth_error l i = Some a -> nth_error l (S i) = Some b -> a <= b.

(** The progress value [iter_t2d_along_stroke] derives from a distance. *)
Definition progress_of (total distance : R) : R :=
  if Req_dec_T total 0 then 0 else py_min (distance / total) 1.

(** A vertex seen from [location]: its 3D point relative to that place. *)
Definition seen_from (location : Vector3) (svert : StrokeVertex) : StrokeVertex :=
  mkStrokeVertex (point svert) (sub3 (point_3d svert) location) (sv_fedge svert)
                 (attribute svert).

Definition known_attribute (attribute : string) : bool :=
  existsb (String.eqb attribute)
          ["DIFF"; "ALPHA"; "SPEC"; "DIFF_R"; "DIFF_G"; "DIFF_B"; "SPEC_R"; "SPEC_G";
           "SPEC_B"; "SPEC_HARDNESS"]%string.

(** A unit vector, or the zero vector a degenerate edge leaves. *)
Definition unit_or_zero (n : Vector2) : Prop := length2 n = 1 \/ n = vec2 0 0.

(** The orientation of the turn at [q] on the way from [p] to [r]: positive
    for a counter-clockwise turn, negative for a clockwise one, 0 for three
    points on a line. *)
Definition turn (p q r : Vector2) : R :=
  (vx q - vx p) * (vy r - vy p) - (vy q - vy p) * (vx r - vx p).

(** The sum of the two sides of a vertex' thickness. *)
Definition total_thickness (svert : StrokeVertex) : R :=
  fst (thickness (attribute svert)) + snd (thickness (attribute svert)).

(** [svert'] is [svert] with, at most, another thickness. *)
Definition same_but_thickness (svert svert' : StrokeVertex) : Prop :=
  point svert' = point svert /\ point_3d svert' = point_3d svert
  /\ sv_fedge svert' = sv_fedge svert
  /\ alpha (attribute svert') = alpha (attribute svert).

(** [svert'] is [svert] with, at most, another alpha. *)
Definition same_but_alpha (svert svert' : StrokeVertex) : Prop :=
  point svert' = point svert /\ point_3d svert' = point_3d svert
  /\ sv_fedge svert' = sv_fedge svert
  /\ thickness (attribute svert') = thickness (attribute svert).

(** The abscissas at which a sequence of calls answered True. *)
Definition fired (answers : list bool) (ts : list R) : list R :=
  map snd (filter fst (combine answers ts)).

(** Each value is at least [limit] beyond the one before it, the first one
    beyond [last]. *)
Fixpoint spaced (limit last : R) (l : list R) : Prop :=
  match l with
  | [] => True
  | x :: rest => limit <= x - last /\ spaced limit x rest
  end.

(** The either-side rule of the face-mark selection: a smooth edge consults
    its single face mark, a border edge its left mark, any other edge needs
    the left or the right mark. *)
Definition one_side_marked (BORDER : Z) (fe : FEdge) : bool :=
  if is_smooth fe then face_mark fe
  else if (Z.land (nature fe) BORDER =? 0)%Z
       then face_mark_left fe || face_mark_right fe
       else face_mark_left fe.

(** The controller of the pattern [d, g] with [k] sampling steps
    accumulated since the last start, and with [k + 1] steps accumulated
    since the last stop. *)
Definition controller_started (s d g : R) (k : nat) : ParameterEditor.SplitPatternController.t :=
  ParameterEditor.SplitPatternController.mk s [d + g] [d] (INR k * s) 0 s 0.

Definition controller_stopped (s d g : R) (k : nat) : ParameterEditor.SplitPatternController.t :=
  ParameterEditor.SplitPatternController.mk s [d + g] [d] 0 0 (INR (S k) * s) 0.

(** What a dash/gap pair of the line style contributes to the split
    pattern: its two lengths, dash first, when both are positive, and
    nothing otherwise. *)
Definition qualifying_pair (dash gap : R) : list R :=
  if Rlt_dec 0 dash then (if Rlt_dec 0 gap then [dash; gap] else []) else [].

(** The binary64 number 0.5 in the representation of the floating-point
    specification: sign, mantissa and exponent, here [2^52 * 2^-53]. *)
Definition half_sf : spec_float := S754_finite false 4503599627370496 (-53).

(** The mantissa of half a number of the lowest binade, where halving has to
    drop the last bit of the mantissa [m]: rounded to nearest, ties to
    even. *)
Definition half_mantissa (m : positive) : Z :=
  match m with
  | xH => 0%Z
  | xO p => Zpos p
  | xI p => if Z.even (Zpos p) then Zpos p else Zpos (Pos.succ p)
  end.

(** A vertex moved by the 2D transform around the pivot position [pv]. *)
Definition moved (self : ParameterEditor.Transform2DShader.t) (pv : Vector2)
           (svert : StrokeVertex) : StrokeVertex :=
  ParameterEditor.Transform2DShader.set_point
    svert (ParameterEditor.Transform2DShader.transform self pv (point svert)).

(** ** Properties of utils.py *)

(** C10: for [lower <= higher], [bound(lower, x, higher)] equals
    [min(max(x, lower), higher)]; without the precondition the two differ for
    some [lower > higher]. *)
Theorem bound_refines_min_max :
  (forall lower x higher : R,
      lower <= higher ->
      Utils.bound lower x higher = Utils.bound_docstring lower x higher)
  /\ (exists lower x higher : R,
         lower > higher
         /\ Utils.bound lower x higher <> Utils.bound_docstring lower x higher).
Proof.
  split.
  - intros lower x higher Hle.
    unfold Utils.bound, Utils.bound_docstring, py_min, py_max.
    real_eval.
  - exists 1, (1/2), 0. split; [lra|].
    unfold Utils.bound, Utils.bound_docstring, py_min, py_max.
    real_eval.
Qed.

Lemma bound_refines_min_max_witness :
  0 <= 3 /\ Utils.bound 0 5 3 = Utils.bound_docstring 0 5 3.
Proof.
  split; [lra | apply (proj1 bound_refines_min_max 0 5 3); lra].
Defined.

(** [bound] always lands between its limits when they are ordered. *)
Lemma bound_range (lower x higher : R) :
  lower <= higher -> lower <= Utils.bound lower x higher <= higher.
Proof.
  intros Hle. unfold Utils.bound. real_cases; lra.
Qed.

(** ** Properties of the blending algebra *)

Import ParameterEditor.

Lemma py_min_Rmin (a b : R) : py_min a b = Rmin a b.
Proof.
  unfold py_min, Rmin. destruct (Rlt_dec b a), (Rle_dec a b); lra.
Qed.

Lemma py_max_Rmax (a b : R) : py_max a b = Rmax a b.
Proof.
  unfold py_max, Rmax. destruct (Rlt_dec a b), (Rle_dec a b); lra.
Qed.

Lemma py_div_nonzero (x y : R) : y <> 0 -> py_div x y = Ok (x / y).
Proof.
  intros Hy. unfold py_div. destruct (Req_dec_T y 0); [contradiction | reflexivity].
Qed.

(** C1: the eight blend modes of [ScalarBlendModifier.blend], with the
    division guarded against [v2 = 0], and the two ends of MIX. *)
Theorem blend_modes (f v1 v2 : R) :
  let blend mode := ScalarBlendModifier.blend (ScalarBlendModifier.mk mode f) v1 v2 in
  blend "MIX"%string = Ok ((1 - f) * v1 + f * v2)
  /\ blend "ADD"%string = Ok (v1 + f * v2)
  /\ blend "MULTIPLY"%string = Ok (v1 * (1 - f + f * v2))
  /\ blend "SUBTRACT"%string = Ok (v1 - f * v2)
  /\ (v2 <> 0 -> blend "DIVIDE"%string = Ok ((1 - f) * v1 + f * v1 / v2))
  /\ (v2 = 0 -> blend "DIVIDE"%string = Ok v1)
  /\ blend "DIFFERENCE"%string = Ok ((1 - f) * v1 + f * Rabs (v1 - v2))
  /\ blend "MININUM"%string = Ok (Rmin (f * v2) v1)
  /\ blend "MAXIMUM"%string = Ok (Rmax (f * v2) v1)
  /\ ScalarBlendModifier.blend (ScalarBlendModifier.mk "MIX" 0) v1 v2 = Ok v1
  /\ ScalarBlendModifier.blend (ScalarBlendModifier.mk "MIX" 1) v1 v2 = Ok v2.
Proof.
  cbv zeta. unfold ScalarBlendModifier.blend; cbn.
  repeat split.
  - intros Hv2. destruct (Req_dec_T v2 0); [contradiction|].
    rewrite py_div_nonzero by assumption. reflexivity.
  - intros Hv2. destruct (Req_dec_T v2 0); [reflexivity | contradiction].
  - now rewrite py_min_Rmin.
  - now rewrite py_max_Rmax.
  - f_equal; lra.
  - f_equal; lra.
Qed.

Lemma blend_modes_witness :
  ScalarBlendModifier.blend (ScalarBlendModifier.mk "DIVIDE" (1/2)) 6 3
  = Ok ((1 - 1/2) * 6 + 1/2 * 6 / 3).
Proof.
  apply (blend_modes (1/2) 6 3). lra.
Defined.

(** ** Properties of the thickness modifiers *)

(** *** Binary64 arithmetic of the position split

    The facts below are about the IEEE 754 operations themselves, through
    their specification on sign, mantissa and exponent: adding zero is
    exact, and so is splitting a finite number into its half and the rest. *)

Section Binary64Arithmetic.

Local Open Scope Z_scope.

(** The literal [0.5] is the number [half_sf]. *)
Lemma Prim2SF_half : Prim2SF 0.5 = half_sf.
Proof. vm_compute. reflexivity. Qed.

(** A valid binary64 mantissa and exponent: 53 digits, or fewer in the
    lowest binade. *)
Lemma bounded_spec (m : positive) (e : Z) :
  SpecFloat.bounded prec emax m e = true <->
  ((Zpos (digits2_pos m) = 53 /\ -1074 <= e) \/ (Zpos (digits2_pos m) <= 53 /\ e = -1074))
  /\ e <= 971.
Proof.
  unfold SpecFloat.bounded, canonical_mantissa, fexp, emin, prec, emax.
  rewrite andb_true_iff, Z.eqb_eq, Z.leb_le. lia.
Qed.

(** Rounding leaves a representable number as it is. *)
Lemma binary_round_canonical (s : bool) (m : positive) (e : Z) :
  SpecFloat.bounded prec emax m e = true ->
  binary_round prec emax s m e = S754_finite s m e.
Proof.
  unfold SpecFloat.bounded, canonical_mantissa. intros H.
  apply andb_true_iff in H. destruct H as [Hc He]. apply Z.eqb_eq in Hc.
  unfold binary_round. rewrite Hc. unfold shl_align. rewrite Z.sub_diag.
  unfold binary_round_aux, shr_fexp. unfold Zdigits2 at 1.
  rewrite Hc, Z.sub_diag.
  cbn [shr shr_record_of_loc shr_m loc_of_shr_record round_nearest_even Zdigits2].
  rewrite Hc, Z.sub_diag. cbn [shr shr_record_of_loc shr_m]. rewrite He. reflexivity.
Qed.

(** The sum and the difference of two numbers of one sign and one exponent
    are the rounded sum and difference of the mantissas. *)
Lemma SFadd_same_exp (s : bool) (a b : positive) (e : Z) :
  SFadd prec emax (S754_finite s a e) (S754_finite s b e)
  = binary_round prec emax s (a + b) e.
Proof.
  unfold SFadd. rewrite Z.min_id. unfold shl_align. rewrite Z.sub_diag. cbn [fst].
  destruct s; reflexivity.
Qed.

Lemma SFsub_same_exp (s : bool) (a b : positive) (e : Z) :
  (b < a)%positive ->
  SFsub prec emax (S754_finite s a e) (S754_finite s b e)
  = binary_round prec emax s (a - b) e.
Proof.
  intros Hlt. unfold SFsub. rewrite Z.min_id. unfold shl_align.
  rewrite Z.sub_diag. cbn [fst].
  pose proof (Pos2Z.inj_sub b a Hlt) as E.
  destruct s; cbn [cond_Zopp].
  - replace (- Z.pos a - - Z.pos b) with (Z.neg (a - b)) by lia. reflexivity.
  - rewrite <- E. reflexivity.
Qed.

Lemma SFeqb_finite_refl (s : bool) (m : positive) (e : Z) :
  SFeqb (S754_finite s m e) (S754_finite s m e) = true.
Proof.
  unfold SFeqb, SFcompare. rewrite Z.compare_refl.
  change (Pos.compare_cont Eq m m) with (Pos.compare m m). rewrite Pos.compare_refl.
  destruct s; reflexivity.
Qed.

(** Halving a normal number above the lowest binade. *)
Lemma SFmul_half_normal (s : bool) (m : positive) (e : Z) :
  Zpos (digits2_pos m) = 53 -> -1074 < e -> e <= 971 ->
  SFmul prec emax (S754_finite s m e) half_sf = S754_finite s m (e - 1).
Proof.
  intros Hd Hlo Hhi. unfold half_sf, SFmul. rewrite xorb_false_r.
  rewrite Pos.mul_comm. cbn [Pos.mul].
  unfold binary_round_aux, shr_fexp.
  cbn [Zdigits2 digits2_pos shr_record_of_loc].
  rewrite !Pos2Z.inj_succ, Hd.
  match goal with
  | |- context [shr _ _ ?n] => replace n with 52 by (unfold fexp, emin, prec, emax; lia)
  end.
  cbn [shr].
  match goal with
  | |- context [SpecFloat.iter_pos shr_1 52 ?r] =>
      change (SpecFloat.iter_pos shr_1 52 r)
        with {| shr_m := Z.pos m; shr_r := false; shr_s := false |}
  end.
  cbn [shr_m loc_of_shr_record round_nearest_even Zdigits2].
  rewrite Hd.
  match goal with
  | |- context [shr _ _ ?n] => replace n with 0 by (unfold fexp, emin, prec, emax; lia)
  end.
  cbn [shr shr_m].
  replace (e + -53 + 52) with (e - 1) by lia.
  replace (e - 1 <=? emax - prec) with true
    by (symmetry; apply Z.leb_le; unfold emax, prec; lia).
  reflexivity.
Qed.

(** The successor of a mantissa has at most one digit more. *)
Lemma digits2_pos_succ_le (p : positive) :
  Zpos (digits2_pos (Pos.succ p)) <= Zpos (digits2_pos p) + 1.
Proof.
  induction p as [p IH | p IH |]; cbn [Pos.succ digits2_pos];
    rewrite ?Pos2Z.inj_succ; lia.
Qed.

Lemma half_mantissa_digits (m q : positive) :
  half_mantissa m = Zpos q -> Zpos (digits2_pos q) <= Zpos (digits2_pos m).
Proof.
  destruct m as [p | p |]; cbn [half_mantissa digits2_pos].
  - pose proof (digits2_pos_succ_le p) as Hs.
    rewrite (Pos2Z.inj_succ (digits2_pos p)).
    destruct (Z.even (Z.pos p)); intros H; inversion H; subst q; lia.
  - rewrite (Pos2Z.inj_succ (digits2_pos p)). intros H; inversion H; subst q. lia.
  - discriminate.
Qed.

(** Halving a number of the lowest binade rounds the mantissa. *)
Lemma SFmul_half_emin (s : bool) (m : positive) :
  Zpos (digits2_pos m) <= 53 ->
  SFmul prec emax (S754_finite s m (-1074)) half_sf
  = match half_mantissa m with
    | Z0 => S754_zero s
    | Zpos q => S754_finite s q (-1074)
    | Zneg _ => S754_nan
    end.
Proof.
  intros Hd. unfold half_sf, SFmul. rewrite xorb_false_r.
  rewrite Pos.mul_comm. cbn [Pos.mul].
  unfold binary_round_aux, shr_fexp.
  cbn [Zdigits2 digits2_pos shr_record_of_loc].
  rewrite !Pos2Z.inj_succ.
  match goal with
  | |- context [shr _ _ ?n] => replace n with 53 by (unfold fexp, emin, prec, emax; lia)
  end.
  cbn [shr].
  match goal with
  | |- context [SpecFloat.iter_pos shr_1 53 ?r] =>
      change (SpecFloat.iter_pos shr_1 53 r)
        with (shr_1 {| shr_m := Z.pos m; shr_r := false; shr_s := false |})
  end.
  assert (Hround :
            round_nearest_even
              (shr_m (shr_1 {| shr_m := Z.pos m; shr_r := false; shr_s := false |}))
              (loc_of_shr_record
                 (shr_1 {| shr_m := Z.pos m; shr_r := false; shr_s := false |}))
            = half_mantissa m).
  { destruct m as [p | p |]; cbn; try reflexivity.
    destruct p; reflexivity. }
  rewrite Hround.
  destruct (half_mantissa m) as [| q | q] eqn:Hq.
  - cbn. reflexivity.
  - pose proof (half_mantissa_digits m q Hq) as Hdq.
    cbn [Zdigits2].
    match goal with
    | |- context [shr _ _ ?n] => replace n with 0 by (unfold fexp, emin, prec, emax; lia)
    end.
    cbn. reflexivity.
  - destruct m as [p | p |]; cbn [half_mantissa] in Hq; try discriminate.
    destruct (Z.even (Z.pos p)); discriminate.
Qed.

(** Twice the half of a normal number is the number. *)
Lemma binary_round_double (s : bool) (m : positive) (e : Z) :
  Zpos (digits2_pos m) = 53 -> -1074 < e -> e <= 971 ->
  binary_round prec emax s m~0 (e - 1) = S754_finite s m e.
Proof.
  intros Hd Hlo Hhi. unfold binary_round. cbn [digits2_pos].
  rewrite Pos2Z.inj_succ, Hd.
  replace (fexp prec emax (Z.succ 53 + (e - 1))) with e
    by (unfold fexp, emin, prec, emax; lia).
  unfold shl_align. replace (e - (e - 1)) with 1 by lia.
  unfold binary_round_aux, shr_fexp.
  cbn [Zdigits2 digits2_pos shr_record_of_loc].
  rewrite Pos2Z.inj_succ, Hd.
  match goal with
  | |- context [shr _ _ ?n] => replace n with 1 by (unfold fexp, emin, prec, emax; lia)
  end.
  cbn [shr SpecFloat.iter_pos shr_1 orb shr_m loc_of_shr_record round_nearest_even Zdigits2].
  change (SpecFloat.iter_pos shr_1 1 {| shr_m := Z.pos m~0; shr_r := false; shr_s := false |})
    with {| shr_m := Z.pos m; shr_r := false; shr_s := false |}.
  cbn [shr_m loc_of_shr_record round_nearest_even Zdigits2].
  rewrite Hd.
  match goal with
  | |- context [shr _ _ ?n] => replace n with 0 by (unfold fexp, emin, prec, emax; lia)
  end.
  cbn [shr shr_m].
  replace (e - 1 + 1) with e by lia.
  replace (e <=? emax - prec) with true
    by (symmetry; apply Z.leb_le; unfold emax, prec; lia).
  reflexivity.
Qed.

Lemma bounded_emin (q : positive) :
  Zpos (digits2_pos q) <= 53 -> SpecFloat.bounded prec emax q (-1074) = true.
Proof. intros H. apply bounded_spec. lia. Qed.

(** The two sides of the CENTER split of a finite number add up to it. *)
Lemma center_sum_SF (s : bool) (m : positive) (e : Z) :
  SpecFloat.bounded prec emax m e = true ->
  let x := S754_finite s m e in
  let h := SFmul prec emax x half_sf in
  SFeqb (SFadd prec emax h (SFsub prec emax x h)) x = true.
Proof.
  intros Hb x h. subst x h.
  pose proof Hb as Hb'. apply bounded_spec in Hb'. destruct Hb' as [Hcases Hhi].
  destruct (Z.eq_dec e (-1074)) as [He | He].
  - subst e.
    assert (Hd : Zpos (digits2_pos m) <= 53) by lia. clear Hcases.
    rewrite (SFmul_half_emin s m Hd).
    destruct m as [p | p |]; cbn [half_mantissa].
    + cbn [digits2_pos] in Hd. rewrite Pos2Z.inj_succ in Hd.
      pose proof (digits2_pos_succ_le p) as Hsucc.
      destruct (Z.even (Z.pos p)).
      * rewrite (SFsub_same_exp s p~1 p) by lia.
        replace (p~1 - p)%positive with (Pos.succ p) by lia.
        rewrite (binary_round_canonical s (Pos.succ p)) by (apply bounded_emin; lia).
        rewrite SFadd_same_exp.
        replace (p + Pos.succ p)%positive with (p~1)%positive by lia.
        rewrite (binary_round_canonical s p~1 _ Hb). apply SFeqb_finite_refl.
      * rewrite (SFsub_same_exp s p~1 (Pos.succ p)) by lia.
        replace (p~1 - Pos.succ p)%positive with p by lia.
        rewrite (binary_round_canonical s p) by (apply bounded_emin; lia).
        rewrite SFadd_same_exp.
        replace (Pos.succ p + p)%positive with (p~1)%positive by lia.
        rewrite (binary_round_canonical s p~1 _ Hb). apply SFeqb_finite_refl.
    + cbn [digits2_pos] in Hd. rewrite Pos2Z.inj_succ in Hd.
      rewrite (SFsub_same_exp s p~0 p) by lia.
      replace (p~0 - p)%positive with p by lia.
      rewrite (binary_round_canonical s p) by (apply bounded_emin; lia).
      rewrite SFadd_same_exp.
      replace (p + p)%positive with (p~0)%positive by lia.
      rewrite (binary_round_canonical s p~0 _ Hb). apply SFeqb_finite_refl.
    + cbn [SFsub SFadd]. apply SFeqb_finite_refl.
  - assert (Hd : Zpos (digits2_pos m) = 53) by lia.
    assert (Hlo : -1074 < e) by lia. clear Hcases.
    rewrite (SFmul_half_normal s m e Hd Hlo Hhi).
    assert (Hsub : SFsub prec emax (S754_finite s m e) (S754_finite s m (e - 1))
                   = S754_finite s m (e - 1)).
    { unfold SFsub. replace (Z.min e (e - 1)) with (e - 1) by lia.
      unfold shl_align. replace (e - 1 - e) with (-1) by lia.
      rewrite Z.sub_diag. cbn [fst Pos.iter].
      replace (cond_Zopp s (Z.pos m~0) - cond_Zopp s (Z.pos m))
        with (cond_Zopp s (Z.pos m)) by (destruct s; cbn [cond_Zopp]; lia).
      transitivity (binary_round prec emax s m (e - 1)).
      - destruct s; reflexivity.
      - apply binary_round_canonical. apply bounded_spec. lia. }
    rewrite Hsub, SFadd_same_exp.
    replace (m + m)%positive with (m~0)%positive by lia.
    rewrite (binary_round_double s m e Hd Hlo Hhi). apply SFeqb_finite_refl.
Qed.

(** A finite float is a zero or has a mantissa and an exponent. *)
Lemma is_finite_SF (v : float) :
  PrimFloat.is_finite v = true ->
  match Prim2SF v with
  | S754_zero _ | S754_finite _ _ _ => True
  | _ => False
  end.
Proof.
  unfold PrimFloat.is_finite, PrimFloat.is_nan, PrimFloat.is_infinity.
  intros H. rewrite !FloatAxioms.eqb_spec, FloatAxioms.abs_spec in H.
  change (Prim2SF infinity) with (S754_infinity false) in H.
  destruct (Prim2SF v) as [s | s | | s m e]; try exact I.
  - destruct s; discriminate H.
  - discriminate H.
Qed.

(** In binary64, [v * 0.5 + (v - v * 0.5) == v] for every finite [v]. *)
Lemma center_split_sum (v : float) :
  PrimFloat.is_finite v = true ->
  (v * 0.5 + (v - v * 0.5) =? v)%float = true.
Proof.
  intros Hfin. apply is_finite_SF in Hfin.
  pose proof (Prim2SF_valid v) as Hv.
  rewrite FloatAxioms.eqb_spec, FloatAxioms.add_spec, FloatAxioms.sub_spec, FloatAxioms.mul_spec, Prim2SF_half.
  unfold SF64add, SF64sub, SF64mul.
  destruct (Prim2SF v) as [s | s | | s m e]; try contradiction.
  - destruct s; reflexivity.
  - apply center_sum_SF. exact Hv.
Qed.

End Binary64Arithmetic.

(** Adding zero to a binary64 value that is not NaN gives a value equal to
    it (of either sign, for the zeros). *)
Lemma binary64_add_zero (v : float) :
  PrimFloat.is_nan v = false ->
  (v + 0 =? v)%float = true /\ (0 + v =? v)%float = true.
Proof.
  unfold PrimFloat.is_nan. intros H. apply negb_false_iff in H.
  rewrite !FloatAxioms.eqb_spec, !FloatAxioms.add_spec in *.
  change (Prim2SF 0%float) with (S754_zero false).
  destruct (Prim2SF v) as [s | s | | s m e]; try discriminate.
  - destruct s; split; reflexivity.
  - destruct s; split; reflexivity.
  - split; exact H.
Qed.






(** ** Properties of the dash-pattern split controller *)

(** The controller built from the pattern [10, 5] with sampling [1.0], with
    [k] sampling steps accumulated since the last start. *)
Lemma pattern_10_5_init :
  SplitPatternController.__init__ [10; 5] 1
  = SplitPatternController.mk 1 [15] [10] 0 0 1 0.
Proof.
  unfold SplitPatternController.__init__, SplitPatternController.init. cbn.
  f_equal. f_equal. lra.
Qed.

Lemma start_below_boundary (k : nat) :
  (k < 14)%nat ->
  SplitPatternController.start (SplitPatternController.mk 1 [15] [10] (INR k) 0 1 0)
  = (Ok false, SplitPatternController.mk 1 [15] [10] (INR (S k)) 0 1 0).
Proof.
  intros Hk. unfold SplitPatternController.start. cbn -[INR].
  assert (Hle : INR k <= 13).
  { replace 13 with (INR 13) by (simpl; lra). apply le_INR. lia. }
  assert (H0 : 0 <= INR k) by apply pos_INR.
  destruct (Rlt_dec _ _) as [Hlt | _].
  - exfalso. unfold py_abs, Rabs in Hlt.
    destruct (Rcase_abs (INR k + 1 - 15)); lra.
  - rewrite S_INR. reflexivity.
Qed.

Lemma start_at_boundary :
  SplitPatternController.start (SplitPatternController.mk 1 [15] [10] (INR 14) 0 1 0)
  = (Ok true, SplitPatternController.mk 1 [15] [10] (INR 0) 0 1 0).
Proof.
  unfold SplitPatternController.start. cbn.
  destruct (Rlt_dec _ _) as [_ | Hn].
  - reflexivity.
  - exfalso. apply Hn. unfold py_abs, Rabs.
    destruct (Rcase_abs _); lra.
Qed.

Lemma after_starts_last (n : nat) (self : SplitPatternController.t) :
  SplitPatternController.after_starts (S n) self
  = snd (SplitPatternController.start (SplitPatternController.after_starts n self)).
Proof.
  revert self. induction n as [| n IH]; intros self.
  - reflexivity.
  - change (SplitPatternController.after_starts (S (S n)) self)
      with (SplitPatternController.after_starts (S n)
              (snd (SplitPatternController.start self))).
    rewrite IH. reflexivity.
Qed.

Lemma succ_mod_15 (n : nat) :
  (S n mod 15 = if n mod 15 =? 14 then 0 else S (n mod 15))%nat.
Proof.
  pose proof (Nat.div_mod_eq n 15) as Hn.
  pose proof (Nat.mod_upper_bound n 15 ltac:(lia)) as Hb.
  destruct (Nat.eqb_spec (n mod 15) 14) as [E | E].
  - symmetry. apply (Nat.mod_unique (S n) 15 (S (n / 15)) 0); lia.
  - symmetry. apply (Nat.mod_unique (S n) 15 (n / 15) (S (n mod 15))); lia.
Qed.

Lemma after_starts_pattern_10_5 (n : nat) :
  SplitPatternController.after_starts n (SplitPatternController.__init__ [10; 5] 1)
  = SplitPatternController.mk 1 [15] [10] (INR (n mod 15)) 0 1 0.
Proof.
  induction n as [| n IH].
  - rewrite pattern_10_5_init. reflexivity.
  - rewrite after_starts_last, IH, succ_mod_15.
    pose proof (Nat.mod_upper_bound n 15 ltac:(lia)) as Hb.
    destruct (Nat.eqb_spec (n mod 15) 14) as [E | E].
    + rewrite E, start_at_boundary. reflexivity.
    + rewrite start_below_boundary by lia. reflexivity.
Qed.

(** C4: with pattern [10, 5] and sampling 1.0, call number [n + 1] of
    [start()] returns True exactly when [n + 1] is a multiple of 15, and
    after every 15 calls the controller is back in its initial state. *)
Theorem start_true_every_15th_call :
  (forall n : nat,
      SplitPatternController.start_call n (SplitPatternController.__init__ [10; 5] 1)
      = Ok (S n mod 15 =? 0)%nat)
  /\ (forall k : nat,
         SplitPatternController.after_starts (15 * k)
           (SplitPatternController.__init__ [10; 5] 1)
         = SplitPatternController.__init__ [10; 5] 1).
Proof.
  split.
  - intros n. unfold SplitPatternController.start_call.
    rewrite after_starts_pattern_10_5, succ_mod_15.
    pose proof (Nat.mod_upper_bound n 15 ltac:(lia)) as Hb.
    destruct (Nat.eqb_spec (n mod 15) 14) as [E | E].
    + rewrite E, start_at_boundary. reflexivity.
    + rewrite start_below_boundary by lia. reflexivity.
  - intros k. rewrite after_starts_pattern_10_5, pattern_10_5_init.
    replace (15 * k)%nat with (k * 15)%nat by lia.
    rewrite Nat.Div0.mod_mul. reflexivity.
Qed.

(** ** Properties of the stroke utilities *)

(** At the begin and at the end of the iterator the curvature is 0. *)
Lemma stroke_curvature_at_ends (it : StrokeVertexIterator) :
  is_begin it = true \/ is_end it = true -> Utils.stroke_curvature it = Ok 0.
Proof.
  intros [H | H]; unfold Utils.stroke_curvature; rewrite H;
    [rewrite orb_true_r | rewrite orb_true_l]; reflexivity.
Qed.

(** The guarded quotient of [stroke_curvature]: a value of [0, 1] in every
    case, 0 when the numerator or the denominator is 0. *)
Lemma curvature_quotient (num den : R) :
  exists K : R,
    except_ZeroDivisionError
      (K <- py_div num den ;; Ok (Utils.bound 0 K 1)) 0 = Ok K
    /\ 0 <= K <= 1
    /\ (num = 0 -> K = 0)
    /\ (den = 0 -> K = 0).
Proof.
  unfold py_div. destruct (Req_dec_T den 0) as [Hden | Hden]; cbn.
  - exists 0. repeat split; lra.
  - exists (Utils.bound 0 (num / den) 1). split; [reflexivity|].
    split; [apply bound_range; lra|].
    split; [| intros; contradiction].
    intros Hnum. subst num. unfold Utils.bound, Rdiv. rewrite Rmult_0_l.
    real_eval.
Qed.

(** At a vertex that has a predecessor and a successor, [stroke_curvature]
    returns a value of [0, 1]; the value is 0 when the three points are
    colinear, and 0 (no exception) when the product of the three side lengths
    is 0.  The last vertex of a stroke has no successor and is not covered:
    see [stroke_curvature_raises_at_last_vertex]. *)
Lemma stroke_curvature_bounded
        (it : StrokeVertexIterator) (vprev vcur vnext : StrokeVertex) :
  (0 < svi_pos it)%nat ->
  nth_error (svi_vertices it) (pred (svi_pos it)) = Some vprev ->
  nth_error (svi_vertices it) (svi_pos it) = Some vcur ->
  nth_error (svi_vertices it) (S (svi_pos it)) = Some vnext ->
  exists K : R,
    Utils.stroke_curvature it = Ok K
    /\ 0 <= K <= 1
    /\ (colinear (point vprev) (point vcur) (point vnext) -> K = 0)
    /\ (length2 (sub2 (point vcur) (point vprev))
        * length2 (sub2 (point vnext) (point vcur))
        * length2 (sub2 (point vprev) (point vnext)) = 0 -> K = 0).
Proof.
  intros Hpos Hprev Hcur Hnext.
  unfold Utils.stroke_curvature.
  assert (Hend : is_end it = false).
  { unfold is_end. apply Nat.leb_gt. apply nth_error_Some. congruence. }
  assert (Hbegin : is_begin it = false).
  { unfold is_begin. apply Nat.eqb_neq. lia. }
  rewrite Hend, Hbegin. cbn [orb].
  unfold object, incremented, decremented. cbn [svi_vertices svi_pos].
  rewrite Hnext, Hprev, Hcur. cbn [bind].
  destruct (curvature_quotient
              (4 * (0.5 * cross2 (sub2 (point vcur) (point vprev))
                                 (sub2 (point vprev) (point vnext))))
              (length2 (sub2 (point vcur) (point vprev))
               * length2 (sub2 (point vnext) (point vcur))
               * length2 (sub2 (point vprev) (point vnext))))
    as (K & HK & Hrange & Hnum & Hden).
  exists K. split; [exact HK|]. split; [exact Hrange|]. split; [| exact Hden].
  intros Hcol. apply Hnum. unfold colinear in Hcol.
  unfold cross2, sub2. cbn [vx vy]. nra.
Qed.

Lemma stroke_curvature_bounded_witness :
  let v x y := mkStrokeVertex (vec2 x y) (vec3 0 0 0)
                              (mkFEdge 0 false (vec3 0 0 0) false false false 0 0)
                              (mkAttribute 1 (0, 0)) in
  exists K : R,
    Utils.stroke_curvature (mkSVIterator [v 0 0; v 1 0; v 2 0] 1) = Ok K
    /\ 0 <= K <= 1
    /\ (colinear (vec2 0 0) (vec2 1 0) (vec2 2 0) -> K = 0)
    /\ (length2 (sub2 (vec2 1 0) (vec2 0 0))
        * length2 (sub2 (vec2 2 0) (vec2 1 0))
        * length2 (sub2 (vec2 0 0) (vec2 2 0)) = 0 -> K = 0).
Proof.
  intros v.
  apply (stroke_curvature_bounded (mkSVIterator [v 0 0; v 1 0; v 2 0] 1)
                                  (v 0 0) (v 1 0) (v 2 0)).
  - cbn. lia.
  - reflexivity.
  - reflexivity.
  - reflexivity.
Defined.

(** C5: the guard of [stroke_curvature] leaves the last vertex of a stroke
    unprotected.  With the iterator on the last of two or more vertices
    neither [is_begin] nor [is_end] holds (the end is the position after the
    last vertex), so the function goes on to read the successor, which does
    not exist, and raises instead of returning a value of [0, 1]. *)
Theorem stroke_curvature_raises_at_last_vertex (it : StrokeVertexIterator) :
  (0 < svi_pos it)%nat ->
  S (svi_pos it) = List.length (svi_vertices it) ->
  is_begin it = false
  /\ is_end it = false
  /\ Utils.stroke_curvature it = Raise RuntimeError.
Proof.
  intros Hpos Hlast.
  assert (Hbegin : is_begin it = false).
  { unfold is_begin. apply Nat.eqb_neq. lia. }
  assert (Hend : is_end it = false).
  { unfold is_end. apply Nat.leb_gt. lia. }
  split; [exact Hbegin|]. split; [exact Hend|].
  unfold Utils.stroke_curvature. rewrite Hend, Hbegin. cbn [orb].
  unfold object at 1. unfold incremented. cbn [svi_vertices svi_pos].
  assert (Hnone : nth_error (svi_vertices it) (S (svi_pos it)) = None).
  { apply nth_error_None. lia. }
  rewrite Hnone. reflexivity.
Qed.

Lemma stroke_curvature_raises_at_last_vertex_witness :
  let v x y := mkStrokeVertex (vec2 x y) (vec3 0 0 0)
                              (mkFEdge 0 false (vec3 0 0 0) false false false 0 0)
                              (mkAttribute 1 (0, 0)) in
  Utils.stroke_curvature (mkSVIterator [v 0 0; v 1 0; v 2 0] 2) = Raise RuntimeError.
Proof.
  intros v.
  refine (proj2 (proj2 (stroke_curvature_raises_at_last_vertex
                          (mkSVIterator [v 0 0; v 1 0; v 2 0] 2) _ _))).
  - cbn. lia.
  - reflexivity.
Defined.

Lemma distance_from_camera_step_spec (range_min range_max : R) (svert : StrokeVertex) :
  range_min < range_max ->
  exists t0 : R,
    Utils.distance_from_camera_step range_min range_max (range_max - range_min) svert
    = Ok t0
    /\ clipped_ratio range_min range_max (length3 (point_3d svert)) t0.
Proof.
  intros Hrange. unfold Utils.distance_from_camera_step, clipped_ratio.
  set (d := length3 (point_3d svert)).
  destruct (Rlt_dec range_min d) as [Hlo | Hlo].
  - destruct (Rlt_dec d range_max) as [Hhi | Hhi].
    + rewrite py_div_nonzero by lra.
      exists ((d - range_min) / (range_max - range_min)).
      split; [reflexivity|].
      assert (Hpos : 0 < range_max - range_min) by lra.
      assert (Hq : 0 <= (d - range_min) / (range_max - range_min) <= 1).
      { split.
        - apply Rmult_le_pos; [lra | left; apply Rinv_0_lt_compat; exact Hpos].
        - apply Rmult_le_reg_r with (r := range_max - range_min); [exact Hpos|].
          unfold Rdiv. rewrite Rmult_assoc, Rinv_l by lra. lra. }
      repeat split; intros; try lra.
    + exists (if Rgt_dec range_min d then 0 else 1).
      split; [reflexivity|].
      destruct (Rgt_dec range_min d); repeat split; intros; lra.
  - exists (if Rgt_dec range_min d then 0 else 1).
    split; [reflexivity|].
    destruct (Rgt_dec range_min d); repeat split; intros; lra.
Qed.

(** C7: with [range_min < range_max], [iter_distance_from_camera] yields one
    value per stroke vertex without raising: 0 for a distance below
    [range_min], 1 above [range_max], the linear ratio strictly between, and
    always a value of [0, 1]. *)
Theorem iter_distance_from_camera_clipped (stroke : Stroke) (range_min range_max : R) :
  range_min < range_max ->
  exists ts : list R,
    Utils.iter_distance_from_camera stroke range_min range_max = Ok ts
    /\ Forall2 (fun svert t0 =>
                  clipped_ratio range_min range_max (length3 (point_3d svert)) t0)
               (vertices stroke) ts.
Proof.
  intros Hrange. unfold Utils.iter_distance_from_camera.
  induction (vertices stroke) as [| svert rest IH].
  - exists []. split; [reflexivity | constructor].
  - destruct IH as (ts & Hts & Hall).
    destruct (distance_from_camera_step_spec range_min range_max svert Hrange)
      as (t0 & Ht0 & Hclip).
    exists (t0 :: ts). split.
    + cbn [Utils.collect]. rewrite Ht0, Hts. reflexivity.
    + constructor; assumption.
Qed.

Lemma iter_distance_from_camera_clipped_witness :
  let v z := mkStrokeVertex (vec2 0 0) (vec3 0 0 z)
                            (mkFEdge 0 false (vec3 0 0 0) false false false 0 0)
                            (mkAttribute 1 (0, 0)) in
  exists ts : list R,
    Utils.iter_distance_from_camera (mkStroke [v 1; v 3; v 9] 8) 2 4 = Ok ts
    /\ Forall2 (fun svert t0 => clipped_ratio 2 4 (length3 (point_3d svert)) t0)
               [v 1; v 3; v 9] ts.
Proof.
  intros v.
  apply (iter_distance_from_camera_clipped (mkStroke [v 1; v 3; v 9] 8) 2 4).
  lra.
Defined.

(** A distance equal to [range_min] falls in neither clipped branch of the
    source and yields 1. *)
Lemma distance_at_range_min (range_min range_max : R) (svert : StrokeVertex) :
  length3 (point_3d svert) = range_min ->
  Utils.distance_from_camera_step range_min range_max (range_max - range_min) svert
  = Ok 1.
Proof.
  intros Hd. unfold Utils.distance_from_camera_step. rewrite Hd.
  destruct (Rlt_dec range_min range_min); [lra|].
  destruct (Rgt_dec range_min range_min); [lra | reflexivity].
Qed.

(** ** Properties of the splitting and selection predicates *)

Lemma material_boundary_interior (edges : list FEdge) (p : nat) (e1 e2 : FEdge) :
  nth_error edges p = Some e1 ->
  nth_error edges (S p) = Some e2 ->
  MaterialBoundaryUP0D.__call__ (mkI0DIterator edges (S p))
  = (Ok (negb (MaterialBoundaryUP0D.material_of e1
               =? MaterialBoundaryUP0D.material_of e2)%Z),
     mkI0DIterator edges (S (S p))).
Proof.
  intros H1 H2.
  assert (Hlen : (S (S p) <= List.length edges)%nat).
  { apply Nat.le_succ_l. apply nth_error_Some. congruence. }
  unfold MaterialBoundaryUP0D.__call__, i0d_decrement, i0d_object, i0d_next.
  cbn [i0d_pos chain].
  replace (p <=? List.length edges)%nat with true by (symmetry; apply Nat.leb_le; lia).
  replace (S p <=? List.length edges)%nat with true by (symmetry; apply Nat.leb_le; lia).
  cbn [i0d_pos chain].
  replace (S (S p) <=? List.length edges)%nat with true
    by (symmetry; apply Nat.leb_le; lia).
  cbn [chain]. unfold MaterialBoundaryUP0D.compare, get_fedge.
  rewrite Nat.eqb_refl, orb_true_r.
  replace (Nat.min (S p) p) with p by lia. rewrite H1. cbn [bind].
  rewrite Nat.eqb_refl. cbn [orb].
  replace (Nat.min (S p) (S (S p))) with (S p) by lia. rewrite H2.
  reflexivity.
Qed.

Lemma material_boundary_first (edges : list FEdge) :
  fst (MaterialBoundaryUP0D.__call__ (mkI0DIterator edges 0)) = Ok false.
Proof. reflexivity. Qed.

Lemma material_boundary_last (edges : list FEdge) (p : nat) :
  (List.length edges <= p)%nat ->
  fst (MaterialBoundaryUP0D.__call__ (mkI0DIterator edges p)) = Ok false.
Proof.
  intros Hp. destruct p as [| p]; [reflexivity|].
  unfold MaterialBoundaryUP0D.__call__, i0d_decrement, i0d_object, i0d_next.
  cbn [i0d_pos chain].
  destruct (p <=? List.length edges)%nat eqn:E0; [| reflexivity].
  destruct (S p <=? List.length edges)%nat eqn:E1; [| reflexivity].
  cbn [i0d_pos chain].
  replace (S (S p) <=? List.length edges)%nat with false
    by (symmetry; apply Nat.leb_gt; lia).
  reflexivity.
Qed.

(** C6: at a vertex with an incoming and an outgoing edge,
    [MaterialBoundaryUP0D] returns True exactly when their material indices
    differ; at the first and at the last vertex of the chain it returns False
    without raising; on a chain whose material index changes once, at vertex
    [k], it is True at [k] and at no other vertex. *)
Theorem material_boundary_fires_at_change :
  (forall (edges : list FEdge) (p : nat) (e1 e2 : FEdge),
      nth_error edges p = Some e1 ->
      nth_error edges (S p) = Some e2 ->
      fst (MaterialBoundaryUP0D.__call__ (mkI0DIterator edges (S p)))
      = Ok (negb (MaterialBoundaryUP0D.material_of e1
                  =? MaterialBoundaryUP0D.material_of e2)%Z))
  /\ (forall (edges : list FEdge) (p : nat),
         p = 0%nat \/ (List.length edges <= p)%nat ->
         fst (MaterialBoundaryUP0D.__call__ (mkI0DIterator edges p)) = Ok false)
  /\ (forall (edges : list FEdge) (k : nat) (m1 m2 : Z),
         changes_once_at edges k m1 m2 ->
         forall p : nat,
           (p <= List.length edges)%nat ->
           fst (MaterialBoundaryUP0D.__call__ (mkI0DIterator edges p))
           = Ok (p =? k)%nat).
Proof.
  split; [| split].
  - intros edges p e1 e2 H1 H2.
    rewrite (material_boundary_interior edges p e1 e2 H1 H2). reflexivity.
  - intros edges p [Hp | Hp].
    + subst p. apply material_boundary_first.
    + apply material_boundary_last. exact Hp.
  - intros edges k m1 m2 (Hneq & Hk & Hmat) p Hp.
    destruct p as [| p].
    + rewrite material_boundary_first.
      replace (0 =? k)%nat with false by (symmetry; apply Nat.eqb_neq; lia).
      reflexivity.
    + destruct (Nat.eq_dec (S p) (List.length edges)) as [Hlast | Hin].
      * rewrite material_boundary_last by lia.
        replace (S p =? k)%nat with false by (symmetry; apply Nat.eqb_neq; lia).
        reflexivity.
      * destruct (nth_error edges p) as [e1 |] eqn:H1;
          [| apply nth_error_None in H1; lia].
        destruct (nth_error edges (S p)) as [e2 |] eqn:H2;
          [| apply nth_error_None in H2; lia].
        rewrite (material_boundary_interior edges p e1 e2 H1 H2). cbn [fst].
        rewrite (Hmat p e1 H1), (Hmat (S p) e2 H2). f_equal.
        destruct (Nat.ltb_spec p k) as [Hpk | Hpk];
          destruct (Nat.ltb_spec (S p) k) as [Hsk | Hsk];
          destruct (Nat.eqb_spec (S p) k) as [Heq | Heq]; lia.
Qed.

Lemma material_boundary_fires_at_change_witness :
  let e m := mkFEdge 0 false (vec3 0 0 0) false false false 0 m in
  fst (MaterialBoundaryUP0D.__call__ (mkI0DIterator [e 1; e 1; e 2; e 2]%Z 2))
  = Ok (2 =? 2)%nat.
Proof.
  intros e.
  refine (proj2 (proj2 material_boundary_fires_at_change)
                [e 1; e 1; e 2; e 2]%Z 2%nat 1%Z 2%Z _ 2%nat _).
  - split; [discriminate|]. split; [cbn; lia|].
    intros j fe Hj.
    destruct j as [| [| [| [| j]]]]; cbn in Hj; inversion Hj; subst; try reflexivity.
    destruct j; discriminate.
  - cbn. lia.
Defined.

(** ** The face-mark predicates *)

Lemma FaceMarkBoth_loop_exists (BORDER : Z) (fe : list FEdge) :
  FaceMarkBothUP1D.loop BORDER fe = existsb (both_sides_marked BORDER) fe.
Proof.
  induction fe as [| e rest IH]; [reflexivity|].
  cbn [FaceMarkBothUP1D.loop existsb]. rewrite IH.
  assert (Hm : FaceMarkBothUP1D.marked BORDER e = both_sides_marked BORDER e).
  { unfold FaceMarkBothUP1D.marked, both_sides_marked.
    destruct (is_smooth e); [reflexivity|].
    destruct (Z.land (nature e) BORDER =? 0)%Z; cbn [negb];
      [apply andb_comm | reflexivity]. }
  rewrite Hm. destruct (both_sides_marked BORDER e); reflexivity.
Qed.

(** C9: [FaceMarkBothUP1D] raises on every ViewEdge: its loop condition
    reads the local [fe] that no statement has bound.  On a ViewEdge whose
    only edge is smooth and marked, where the both-sides rule holds and
    [FaceMarkOneUP1D] answers True, the call raises [UnboundLocalError]. *)
Theorem FaceMarkBothUP1D_raises :
  (forall (BORDER : Z) (inter : ViewEdge),
      FaceMarkBothUP1D.__call__ BORDER inter = Raise (UnboundLocalError "fe"))
  /\ (let inter :=
          mkViewEdge [mkFEdge 1 true (vec3 0 0 0) true false false 0 0] in
      existsb (both_sides_marked 2) (fedges inter) = true
      /\ FaceMarkBothUP1D.loop 2 (fedges inter) = true
      /\ FaceMarkOneUP1D.__call__ 2 inter = Ok true
      /\ FaceMarkBothUP1D.__call__ 2 inter = Raise (UnboundLocalError "fe")).
Proof.
  split.
  - intros BORDER inter. reflexivity.
  - cbv zeta. repeat split.
Qed.

(** ** Configuration errors *)

Lemma blend_unknown (blend : string) (influence v1 v2 : R) :
  known_blend blend = false ->
  ScalarBlendModifier.blend (ScalarBlendModifier.mk blend influence) v1 v2
  = Raise (ValueError ("unknown curve blend type: " ++ blend)).
Proof.
  intros H. unfold known_blend in H. cbn [existsb] in H.
  repeat (apply orb_false_iff in H; destruct H as [? H]).
  unfold ScalarBlendModifier.blend.
  cbn [ScalarBlendModifier.__blend ScalarBlendModifier.__influence].
  repeat match goal with
         | E : String.eqb blend _ = false |- _ => rewrite E; clear E
         end.
  reflexivity.
Qed.

Lemma blend_thickness_unknown
      (self : ThicknessBlenderMixIn.t) (blender : ScalarBlendModifier.t)
      (outer inner v0 v : R) :
  known_position (ThicknessBlenderMixIn.__position self) = false ->
  ScalarBlendModifier.blend blender (outer + inner) v0 = Ok v ->
  ThicknessBlenderMixIn.blend_thickness self blender outer inner v0
  = Raise (ValueError ("unknown thickness position: "
                         ++ ThicknessBlenderMixIn.__position self)).
Proof.
  intros H Hblend. unfold known_position in H. cbn [existsb] in H.
  repeat (apply orb_false_iff in H; destruct H as [? H]).
  unfold ThicknessBlenderMixIn.blend_thickness. rewrite Hblend. cbn [bind].
  repeat match goal with
         | E : String.eqb _ _ = false |- _ => rewrite E; clear E
         end.
  reflexivity.
Qed.

Lemma BaseThicknessShader_unknown
      (camera_type : string) (thickness : R) (position : string) (ratio : R) :
  known_position position = false ->
  BaseThicknessShader.__init__ camera_type thickness position ratio
  = Raise (ValueError ("unknown thickness position: " ++ position)).
Proof.
  intros H. unfold known_position in H. cbn [existsb] in H.
  repeat (apply orb_false_iff in H; destruct H as [? H]).
  unfold BaseThicknessShader.__init__.
  repeat match goal with
         | E : String.eqb _ _ = false |- _ => rewrite E; clear E
         end.
  reflexivity.
Qed.

Lemma shade_unknown_blend
      (Curve : Type) (evaluateCurveMappingF : Curve -> Z -> R -> R)
      (self : CurveMappingModifier.t Curve) (stroke : Stroke) :
  known_blend (ScalarBlendModifier.__blend (CurveMappingModifier.base Curve self)) = false ->
  AlphaAlongStrokeShader.shade Curve evaluateCurveMappingF self stroke
  = match vertices stroke with
    | [] => Ok (mkStroke [] (length_2d stroke))
    | _ :: _ =>
        Raise (ValueError
                 ("unknown curve blend type: "
                    ++ ScalarBlendModifier.__blend (CurveMappingModifier.base Curve self)))
    end.
Proof.
  intros H. unfold AlphaAlongStrokeShader.shade, Utils.iter_t2d_along_stroke.
  destruct (vertices stroke) as [| svert rest]; [reflexivity|].
  cbn [combine AlphaAlongStrokeShader.shade_loop].
  destruct (CurveMappingModifier.base Curve self) as [b f] eqn:Hbase.
  cbn [ScalarBlendModifier.__blend] in *.
  rewrite blend_unknown by exact H. reflexivity.
Qed.

(** An unknown blend mode and an unknown thickness position pass the
    constructors of the blending modifiers, so the statement that every
    configuration error is raised at construction fails. *)
Lemma unknown_blend_accepted_at_construction :
  known_blend "FOO" = false
  /\ ScalarBlendModifier.__init__ "FOO" (1/2) = Ok (ScalarBlendModifier.mk "FOO" (1/2))
  /\ CurveMappingModifier.__init__ unit "FOO" (1/2) "LINEAR" false tt
     = Ok (CurveMappingModifier.mk unit (ScalarBlendModifier.mk "FOO" (1/2))
                                   "LINEAR" false tt)
  /\ known_position "MIDDLE" = false
  /\ ThicknessBlenderMixIn.__init__ "PERSP" "MIDDLE" (1/2)
     = Ok (ThicknessBlenderMixIn.mk (ThicknessModifierMixIn.mk true) "MIDDLE" (1/2))
  /\ ~ (forall (blend : string) (influence : R),
           known_blend blend = false ->
           exists msg, ScalarBlendModifier.__init__ blend influence
                       = Raise (ValueError msg)).
Proof.
  repeat split.
  intros Hclaim.
  destruct (Hclaim "FOO"%string (1/2) eq_refl) as [msg Hmsg].
  discriminate Hmsg.
Qed.

(** C8 (as the code has it): an unknown pivot mode, a None target and an
    unknown thickness position of the base thickness shader raise ValueError
    in the constructor.  An unknown blend mode and an unknown thickness
    position of a blending thickness modifier are accepted by the
    constructors; ValueError is raised by the first call of [blend] or
    [blend_thickness], that is while the first vertex of a stroke is shaded,
    and a stroke without vertices is shaded without any error. *)
Theorem configuration_errors :
  (forall (pivot : string) (scale_x scale_y angle pivot_u pivot_x pivot_y : R),
      Transform2DShader.known_pivot pivot = false ->
      Transform2DShader.__init__ pivot scale_x scale_y angle pivot_u pivot_x pivot_y
      = Raise (ValueError
                 ("expected pivot in {'START', 'END', 'CENTER', 'ABSOLUTE', 'PARAM'}, not"
                    ++ pivot)))
  /\ (forall (ColorRamp : Type) (model_view : Vector3 -> Vector3) (blend : string)
             (influence : R) (ramp : ColorRamp) (range_min range_max : R),
         ColorDistanceFromObjectShader.__init__
           ColorRamp model_view blend influence ramp None range_min range_max
         = Raise (ValueError "ColorDistanceFromObjectShader: target can't be None "))
  /\ (forall (Curve : Type) (model_view : Vector3 -> Vector3) (blend : string)
             (influence : R) (mapping : string) (invert : bool) (curve : Curve)
             (range_min range_max : R),
         mapping = "LINEAR"%string \/ mapping = "CURVE"%string ->
         AlphaDistanceFromObjectShader.__init__
           Curve model_view blend influence mapping invert curve None range_min range_max
         = Raise (ValueError "AlphaDistanceFromObjectShader: target can't be None "))
  /\ (forall (Curve : Type) (model_view : Vector3 -> Vector3)
             (camera_type thickness_position : string) (thickness_ratio : R)
             (blend : string) (influence : R) (mapping : string) (invert : bool)
             (curve : Curve) (range_min range_max value_min value_max : R),
         mapping = "LINEAR"%string \/ mapping = "CURVE"%string ->
         ThicknessDistanceFromObjectShader.__init__
           Curve model_view camera_type thickness_position thickness_ratio
           blend influence mapping invert curve None
           range_min range_max value_min value_max
         = Raise (ValueError "ThicknessDistanceFromObjectShader: target can't be None "))
  /\ (forall (camera_type : string) (thickness : R) (position : string) (ratio : R),
         known_position position = false ->
         BaseThicknessShader.__init__ camera_type thickness position ratio
         = Raise (ValueError ("unknown thickness position: " ++ position)))
  /\ (forall (blend : string) (influence : R),
         ScalarBlendModifier.__init__ blend influence
         = Ok (ScalarBlendModifier.mk blend influence))
  /\ (forall (blend : string) (influence v1 v2 : R),
         known_blend blend = false ->
         ScalarBlendModifier.blend (ScalarBlendModifier.mk blend influence) v1 v2
         = Raise (ValueError ("unknown curve blend type: " ++ blend)))
  /\ (forall (camera_type position : string) (ratio : R),
         ThicknessBlenderMixIn.__init__ camera_type position ratio
         = Ok (ThicknessBlenderMixIn.mk (ThicknessModifierMixIn.__init__ camera_type)
                                        position ratio))
  /\ (forall (self : ThicknessBlenderMixIn.t) (blender : ScalarBlendModifier.t)
             (outer inner v0 v : R),
         known_position (ThicknessBlenderMixIn.__position self) = false ->
         ScalarBlendModifier.blend blender (outer + inner) v0 = Ok v ->
         ThicknessBlenderMixIn.blend_thickness self blender outer inner v0
         = Raise (ValueError ("unknown thickness position: "
                                ++ ThicknessBlenderMixIn.__position self)))
  /\ (forall (Curve : Type) (evaluateCurveMappingF : Curve -> Z -> R -> R)
             (self : CurveMappingModifier.t Curve) (stroke : Stroke),
         known_blend (ScalarBlendModifier.__blend (CurveMappingModifier.base Curve self))
         = false ->
         AlphaAlongStrokeShader.shade Curve evaluateCurveMappingF self stroke
         = match vertices stroke with
           | [] => Ok (mkStroke [] (length_2d stroke))
           | _ :: _ =>
               Raise (ValueError
                        ("unknown curve blend type: "
                           ++ ScalarBlendModifier.__blend
                                (CurveMappingModifier.base Curve self)))
           end).
Proof.
  repeat apply conj.
  - intros pivot sx sy angle u x y H. unfold Transform2DShader.__init__.
    rewrite H. reflexivity.
  - reflexivity.
  - intros Curve mv blend influence mapping invert curve rmin rmax [H | H];
      subst mapping; reflexivity.
  - intros Curve mv cam pos ratio blend influence mapping invert curve
           rmin rmax vmin vmax [H | H];
      subst mapping; reflexivity.
  - apply BaseThicknessShader_unknown.
  - reflexivity.
  - apply blend_unknown.
  - reflexivity.
  - apply blend_thickness_unknown.
  - apply shade_unknown_blend.
Qed.

Lemma configuration_errors_witness :
  Transform2DShader.__init__ "MIDDLE" 1 1 0 0 0 0
  = Raise (ValueError
             ("expected pivot in {'START', 'END', 'CENTER', 'ABSOLUTE', 'PARAM'}, not"
                ++ "MIDDLE")).
Proof.
  apply (proj1 configuration_errors). reflexivity.
Defined.

(** ** Further properties of utils.py *)

(** In binary64, too, black has intensity 0, white intensity 1 and the pure
    colours the intensities 0.35, 0.45 and 0.2; a grey of value 0.37 comes
    out as 0.37000000000000005, so a grey does not keep its value to the
    last place. *)
#[warnings="-inexact-float"]
Lemma rgb_to_bw_binary64 :
  (Binary64.rgb_to_bw 0 0 0 = 0
   /\ Binary64.rgb_to_bw 1 1 1 = 1
   /\ Binary64.rgb_to_bw 1 0 0 = 0.35
   /\ Binary64.rgb_to_bw 0 1 0 = 0.45
   /\ Binary64.rgb_to_bw 0 0 1 = 0.2
   /\ Binary64.rgb_to_bw 0.37 0.37 0.37 = 0.37000000000000005)%float.
Proof.
  vm_compute. repeat split.
Qed.

(** [rgb_to_bw] weighs red by 0.35, green by 0.45 and blue by 0.2: black
    has intensity 0 and white intensity 1, the intensity does not decrease
    when a channel grows, and so channels of [0, 1] give an intensity of
    [0, 1]. *)
Theorem rgb_to_bw_weights :
  (Utils.rgb_to_bw 0 0 0 = 0 /\ Utils.rgb_to_bw 1 1 1 = 1)
  /\ (Utils.rgb_to_bw 1 0 0 = 0.35 /\ Utils.rgb_to_bw 0 1 0 = 0.45
      /\ Utils.rgb_to_bw 0 0 1 = 0.2)
  /\ (forall r g b r' g' b' : R,
         r <= r' -> g <= g' -> b <= b' ->
         Utils.rgb_to_bw r g b <= Utils.rgb_to_bw r' g' b')
  /\ (forall r g b : R,
         0 <= r <= 1 -> 0 <= g <= 1 -> 0 <= b <= 1 ->
         0 <= Utils.rgb_to_bw r g b <= 1).
Proof.
  unfold Utils.rgb_to_bw. repeat split; intros; lra.
Qed.

Lemma rgb_to_bw_weights_witness :
  0 <= Utils.rgb_to_bw 1 0 (1/2) <= 1.
Proof.
  apply (proj2 (proj2 (proj2 rgb_to_bw_weights)) 1 0 (1/2)); lra.
Defined.

(** For ordered limits [bound] clamps: the result lies within the limits, a
    value within the limits is returned unchanged, clamping twice is clamping
    once, and the function is monotone in [x]. *)
Theorem bound_clamps (lower higher : R) :
  lower <= higher ->
  (forall x, lower <= Utils.bound lower x higher <= higher)
  /\ (forall x, lower <= x <= higher -> Utils.bound lower x higher = x)
  /\ (forall x, Utils.bound lower (Utils.bound lower x higher) higher
                = Utils.bound lower x higher)
  /\ (forall x y, x <= y -> Utils.bound lower x higher <= Utils.bound lower y higher).
Proof.
  intros Hle. repeat split.
  - apply bound_range; exact Hle.
  - apply bound_range; exact Hle.
  - intros x Hx. unfold Utils.bound. real_cases; lra.
  - intros x. unfold Utils.bound. real_cases; lra.
  - intros x y Hxy. unfold Utils.bound. real_cases; lra.
Qed.

Lemma bound_clamps_witness :
  Utils.bound (-1) (Utils.bound (-1) 7 1) 1 = Utils.bound (-1) 7 1.
Proof.
  apply (bound_clamps (-1) 1). lra.
Defined.

Lemma fold_min_spec (xs : list R) (a : R) :
  (fold_left py_min xs a <= a /\ Forall (fun x => fold_left py_min xs a <= x) xs)
  /\ (fold_left py_min xs a = a \/ In (fold_left py_min xs a) xs).
Proof.
  revert a. induction xs as [| x xs IH]; intros a; cbn [fold_left].
  - split; [split; [lra | constructor] | left; reflexivity].
  - destruct (IH (py_min a x)) as [[Hle Hall] Hin].
    assert (Hm : py_min a x <= a /\ py_min a x <= x
                 /\ (py_min a x = a \/ py_min a x = x)).
    { unfold py_min. destruct (Rlt_dec x a); repeat split; try lra; auto. }
    destruct Hm as (Ha & Hx & Hsel).
    split; [split; [lra | constructor; [lra | exact Hall]] |].
    destruct Hin as [Heq | Hin].
    + rewrite Heq. destruct Hsel as [-> | ->]; [left | right; left]; reflexivity.
    + right; right; exact Hin.
Qed.

Lemma fold_max_spec (xs : list R) (a : R) :
  (a <= fold_left py_max xs a /\ Forall (fun x => x <= fold_left py_max xs a) xs)
  /\ (fold_left py_max xs a = a \/ In (fold_left py_max xs a) xs).
Proof.
  revert a. induction xs as [| x xs IH]; intros a; cbn [fold_left].
  - split; [split; [lra | constructor] | left; reflexivity].
  - destruct (IH (py_max a x)) as [[Hle Hall] Hin].
    assert (Hm : a <= py_max a x /\ x <= py_max a x
                 /\ (py_max a x = a \/ py_max a x = x)).
    { unfold py_max. destruct (Rlt_dec a x); repeat split; try lra; auto. }
    destruct Hm as (Ha & Hx & Hsel).
    split; [split; [lra | constructor; [lra | exact Hall]] |].
    destruct Hin as [Heq | Hin].
    + rewrite Heq. destruct Hsel as [-> | ->]; [left | right; left]; reflexivity.
    + right; right; exact Hin.
Qed.

Lemma py_min_seq_spec (x : R) (xs : list R) :
  exists m, py_min_seq (x :: xs) = Ok m
            /\ Forall (fun y => m <= y) (x :: xs) /\ In m (x :: xs).
Proof.
  exists (fold_left py_min xs x). split; [reflexivity|].
  destruct (fold_min_spec xs x) as [[Hle Hall] Hin]. split.
  - constructor; assumption.
  - destruct Hin as [-> | Hin]; [left; reflexivity | right; exact Hin].
Qed.

Lemma py_max_seq_spec (x : R) (xs : list R) :
  exists m, py_max_seq (x :: xs) = Ok m
            /\ Forall (fun y => y <= m) (x :: xs) /\ In m (x :: xs).
Proof.
  exists (fold_left py_max xs x). split; [reflexivity|].
  destruct (fold_max_spec xs x) as [[Hle Hall] Hin]. split.
  - constructor; assumption.
  - destruct Hin as [-> | Hin]; [left; reflexivity | right; exact Hin].
Qed.

(** [bounding_box] of an empty stroke raises ValueError; of any other stroke
    it returns the smallest axis-parallel box around the vertices: every
    vertex lies inside, and each of the four sides passes through a
    vertex. *)
Theorem bounding_box_tight (stroke : Stroke) :
  (vertices stroke = [] ->
   exists msg, Utils.bounding_box stroke = Raise (ValueError msg))
  /\ (vertices stroke <> [] ->
      exists lo hi,
        Utils.bounding_box stroke = Ok (lo, hi)
        /\ (forall svert, In svert (vertices stroke) ->
                          vx lo <= vx (point svert) <= vx hi
                          /\ vy lo <= vy (point svert) <= vy hi)
        /\ (exists svert, In svert (vertices stroke) /\ vx (point svert) = vx lo)
        /\ (exists svert, In svert (vertices stroke) /\ vy (point svert) = vy lo)
        /\ (exists svert, In svert (vertices stroke) /\ vx (point svert) = vx hi)
        /\ (exists svert, In svert (vertices stroke) /\ vy (point svert) = vy hi)).
Proof.
  unfold Utils.bounding_box. split.
  - intros ->. eexists. reflexivity.
  - intros Hne. destruct (vertices stroke) as [| v vs] eqn:Hvs; [contradiction|].
    clear Hne. cbn [map].
    destruct (py_min_seq_spec (vx (point v)) (map (fun s => vx (point s)) vs))
      as (minx & Eminx & Hminx & Iminx).
    destruct (py_min_seq_spec (vy (point v)) (map (fun s => vy (point s)) vs))
      as (miny & Eminy & Hminy & Iminy).
    destruct (py_max_seq_spec (vx (point v)) (map (fun s => vx (point s)) vs))
      as (maxx & Emaxx & Hmaxx & Imaxx).
    destruct (py_max_seq_spec (vy (point v)) (map (fun s => vy (point s)) vs))
      as (maxy & Emaxy & Hmaxy & Imaxy).
    rewrite Eminx, Eminy, Emaxx, Emaxy. cbn [bind].
    exists (vec2 minx miny), (vec2 maxx maxy). split; [reflexivity|].
    cbn [vx vy].
    change (vx (point v) :: map (fun s => vx (point s)) vs)
      with (map (fun s => vx (point s)) (v :: vs)) in *.
    change (vy (point v) :: map (fun s => vy (point s)) vs)
      with (map (fun s => vy (point s)) (v :: vs)) in *.
    rewrite Forall_map in Hminx, Hminy, Hmaxx, Hmaxy.
    rewrite Forall_forall in Hminx, Hminy, Hmaxx, Hmaxy.
    apply in_map_iff in Iminx, Iminy, Imaxx, Imaxy.
    split.
    { intros s Hs. specialize (Hminx s Hs). specialize (Hminy s Hs).
      specialize (Hmaxx s Hs). specialize (Hmaxy s Hs). cbn beta in *. lra. }
    repeat split.
    + destruct Iminx as (s & Es & Hs). exists s. auto.
    + destruct Iminy as (s & Es & Hs). exists s. auto.
    + destruct Imaxx as (s & Es & Hs). exists s. auto.
    + destruct Imaxy as (s & Es & Hs). exists s. auto.
Qed.

Lemma bounding_box_tight_witness :
  let v x y := mkStrokeVertex (vec2 x y) (vec3 0 0 0)
                              (mkFEdge 0 false (vec3 0 0 0) false false false 0 0)
                              (mkAttribute 1 (0, 0)) in
  let stroke := mkStroke [v 1 5; v 3 2] 4 in
  exists lo hi,
    Utils.bounding_box stroke = Ok (lo, hi)
    /\ (forall svert, In svert (vertices stroke) ->
                      vx lo <= vx (point svert) <= vx hi
                      /\ vy lo <= vy (point svert) <= vy hi)
    /\ (exists svert, In svert (vertices stroke) /\ vx (point svert) = vx lo)
    /\ (exists svert, In svert (vertices stroke) /\ vy (point svert) = vy lo)
    /\ (exists svert, In svert (vertices stroke) /\ vx (point svert) = vx hi)
    /\ (exists svert, In svert (vertices stroke) /\ vy (point svert) = vy hi).
Proof.
  intros v stroke. apply (proj2 (bounding_box_tight stroke)).
  cbn. discriminate.
Defined.

Lemma collect_all_ok {A B : Type} (f : A -> result B) (g : A -> B) (l : list A) :
  (forall a, In a l -> f a = Ok (g a)) -> Utils.collect f l = Ok (map g l).
Proof.
  induction l as [| a l IH]; intros H; [reflexivity|].
  cbn [Utils.collect map]. rewrite (H a (or_introl eq_refl)). cbn [bind].
  rewrite IH by (intros b Hb; apply H; right; exact Hb). reflexivity.
Qed.

Lemma py_range_bounds (n i : Z) : In i (py_range n) -> (0 <= i < n)%Z.
Proof.
  unfold py_range. intros H. apply in_map_iff in H. destruct H as (k & <- & Hk).
  apply in_seq in Hk. lia.
Qed.

(** [phase_to_direction(1)] raises ZeroDivisionError and a non-positive
    length gives the empty list.  For [length >= 2] the result has [length]
    entries; entry [i] holds the phase [i / (length - 1)], a value of
    [0, 1], and the cosine and sine of [2 * pi * phase]; the first entry is
    phase 0 with the direction (1, 0) and the last entry has phase 1. *)
Theorem phase_to_direction_phases :
  Utils.phase_to_direction 1 = Raise ZeroDivisionError
  /\ (forall length : Z, (length <= 0)%Z -> Utils.phase_to_direction length = Ok [])
  /\ (forall length : Z,
         (2 <= length)%Z ->
         exists l,
           Utils.phase_to_direction length = Ok l
           /\ List.length l = Z.to_nat length
           /\ (forall i : nat,
                  (i < Z.to_nat length)%nat ->
                  let phase := INR i / IZR (length - 1) in
                  nth_error l i
                  = Some (phase, vec2 (cos (2 * PI * phase)) (sin (2 * PI * phase)))
                  /\ 0 <= phase <= 1)
           /\ hd_error l = Some (0, vec2 1 0)
           /\ fst (last l (0, vec2 0 0)) = 1).
Proof.
  split; [| split].
  - unfold Utils.phase_to_direction, py_range. cbn. unfold py_div.
    destruct (Req_dec_T 0 0) as [_ | H]; [reflexivity | contradiction H; reflexivity].
  - intros length Hlen. unfold Utils.phase_to_direction, py_range.
    replace (Z.to_nat length) with 0%nat by lia. reflexivity.
  - intros length Hlen.
    set (d := IZR (length - 1)).
    assert (Hd : 1 <= d) by (apply IZR_le; lia).
    set (g := fun i : Z => (IZR i / d,
                            vec2 (cos (2 * PI * (IZR i / d))) (sin (2 * PI * (IZR i / d))))).
    exists (map g (py_range length)).
    split.
    { unfold Utils.phase_to_direction. apply collect_all_ok.
      intros i _. fold d. rewrite py_div_nonzero by lra. reflexivity. }
    split.
    { unfold py_range. rewrite !length_map, length_seq. reflexivity. }
    split.
    { intros i Hi phase. split.
      - unfold py_range. rewrite !nth_error_map.
        rewrite (nth_error_nth' _ 0%nat) by (rewrite length_seq; exact Hi).
        rewrite seq_nth by exact Hi. cbn [option_map Nat.add].
        unfold g, phase. rewrite <- INR_IZR_INZ. reflexivity.
      - unfold phase.
        assert (H0 : 0 <= INR i) by apply pos_INR.
        assert (H1 : INR i <= d).
        { unfold d. rewrite INR_IZR_INZ. apply IZR_le. lia. }
        split.
        + apply Rmult_le_pos; [exact H0 | left; apply Rinv_0_lt_compat; lra].
        + apply Rmult_le_reg_r with (r := d); [lra|].
          unfold Rdiv. rewrite Rmult_assoc, Rinv_l by lra. lra. }
    unfold py_range.
    destruct (Z.to_nat length) as [| m] eqn:Hn; [lia|].
    split.
    { cbn. unfold g. f_equal.
      replace (0 / d) with 0 by (unfold Rdiv; ring).
      rewrite Rmult_0_r, cos_0, sin_0. reflexivity. }
    { rewrite seq_S, !map_app. cbn [map]. rewrite last_last.
      unfold g. cbn [Nat.add fst].
      replace (IZR (Z.of_nat m)) with d by (unfold d; f_equal; lia).
      field; lra. }
Qed.

Lemma phase_to_direction_phases_witness :
  exists l,
    Utils.phase_to_direction 3 = Ok l
    /\ List.length l = Z.to_nat 3
    /\ (forall i : nat,
           (i < Z.to_nat 3)%nat ->
           let phase := INR i / IZR (3 - 1) in
           nth_error l i
           = Some (phase, vec2 (cos (2 * PI * phase)) (sin (2 * PI * phase)))
           /\ 0 <= phase <= 1)
    /\ hd_error l = Some (0, vec2 1 0)
    /\ fst (last l (0, vec2 0 0)) = 1.
Proof.
  apply (proj2 (proj2 phase_to_direction_phases) 3%Z). lia.
Defined.

Lemma nth_error_combine {A B : Type} (l1 : list A) (l2 : list B) (i : nat) (a : A) (b : B) :
  nth_error (combine l1 l2) i = Some (a, b)
  <-> nth_error l1 i = Some a /\ nth_error l2 i = Some b.
Proof.
  revert l2 i. induction l1 as [| x l1 IH]; intros l2 i.
  - cbn. destruct i; split; [discriminate | intros [H _]; discriminate
                             | discriminate | intros [H _]; discriminate].
  - destruct l2 as [| y l2].
    + cbn. destruct i; split; try discriminate; intros [_ H]; discriminate.
    + destruct i as [| i]; cbn.
      * split; [intros H; inversion H; auto | intros [H1 H2]; congruence].
      * apply IH.
Qed.

Lemma nth_error_tl {A : Type} (l : list A) (i : nat) :
  nth_error (tl l) i = nth_error l (S i).
Proof.
  destruct l as [| x l]; [destruct i; reflexivity | reflexivity].
Qed.

Lemma pairwise_nth_error {A : Type} (l : list A) (i : nat) (a b : A) :
  nth_error (Utils.pairwise l) i = Some (a, b)
  <-> nth_error l i = Some a /\ nth_error l (S i) = Some b.
Proof.
  unfold Utils.pairwise. rewrite nth_error_combine, nth_error_tl. tauto.
Qed.

(** [pairwise] yields the [len - 1] pairs of neighbours, in order, and
    nothing for an input of fewer than two elements.  [tripplewise] yields
    nothing at all: on every input it raises ValueError, because [tee] hands
    it two iterators where it unpacks three. *)
Theorem pairwise_windows_tripplewise_raises {A : Type} (l : list A) :
  List.length (Utils.pairwise l) = (List.length l - 1)%nat
  /\ (forall i a b,
         nth_error (Utils.pairwise l) i = Some (a, b)
         <-> nth_error l i = Some a /\ nth_error l (S i) = Some b)
  /\ Utils.tripplewise l
     = Raise (ValueError "not enough values to unpack (expected 3, got 2)").
Proof.
  split; [| split].
  - unfold Utils.pairwise. rewrite length_combine.
    destruct l; cbn [tl List.length]; lia.
  - intros i a b. apply pairwise_nth_error.
  - reflexivity.
Qed.

Lemma length2_nonneg (p : Vector2) : 0 <= length2 p.
Proof. unfold length2. apply sqrt_pos. Qed.

Lemma iter_distance_loop_step (pairs : list (Vector2 * Vector2)) (d : R) (i : nat) (b : R) :
  nth_error (d :: Utils.iter_distance_loop d pairs) (S i) = Some b ->
  exists a prev curr,
    nth_error (d :: Utils.iter_distance_loop d pairs) i = Some a
    /\ nth_error pairs i = Some (prev, curr)
    /\ b = a + length2 (sub2 prev curr).
Proof.
  revert d i. induction pairs as [| [prev curr] rest IH]; intros d i H.
  - cbn in H. destruct i; discriminate.
  - cbn [Utils.iter_distance_loop] in *. destruct i as [| i].
    + cbn in H. inversion H; subst. exists d, prev, curr. repeat split.
    + change (nth_error
                ((d + length2 (sub2 prev curr))
                   :: Utils.iter_distance_loop (d + length2 (sub2 prev curr)) rest)
                (S i) = Some b) in H.
      destruct (IH _ _ H) as (a & p & c & Ha & Hp & Hb).
      exists a, p, c. repeat split; assumption.
Qed.

Lemma iter_distance_loop_length (pairs : list (Vector2 * Vector2)) (d : R) :
  List.length (Utils.iter_distance_loop d pairs) = List.length pairs.
Proof.
  revert d. induction pairs as [| [prev curr] rest IH]; intros d; cbn;
    [reflexivity | rewrite IH; reflexivity].
Qed.

Lemma pairwise_map {A B : Type} (f : A -> B) (l : list A) :
  Utils.pairwise (map f l) = map (fun ab => (f (fst ab), f (snd ab))) (Utils.pairwise l).
Proof.
  unfold Utils.pairwise.
  assert (H : forall l1 l2 : list A,
             combine (map f l1) (map f l2)
             = map (fun ab => (f (fst ab), f (snd ab))) (combine l1 l2)).
  { induction l1 as [| x l1 IH]; intros [| y l2]; cbn; try reflexivity.
    rewrite IH. reflexivity. }
  destruct l as [| x l]; [reflexivity|]. cbn [tl map]. apply (H (x :: l) l).
Qed.

Lemma iter_distance_along_stroke_facts (stroke : Stroke) :
  nondecreasing (Utils.iter_distance_along_stroke stroke)
  /\ Forall (fun d => 0 <= d) (Utils.iter_distance_along_stroke stroke).
Proof.
  unfold Utils.iter_distance_along_stroke. split.
  - intros i a b Ha Hb.
    destruct (iter_distance_loop_step _ _ _ _ Hb) as (a' & p & c & Ha' & _ & ->).
    rewrite Ha in Ha'. inversion Ha'; subst a'.
    pose proof (length2_nonneg (sub2 p c)). lra.
  - apply Forall_forall. intros d Hd. apply In_nth_error in Hd. destruct Hd as [i Hi].
    revert d Hi. induction i as [| i IH]; intros d Hi.
    + cbn in Hi. inversion Hi. lra.
    + destruct (iter_distance_loop_step _ _ _ _ Hi) as (a & p & c & Ha & _ & ->).
      specialize (IH a Ha). pose proof (length2_nonneg (sub2 p c)). lra.
Qed.

(** [iter_distance_along_stroke] yields 0 first and then, for each further
    vertex, the previous value plus the distance between the vertex and its
    predecessor: one value per vertex (a single 0 for an empty stroke), never
    negative and never decreasing. *)
Theorem iter_distance_along_stroke_cumulative (stroke : Stroke) :
  let ds := Utils.iter_distance_along_stroke stroke in
  List.length ds = Nat.max 1 (List.length (vertices stroke))
  /\ hd_error ds = Some 0
  /\ (forall i a b,
         nth_error ds i = Some a -> nth_error ds (S i) = Some b ->
         exists prev curr,
           nth_error (vertices stroke) i = Some prev
           /\ nth_error (vertices stroke) (S i) = Some curr
           /\ b = a + length2 (sub2 (point prev) (point curr)))
  /\ nondecreasing ds
  /\ Forall (fun d => 0 <= d) ds.
Proof.
  cbv zeta. unfold Utils.iter_distance_along_stroke.
  assert (Hstep : forall i a b,
             nth_error (0 :: Utils.iter_distance_loop
                               0 (Utils.pairwise (map point (vertices stroke)))) i = Some a ->
             nth_error (0 :: Utils.iter_distance_loop
                               0 (Utils.pairwise (map point (vertices stroke)))) (S i) = Some b ->
             exists prev curr,
               nth_error (vertices stroke) i = Some prev
               /\ nth_error (vertices stroke) (S i) = Some curr
               /\ b = a + length2 (sub2 (point prev) (point curr))).
  { intros i a b Ha Hb.
    destruct (iter_distance_loop_step _ _ _ _ Hb) as (a' & p & c & Ha' & Hp & Hb').
    rewrite Ha in Ha'. inversion Ha'; subst a'.
    rewrite pairwise_map, nth_error_map in Hp.
    destruct (nth_error (Utils.pairwise (vertices stroke)) i) as [[v w] |] eqn:E;
      [| discriminate].
    cbn in Hp. inversion Hp; subst.
    apply pairwise_nth_error in E.
    exists v, w. tauto. }
  split; [| split; [| split; [| split]]].
  - cbn [List.length]. rewrite iter_distance_loop_length.
    unfold Utils.pairwise. rewrite length_combine.
    destruct (vertices stroke); cbn [tl map List.length]; rewrite ?length_map; lia.
  - reflexivity.
  - exact Hstep.
  - apply iter_distance_along_stroke_facts.
  - apply iter_distance_along_stroke_facts.
Qed.

Lemma iter_t2d_loop_progress (total : R) (pairs : list (StrokeVertex * StrokeVertex)) (d : R) :
  Utils.iter_t2d_loop total d pairs
  = map (progress_of total)
        (Utils.iter_distance_loop
           d (map (fun ab => (point (fst ab), point (snd ab))) pairs)).
Proof.
  revert d. induction pairs as [| [prev svert] rest IH]; intros d; [reflexivity|].
  cbn [Utils.iter_t2d_loop Utils.iter_distance_loop map fst snd].
  rewrite IH. reflexivity.
Qed.

Lemma progress_of_range (total d : R) :
  0 <= total -> 0 <= d -> 0 <= progress_of total d <= 1.
Proof.
  intros Ht Hd. unfold progress_of, py_min.
  destruct (Req_dec_T total 0) as [E | E]; [lra|].
  assert (Hq : 0 <= d / total).
  { apply Rmult_le_pos; [exact Hd | left; apply Rinv_0_lt_compat; lra]. }
  destruct (Rlt_dec 1 (d / total)); lra.
Qed.

Lemma progress_of_monotone (total d1 d2 : R) :
  0 <= total -> d1 <= d2 -> progress_of total d1 <= progress_of total d2.
Proof.
  intros Ht Hd. unfold progress_of, py_min.
  destruct (Req_dec_T total 0) as [E | E]; [lra|].
  assert (Hq : d1 / total <= d2 / total).
  { apply Rmult_le_compat_r; [left; apply Rinv_0_lt_compat; lra | exact Hd]. }
  destruct (Rlt_dec 1 (d1 / total)), (Rlt_dec 1 (d2 / total)); lra.
Qed.

(** [iter_t2d_along_stroke] yields, vertex by vertex, the distance of
    [iter_distance_along_stroke] divided by the stroke length and clipped at
    1 (0 for a stroke of length 0).  For a non-negative stroke length the
    values lie in [0, 1] and never decrease. *)
Theorem iter_t2d_along_stroke_progress (stroke : Stroke) :
  Utils.iter_t2d_along_stroke stroke
  = map (progress_of (length_2d stroke)) (Utils.iter_distance_along_stroke stroke)
  /\ (0 <= length_2d stroke ->
      Forall (fun t0 => 0 <= t0 <= 1) (Utils.iter_t2d_along_stroke stroke)
      /\ nondecreasing (Utils.iter_t2d_along_stroke stroke))
  /\ (length_2d stroke = 0 ->
      Forall (fun t0 => t0 = 0) (Utils.iter_t2d_along_stroke stroke)).
Proof.
  assert (Heq : Utils.iter_t2d_along_stroke stroke
                = map (progress_of (length_2d stroke))
                      (Utils.iter_distance_along_stroke stroke)).
  { unfold Utils.iter_t2d_along_stroke, Utils.iter_distance_along_stroke.
    cbn [map]. rewrite iter_t2d_loop_progress, pairwise_map. f_equal.
    unfold progress_of, py_min.
    destruct (Req_dec_T (length_2d stroke) 0); [reflexivity|].
    replace (0 / length_2d stroke) with 0 by (unfold Rdiv; ring).
    destruct (Rlt_dec 1 0); [lra | reflexivity]. }
  destruct (iter_distance_along_stroke_facts stroke) as (Hmono & Hpos).
  split; [exact Heq | split].
  - intros Ht. rewrite Heq. split.
    + apply Forall_map. eapply Forall_impl; [| exact Hpos].
      intros d Hd. apply progress_of_range; assumption.
    + intros i a b Ha Hb. rewrite nth_error_map in Ha, Hb.
      destruct (nth_error (Utils.iter_distance_along_stroke stroke) i) as [da |] eqn:Ea;
        [| discriminate].
      destruct (nth_error (Utils.iter_distance_along_stroke stroke) (S i)) as [db |] eqn:Eb;
        [| discriminate].
      cbn in Ha, Hb. inversion Ha; inversion Hb; subst.
      apply progress_of_monotone; [exact Ht | exact (Hmono i da db Ea Eb)].
  - intros Hz. rewrite Heq. apply Forall_map. apply Forall_forall. intros d _.
    unfold progress_of. destruct (Req_dec_T (length_2d stroke) 0); [reflexivity | contradiction].
Qed.

Lemma iter_t2d_along_stroke_progress_witness :
  let v x y := mkStrokeVertex (vec2 x y) (vec3 0 0 0)
                              (mkFEdge 0 false (vec3 0 0 0) false false false 0 0)
                              (mkAttribute 1 (0, 0)) in
  let stroke := mkStroke [v 0 0; v 3 4; v 3 9] 10 in
  Forall (fun t0 => 0 <= t0 <= 1) (Utils.iter_t2d_along_stroke stroke)
  /\ nondecreasing (Utils.iter_t2d_along_stroke stroke).
Proof.
  intros v stroke.
  apply (proj1 (proj2 (iter_t2d_along_stroke_progress stroke))).
  cbn. lra.
Defined.

Lemma distance_from_camera_step_total (range_min range_max : R) (svert : StrokeVertex) :
  exists t0 : R,
    Utils.distance_from_camera_step range_min range_max (range_max - range_min) svert
    = Ok t0
    /\ 0 <= t0 <= 1
    /\ (range_max <= range_min -> t0 = 0 \/ t0 = 1).
Proof.
  unfold Utils.distance_from_camera_step.
  set (d := length3 (point_3d svert)).
  destruct (Rlt_dec range_min d) as [Hlo | Hlo].
  - destruct (Rlt_dec d range_max) as [Hhi | Hhi].
    + destruct (distance_from_camera_step_spec range_min range_max svert ltac:(lra))
        as (t0 & Ht0 & Hclip).
      unfold Utils.distance_from_camera_step in Ht0. fold d in Ht0.
      destruct (Rlt_dec range_min d); [| contradiction].
      destruct (Rlt_dec d range_max); [| contradiction].
      exists t0. split; [exact Ht0|]. split; [apply Hclip | intros; lra].
    + exists (if Rgt_dec range_min d then 0 else 1). split; [reflexivity|].
      destruct (Rgt_dec range_min d); split; try lra; auto.
  - exists (if Rgt_dec range_min d then 0 else 1). split; [reflexivity|].
    destruct (Rgt_dec range_min d); split; try lra; auto.
Qed.

(** [iter_distance_from_camera] never raises, whatever the range: the
    division is reached only for a distance strictly inside the range, where
    the divisor is positive.  It yields one value of [0, 1] per vertex, and
    only the values 0 and 1 when the range is empty or reversed. *)
Theorem iter_distance_from_camera_total (stroke : Stroke) (range_min range_max : R) :
  exists ts : list R,
    Utils.iter_distance_from_camera stroke range_min range_max = Ok ts
    /\ List.length ts = List.length (vertices stroke)
    /\ Forall (fun t0 => 0 <= t0 <= 1) ts
    /\ (range_max <= range_min -> Forall (fun t0 => t0 = 0 \/ t0 = 1) ts).
Proof.
  unfold Utils.iter_distance_from_camera.
  induction (vertices stroke) as [| svert rest IH].
  - exists []. repeat split; constructor.
  - destruct IH as (ts & Hts & Hlen & Hrange & Hdeg).
    destruct (distance_from_camera_step_total range_min range_max svert)
      as (t0 & Ht0 & Hr & Hd).
    exists (t0 :: ts). cbn [Utils.collect]. rewrite Ht0, Hts. cbn [bind List.length].
    split; [reflexivity|]. split; [lia|]. split; [constructor; assumption|].
    intros Hle. constructor; auto.
Qed.

Lemma iter_distance_from_camera_total_witness :
  let v z := mkStrokeVertex (vec2 0 0) (vec3 0 0 z)
                            (mkFEdge 0 false (vec3 0 0 0) false false false 0 0)
                            (mkAttribute 1 (0, 0)) in
  exists ts : list R,
    Utils.iter_distance_from_camera (mkStroke [v 1; v 3] 2) 4 2 = Ok ts
    /\ Forall (fun t0 => t0 = 0 \/ t0 = 1) ts.
Proof.
  intros v.
  destruct (iter_distance_from_camera_total (mkStroke [v 1; v 3] 2) 4 2)
    as (ts & Hts & _ & _ & Hdeg).
  exists ts. split; [exact Hts | apply Hdeg; lra].
Defined.

(** [iter_distance_from_object] is [iter_distance_from_camera] on the stroke
    seen from the object's location: the two loops differ only in how they
    write the comparison of the clipped branch. *)
Theorem iter_distance_from_object_as_camera
        (stroke : Stroke) (location : Vector3) (range_min range_max : R) :
  Utils.iter_distance_from_object stroke location range_min range_max
  = Utils.iter_distance_from_camera
      (mkStroke (map (seen_from location) (vertices stroke)) (length_2d stroke))
      range_min range_max.
Proof.
  unfold Utils.iter_distance_from_object, Utils.iter_distance_from_camera.
  cbn [vertices].
  induction (vertices stroke) as [| svert rest IH]; [reflexivity|].
  cbn [map Utils.collect]. rewrite IH. f_equal.
  unfold Utils.distance_from_object_step, Utils.distance_from_camera_step, seen_from.
  cbn [point_3d].
  set (d := length3 (sub3 (point_3d svert) location)).
  destruct (Rlt_dec range_min d), (Rlt_dec d range_max), (Rlt_dec d range_min),
    (Rgt_dec range_min d); try reflexivity; exfalso; lra.
Qed.

(** [get_material_value] by attribute name: DIFF and SPEC are [rgb_to_bw] of
    the three colour channels of the diffuse and of the specular colour,
    whatever the fourth (alpha) component is, and so values of [0, 1] for
    channels of [0, 1]; ALPHA is the fourth diffuse component; DIFF_R,
    DIFF_G, DIFF_B, SPEC_R, SPEC_G, SPEC_B are the single channels and
    SPEC_HARDNESS is the shininess.  Any other name raises ValueError, and
    no known name does. *)
Theorem get_material_value_table
        (dr dg db da sr sg sb sa k : R) (attribute : string) :
  let material := mkMaterial (dr, dg, db, da) (sr, sg, sb, sa) k in
  let get := Utils.get_material_value material in
  (get "DIFF"%string = Ok (Utils.rgb_to_bw dr dg db)
   /\ get "SPEC"%string = Ok (Utils.rgb_to_bw sr sg sb)
   /\ get "ALPHA"%string = Ok da
   /\ get "DIFF_R"%string = Ok dr
   /\ get "DIFF_G"%string = Ok dg
   /\ get "DIFF_B"%string = Ok db
   /\ get "SPEC_R"%string = Ok sr
   /\ get "SPEC_G"%string = Ok sg
   /\ get "SPEC_B"%string = Ok sb
   /\ get "SPEC_HARDNESS"%string = Ok k)
  /\ (forall da' sa' : R,
         let material' := mkMaterial (dr, dg, db, da') (sr, sg, sb, sa') k in
         Utils.get_material_value material' "DIFF" = get "DIFF"%string
         /\ Utils.get_material_value material' "SPEC" = get "SPEC"%string)
  /\ (0 <= dr <= 1 -> 0 <= dg <= 1 -> 0 <= db <= 1 ->
      exists v, get "DIFF"%string = Ok v /\ 0 <= v <= 1)
  /\ (0 <= sr <= 1 -> 0 <= sg <= 1 -> 0 <= sb <= 1 ->
      exists v, get "SPEC"%string = Ok v /\ 0 <= v <= 1)
  /\ (known_attribute attribute = true -> exists v, get attribute = Ok v)
  /\ (known_attribute attribute = false ->
      get attribute
      = Raise (ValueError ("unexpected material attribute: " ++ attribute))).
Proof.
  intros material get.
  split; [repeat split|].
  split; [intros da' sa'; split; reflexivity|].
  split.
  { intros Hr Hg Hb. exists (Utils.rgb_to_bw dr dg db).
    split; [reflexivity | unfold Utils.rgb_to_bw; lra]. }
  split.
  { intros Hr Hg Hb. exists (Utils.rgb_to_bw sr sg sb).
    split; [reflexivity | unfold Utils.rgb_to_bw; lra]. }
  split.
  - intros H. unfold known_attribute in H. cbn [existsb] in H.
    unfold get, material, Utils.get_material_value.
    cbn [diffuse specular shininess].
    repeat match goal with
           | |- context [String.eqb attribute ?s] =>
               destruct (String.eqb attribute s) eqn:?; [eexists; reflexivity |]
           end.
    cbn in H. discriminate.
  - intros H. unfold known_attribute in H. cbn [existsb] in H.
    repeat (apply orb_false_iff in H; destruct H as [? H]).
    unfold get, material, Utils.get_material_value.
    cbn [diffuse specular shininess].
    repeat match goal with
           | E : String.eqb attribute _ = false |- _ => rewrite E; clear E
           end.
    reflexivity.
Qed.

Lemma get_material_value_table_witness :
  Utils.get_material_value (mkMaterial (1, 0, 0, 1) (0, 0, 0, 1) 50) "DIFFUSE"
  = Raise (ValueError ("unexpected material attribute: " ++ "DIFFUSE")).
Proof.
  refine (proj2 (proj2 (proj2 (proj2 (proj2
            (get_material_value_table 1 0 0 1 0 0 0 1 50 "DIFFUSE"))))) _).
  reflexivity.
Defined.

Lemma normalized2_unit_or_zero (v : Vector2) : unit_or_zero (normalized2 v).
Proof.
  unfold unit_or_zero, normalized2.
  destruct (Req_dec_T (length2 v) 0) as [E | E]; [right; reflexivity | left].
  assert (Hsq : length2 v * length2 v = vx v * vx v + vy v * vy v).
  { unfold length2. apply sqrt_sqrt. nra. }
  unfold length2 at 1. cbn [vx vy].
  replace (vx v / length2 v * (vx v / length2 v) + vy v / length2 v * (vy v / length2 v))
    with 1.
  - apply sqrt_1.
  - field_simplify_eq; [| exact E]. lra.
Qed.

Lemma normal_perpendicular (e : Vector2) :
  dot2 (normalized2 (vec2 (vy e) (- vx e))) e = 0.
Proof.
  unfold normalized2, dot2.
  destruct (Req_dec_T _ 0) as [E | E]; cbn [vx vy]; [lra|].
  field. exact E.
Qed.

Lemma stroke_normal_loop_ok (stroke : list StrokeVertex) (rest : list StrokeVertex) (i : nat) :
  (2 <= List.length stroke)%nat ->
  skipn i stroke = rest ->
  exists ns,
    Utils.stroke_normal_loop stroke (Z.of_nat (List.length stroke) - 1)%Z i rest = Ok ns
    /\ List.length ns = List.length rest
    /\ Forall unit_or_zero ns.
Proof.
  intros Hlen. revert i. induction rest as [| svert rest IH]; intros i Hskip.
  - exists []. repeat split. constructor.
  - assert (Hi : (i < List.length stroke)%nat).
    { destruct (Nat.lt_ge_cases i (List.length stroke)) as [H | H]; [exact H|].
      rewrite skipn_all2 in Hskip by exact H. discriminate. }
    assert (Hnext : skipn (S i) stroke = rest).
    { rewrite <- (Nat.add_1_l i), <- skipn_skipn, Hskip. reflexivity. }
    destruct (IH (S i) Hnext) as (ns & Hns & Hl & Hall).
    assert (Hstep : exists n0,
               Utils.stroke_normal_step stroke (Z.of_nat (List.length stroke) - 1)%Z i svert
               = Ok n0 /\ unit_or_zero n0).
    { unfold Utils.stroke_normal_step, getitem.
      destruct (Z.eqb_spec (Z.of_nat i) 0) as [E0 | E0].
      - destruct (nth_error stroke (i + 1)) as [v |] eqn:Ev;
          [| apply nth_error_None in Ev; lia].
        eexists. split; [reflexivity | apply normalized2_unit_or_zero].
      - destruct (Z.eqb_spec (Z.of_nat i) (Z.of_nat (List.length stroke) - 1)) as [En | En].
        + destruct (nth_error stroke (i - 1)) as [v |] eqn:Ev;
            [| apply nth_error_None in Ev; lia].
          eexists. split; [reflexivity | apply normalized2_unit_or_zero].
        + destruct (nth_error stroke (i + 1)) as [v |] eqn:Ev;
            [| apply nth_error_None in Ev; lia].
          destruct (nth_error stroke (i - 1)) as [w |] eqn:Ew;
            [| apply nth_error_None in Ew; lia].
          eexists. split; [reflexivity | apply normalized2_unit_or_zero]. }
    destruct Hstep as (n0 & Hn0 & Hu).
    exists (n0 :: ns). cbn [Utils.stroke_normal_loop]. rewrite Hn0, Hns.
    cbn [bind List.length]. repeat split; [lia | constructor; assumption].
Qed.

(** [stroke_normal] yields nothing for an empty stroke and raises IndexError
    for a stroke of a single vertex (its only vertex is the first one and has
    no successor).  For two or more vertices it yields one normal per vertex,
    each a unit vector or, at a degenerate edge, the zero vector; the normal
    of the first vertex is perpendicular to the first edge. *)
Theorem stroke_normal_spec (stroke : Stroke) :
  (vertices stroke = [] -> Utils.stroke_normal stroke = Ok [])
  /\ (forall v, vertices stroke = [v] -> Utils.stroke_normal stroke = Raise IndexError)
  /\ (forall v0 v1 rest,
         vertices stroke = v0 :: v1 :: rest ->
         exists n0 ns,
           Utils.stroke_normal stroke = Ok (n0 :: ns)
           /\ List.length (n0 :: ns) = List.length (vertices stroke)
           /\ Forall unit_or_zero (n0 :: ns)
           /\ dot2 n0 (sub2 (point v1) (point v0)) = 0).
Proof.
  unfold Utils.stroke_normal. split; [| split].
  - intros ->. reflexivity.
  - intros v ->. reflexivity.
  - intros v0 v1 rest Hvs.
    destruct (stroke_normal_loop_ok (vertices stroke) (vertices stroke) 0)
      as (ns & Hns & Hl & Hall).
    { rewrite Hvs. cbn. lia. }
    { reflexivity. }
    rewrite Hns. rewrite Hvs in Hns.
    cbn [Utils.stroke_normal_loop] in Hns.
    unfold Utils.stroke_normal_step at 1 in Hns. cbn [Z.of_nat Z.eqb] in Hns.
    unfold getitem in Hns. cbn [Nat.add nth_error bind] in Hns.
    match type of Hns with
    | bind ?m _ = _ => destruct m as [ns' | e]; [| discriminate]
    end.
    cbn [bind] in Hns. injection Hns as Hns. subst ns.
    exists (normalized2 (vec2 (vy (sub2 (point v1) (point v0)))
                              (- vx (sub2 (point v1) (point v0))))), ns'.
    split; [reflexivity|]. split; [exact Hl|]. split; [exact Hall|].
    exact (normal_perpendicular (sub2 (point v1) (point v0))).
Qed.

Lemma stroke_normal_spec_witness :
  let v x y := mkStrokeVertex (vec2 x y) (vec3 0 0 0)
                              (mkFEdge 0 false (vec3 0 0 0) false false false 0 0)
                              (mkAttribute 1 (0, 0)) in
  Utils.stroke_normal (mkStroke [v 2 3] 0) = Raise IndexError.
Proof.
  intros v.
  apply (proj1 (proj2 (stroke_normal_spec (mkStroke [v 2 3] 0))) (v 2 3)).
  reflexivity.
Defined.

Lemma stroke_curvature_interior
      (it : StrokeVertexIterator) (vprev vcur vnext : StrokeVertex) :
  (0 < svi_pos it)%nat ->
  nth_error (svi_vertices it) (pred (svi_pos it)) = Some vprev ->
  nth_error (svi_vertices it) (svi_pos it) = Some vcur ->
  nth_error (svi_vertices it) (S (svi_pos it)) = Some vnext ->
  Utils.stroke_curvature it
  = except_ZeroDivisionError
      (K <- py_div (4 * (0.5 * cross2 (sub2 (point vcur) (point vprev))
                                      (sub2 (point vprev) (point vnext))))
                   (length2 (sub2 (point vcur) (point vprev))
                    * length2 (sub2 (point vnext) (point vcur))
                    * length2 (sub2 (point vprev) (point vnext))) ;;
       Ok (Utils.bound 0 K 1))
      0.
Proof.
  intros Hpos Hprev Hcur Hnext.
  unfold Utils.stroke_curvature.
  assert (Hend : is_end it = false).
  { unfold is_end. apply Nat.leb_gt. apply nth_error_Some. congruence. }
  assert (Hbegin : is_begin it = false).
  { unfold is_begin. apply Nat.eqb_neq. lia. }
  rewrite Hend, Hbegin. cbn [orb].
  unfold object, incremented, decremented. cbn [svi_vertices svi_pos].
  rewrite Hnext, Hprev, Hcur. reflexivity.
Qed.

(** [stroke_curvature] sees turns of one orientation only: the area it
    divides is signed and a negative quotient is clipped to 0.  At a vertex
    with both neighbours it returns 0 whenever the three points turn
    counter-clockwise (or lie on a line); for a clockwise turn with three
    distinct points it returns the positive value [min(-2*turn/(a*b*c), 1)]. *)
Theorem stroke_curvature_one_sided
        (it : StrokeVertexIterator) (vprev vcur vnext : StrokeVertex) :
  (0 < svi_pos it)%nat ->
  nth_error (svi_vertices it) (pred (svi_pos it)) = Some vprev ->
  nth_error (svi_vertices it) (svi_pos it) = Some vcur ->
  nth_error (svi_vertices it) (S (svi_pos it)) = Some vnext ->
  let abc := length2 (sub2 (point vcur) (point vprev))
             * length2 (sub2 (point vnext) (point vcur))
             * length2 (sub2 (point vprev) (point vnext)) in
  let D := turn (point vprev) (point vcur) (point vnext) in
  (0 <= D -> Utils.stroke_curvature it = Ok 0)
  /\ (D < 0 -> abc <> 0 ->
      Utils.stroke_curvature it = Ok (Rmin (- 2 * D / abc) 1)
      /\ 0 < Rmin (- 2 * D / abc) 1).
Proof.
  intros Hpos Hprev Hcur Hnext abc D.
  rewrite (stroke_curvature_interior it vprev vcur vnext Hpos Hprev Hcur Hnext).
  fold abc.
  assert (Habc : 0 <= abc).
  { unfold abc. repeat apply Rmult_le_pos; apply length2_nonneg. }
  assert (Hnum : 4 * (0.5 * cross2 (sub2 (point vcur) (point vprev))
                                   (sub2 (point vprev) (point vnext))) = - 2 * D).
  { unfold D, turn, cross2, sub2. cbn [vx vy]. lra. }
  rewrite Hnum. unfold py_div.
  destruct (Req_dec_T abc 0) as [E | E]; cbn [bind except_ZeroDivisionError].
  - split; [reflexivity | intros _ H; contradiction].
  - assert (Hinv : 0 < / abc) by (apply Rinv_0_lt_compat; lra).
    split.
    + intros HD. f_equal. unfold Utils.bound.
      assert (- 2 * D / abc <= 0).
      { unfold Rdiv. replace 0 with (0 * / abc) by ring.
        apply Rmult_le_compat_r; lra. }
      destruct (Rle_dec (- 2 * D / abc) 0); [reflexivity | lra].
    + intros HD _.
      assert (Hq : 0 < - 2 * D / abc).
      { unfold Rdiv. apply Rmult_lt_0_compat; lra. }
      split.
      * f_equal. unfold Utils.bound, Rmin.
        destruct (Rle_dec (- 2 * D / abc) 0); [lra|].
        destruct (Rge_dec (- 2 * D / abc) 1), (Rle_dec (- 2 * D / abc) 1); lra.
      * unfold Rmin. destruct (Rle_dec (- 2 * D / abc) 1); lra.
Qed.

Lemma stroke_curvature_one_sided_witness :
  let v x y := mkStrokeVertex (vec2 x y) (vec3 0 0 0)
                              (mkFEdge 0 false (vec3 0 0 0) false false false 0 0)
                              (mkAttribute 1 (0, 0)) in
  Utils.stroke_curvature (mkSVIterator [v 0 0; v 1 0; v 1 1] 1) = Ok 0.
Proof.
  intros v.
  refine (proj1 (stroke_curvature_one_sided
                   (mkSVIterator [v 0 0; v 1 0; v 1 1] 1)
                   (v 0 0) (v 1 0) (v 1 1) _ eq_refl eq_refl eq_refl) _).
  - cbn. lia.
  - unfold turn. cbn. lra.
Defined.

(** ** Further properties of the blending algebra *)

Lemma blend_known_ok (self : ScalarBlendModifier.t) (v1 v2 : R) :
  known_blend (ScalarBlendModifier.__blend self) = true ->
  exists v, ScalarBlendModifier.blend self v1 v2 = Ok v.
Proof.
  destruct self as [mode f]. cbn [ScalarBlendModifier.__blend].
  intros H. unfold known_blend in H. cbn [existsb] in H.
  unfold ScalarBlendModifier.blend.
  cbn [ScalarBlendModifier.__blend ScalarBlendModifier.__influence].
  repeat match goal with
         | |- context [String.eqb mode ?s] =>
             destruct (String.eqb mode s) eqn:?;
             [first [eexists; reflexivity
                    | unfold py_div; destruct (Req_dec_T v2 0);
                      eexists; reflexivity] |]
         end.
  cbn in H. discriminate.
Qed.

(** [blend] raises exactly for a mode name outside its eight names, and then
    ValueError: for a known mode it returns a value for all operands, a zero
    divisor included. *)
Theorem blend_raises_only_unknown (self : ScalarBlendModifier.t) (v1 v2 : R) :
  (known_blend (ScalarBlendModifier.__blend self) = true ->
   exists v, ScalarBlendModifier.blend self v1 v2 = Ok v)
  /\ (known_blend (ScalarBlendModifier.__blend self) = false ->
      ScalarBlendModifier.blend self v1 v2
      = Raise (ValueError ("unknown curve blend type: "
                             ++ ScalarBlendModifier.__blend self))).
Proof.
  split.
  - apply blend_known_ok.
  - destruct self as [mode f]. apply blend_unknown.
Qed.

Lemma blend_raises_only_unknown_witness :
  exists v, ScalarBlendModifier.blend (ScalarBlendModifier.mk "DIVIDE" (1/2)) 3 0 = Ok v.
Proof.
  apply (proj1 (blend_raises_only_unknown (ScalarBlendModifier.mk "DIVIDE" (1/2)) 3 0)).
  reflexivity.
Defined.

(** The two ends of the influence.  At influence 0 six modes return [v1]
    unchanged, while MININUM and MAXIMUM compare [v1] with 0.  At influence 1
    the modes are the plain operations: [v2], [v1 + v2], [v1 * v2],
    [v1 - v2], [v1 / v2] (for [v2 <> 0]), [|v1 - v2|], [min(v2, v1)] and
    [max(v2, v1)]. *)
Theorem blend_influence_ends (v1 v2 : R) :
  let at0 mode := ScalarBlendModifier.blend (ScalarBlendModifier.mk mode 0) v1 v2 in
  let at1 mode := ScalarBlendModifier.blend (ScalarBlendModifier.mk mode 1) v1 v2 in
  (at0 "MIX"%string = Ok v1 /\ at0 "ADD"%string = Ok v1
   /\ at0 "MULTIPLY"%string = Ok v1 /\ at0 "SUBTRACT"%string = Ok v1
   /\ at0 "DIVIDE"%string = Ok v1 /\ at0 "DIFFERENCE"%string = Ok v1
   /\ at0 "MININUM"%string = Ok (Rmin 0 v1) /\ at0 "MAXIMUM"%string = Ok (Rmax 0 v1))
  /\ (at1 "MIX"%string = Ok v2 /\ at1 "ADD"%string = Ok (v1 + v2)
      /\ at1 "MULTIPLY"%string = Ok (v1 * v2) /\ at1 "SUBTRACT"%string = Ok (v1 - v2)
      /\ (v2 <> 0 -> at1 "DIVIDE"%string = Ok (v1 / v2))
      /\ at1 "DIFFERENCE"%string = Ok (Rabs (v1 - v2))
      /\ at1 "MININUM"%string = Ok (Rmin v2 v1) /\ at1 "MAXIMUM"%string = Ok (Rmax v2 v1)).
Proof.
  cbv zeta. unfold ScalarBlendModifier.blend. cbn.
  unfold py_div, py_abs. rewrite !py_min_Rmin, !py_max_Rmax.
  repeat apply conj; try (f_equal; lra).
  - destruct (Req_dec_T v2 0); cbn; f_equal; unfold Rdiv; ring.
  - f_equal. f_equal. lra.
  - f_equal. f_equal. lra.
  - intros Hv2. destruct (Req_dec_T v2 0); [contradiction|]. cbn. f_equal.
    field. exact Hv2.
  - f_equal. f_equal. lra.
  - f_equal. f_equal. lra.
Qed.

Lemma blend_influence_ends_witness :
  ScalarBlendModifier.blend (ScalarBlendModifier.mk "DIVIDE" 1) 6 3 = Ok (6 / 3).
Proof.
  apply (blend_influence_ends 6 3). lra.
Defined.

(** ** Further properties of the thickness modifiers *)

Lemma set_thickness_total
      (BORDER SILHOUETTE : Z) (self : ThicknessModifierMixIn.t)
      (sv : StrokeVertex) (outer inner : R) :
  total_thickness
    (ThicknessModifierMixIn.set_thickness BORDER SILHOUETTE self sv outer inner)
  = outer + inner
  /\ same_but_thickness
       sv (ThicknessModifierMixIn.set_thickness BORDER SILHOUETTE self sv outer inner).
Proof.
  unfold ThicknessModifierMixIn.set_thickness, total_thickness, same_but_thickness.
  destruct (negb (Z.land (nature (sv_fedge sv)) BORDER =? 0)%Z).
  - destruct (Rlt_dec _ 0); cbn; repeat split; lra.
  - destruct (negb (Z.land (nature (sv_fedge sv)) SILHOUETTE =? 0)%Z).
    + destruct (is_smooth (sv_fedge sv)); cbn; repeat split; lra.
    + cbn. repeat split; lra.
Qed.

Lemma blend_thickness_known_sides
      (self : ThicknessBlenderMixIn.t) (blender : ScalarBlendModifier.t)
      (outer inner v0 v : R) :
  known_position (ThicknessBlenderMixIn.__position self) = true ->
  ScalarBlendModifier.blend blender (outer + inner) v0 = Ok v ->
  exists o i,
    ThicknessBlenderMixIn.blend_thickness self blender outer inner v0 = Ok (o, i)
    /\ (exact_position (ThicknessBlenderMixIn.__position self) = true -> o + i = v)
    /\ (ThicknessBlenderMixIn.__position self = "RELATIVE"%string ->
        o = v * ThicknessBlenderMixIn.__ratio self
        /\ i = v - v * ThicknessBlenderMixIn.__ratio self).
Proof.
  intros H Hblend. unfold known_position in H. cbn [existsb] in H.
  unfold exact_position. cbn [existsb].
  unfold ThicknessBlenderMixIn.blend_thickness. rewrite Hblend. cbn [bind].
  destruct (String.eqb_spec (ThicknessBlenderMixIn.__position self) "CENTER") as [E1 | E1].
  { eexists; eexists. split; [reflexivity|]. split; [intros _; cbn; lra|].
    intros E. rewrite E in E1. discriminate. }
  destruct (String.eqb_spec (ThicknessBlenderMixIn.__position self) "INSIDE") as [E2 | E2].
  { eexists; eexists. split; [reflexivity|]. split; [intros _; cbn; lra|].
    intros E. rewrite E in E2. discriminate. }
  destruct (String.eqb_spec (ThicknessBlenderMixIn.__position self) "OUTSIDE") as [E3 | E3].
  { eexists; eexists. split; [reflexivity|]. split; [intros _; cbn; lra|].
    intros E. rewrite E in E3. discriminate. }
  destruct (String.eqb_spec (ThicknessBlenderMixIn.__position self) "RELATIVE") as [E4 | E4].
  { eexists; eexists. split; [reflexivity|]. split; [intros E; discriminate E|].
    intros _. split; reflexivity. }
  cbn in H. discriminate.
Qed.

(** [set_thickness] only distributes the thickness: in each of its branches
    the two sides it stores add up to [outer + inner], and nothing but the
    thickness of the vertex changes. *)
Theorem set_thickness_keeps_total
        (BORDER SILHOUETTE : Z) (self : ThicknessModifierMixIn.t)
        (sv : StrokeVertex) (outer inner : R) :
  let sv' := ThicknessModifierMixIn.set_thickness BORDER SILHOUETTE self sv outer inner in
  total_thickness sv' = outer + inner /\ same_but_thickness sv sv'.
Proof.
  apply set_thickness_total.
Qed.

(** Over binary64 the two sides that the constructor of
    [BaseThicknessShader] stores for CENTER, INSIDE and OUTSIDE add up to a
    value equal to [thickness], for every finite [thickness]. *)
Lemma base_thickness_exact_binary64
      (camera_type : string) (thickness0 ratio : float) (position : string) :
  exact_position position = true ->
  PrimFloat.is_finite thickness0 = true ->
  exists self,
    Binary64.BaseThicknessShader.__init__ camera_type thickness0 position ratio = Ok self
    /\ (Binary64.BaseThicknessShader.__outer self
        + Binary64.BaseThicknessShader.__inner self =? thickness0)%float = true.
Proof.
  intros Hpos Hfin. unfold exact_position in Hpos. cbn [existsb] in Hpos.
  assert (Hnan : PrimFloat.is_nan thickness0 = false).
  { unfold PrimFloat.is_finite in Hfin. apply negb_true_iff in Hfin.
    apply orb_false_iff in Hfin. exact (proj1 Hfin). }
  unfold Binary64.BaseThicknessShader.__init__.
  destruct (String.eqb position "CENTER").
  { eexists. split; [reflexivity|]. apply (center_split_sum thickness0 Hfin). }
  destruct (String.eqb position "INSIDE").
  { eexists. split; [reflexivity|]. apply (binary64_add_zero thickness0 Hnan). }
  destruct (String.eqb position "OUTSIDE").
  { eexists. split; [reflexivity|]. apply (binary64_add_zero thickness0 Hnan). }
  discriminate Hpos.
Qed.

(** Over binary64 the sides that the constructor stores for the thickness
    5.7 add up to 5.7 for CENTER, INSIDE and OUTSIDE; for RELATIVE with the
    ratio 0.2 they are 1.1400000000000001 and 4.5600000000000005, whose sum
    is not 5.7. *)
#[warnings="-inexact-float"]
Lemma base_thickness_sides_binary64 :
  let sides position :=
      match Binary64.BaseThicknessShader.__init__ "PERSP" 5.7 position 0.2 with
      | Ok self => Some (Binary64.BaseThicknessShader.__outer self,
                         Binary64.BaseThicknessShader.__inner self)
      | Raise _ => None
      end in
  (sides "CENTER"%string = Some (2.85, 2.85)
   /\ sides "INSIDE"%string = Some (0, 5.7)
   /\ sides "OUTSIDE"%string = Some (5.7, 0)
   /\ sides "RELATIVE"%string = Some (1.1400000000000001, 4.5600000000000005)
   /\ (2.85 + 2.85 =? 5.7) = true
   /\ (1.1400000000000001 + 4.5600000000000005 =? 5.7) = false)%float.
Proof.
  vm_compute. repeat split.
Qed.



Lemma iter_t2d_loop_length (total d : R) (pairs : list (StrokeVertex * StrokeVertex)) :
  List.length (Utils.iter_t2d_loop total d pairs) = List.length pairs.
Proof.
  revert d. induction pairs as [| [prev svert] rest IH]; intros d; cbn;
    [reflexivity | rewrite IH; reflexivity].
Qed.

Lemma iter_t2d_covers_stroke (stroke : Stroke) :
  List.length (combine (vertices stroke) (Utils.iter_t2d_along_stroke stroke))
  = List.length (vertices stroke).
Proof.
  rewrite length_combine. unfold Utils.iter_t2d_along_stroke. cbn [List.length].
  rewrite iter_t2d_loop_length. unfold Utils.pairwise. rewrite length_combine.
  destruct (vertices stroke); cbn [tl List.length]; lia.
Qed.

Lemma thickness_shade_loop_ok
      (BORDER SILHOUETTE : Z) (Curve : Type)
      (evaluateCurveMappingF : Curve -> Z -> R -> R)
      (self : ThicknessAlongStrokeShader.t Curve) (delta : R)
      (pairs : list (StrokeVertex * R)) :
  known_blend (ScalarBlendModifier.__blend
                 (CurveMappingModifier.base Curve (ThicknessAlongStrokeShader.base Curve self)))
  = true ->
  known_position (ThicknessBlenderMixIn.__position
                    (ThicknessAlongStrokeShader.blender Curve self)) = true ->
  exists vs',
    ThicknessAlongStrokeShader.shade_loop
      BORDER SILHOUETTE Curve evaluateCurveMappingF self delta pairs = Ok vs'
    /\ Forall2
         (fun svt svert' =>
            same_but_thickness (fst svt) svert'
            /\ exists v,
                ScalarBlendModifier.blend
                  (CurveMappingModifier.base Curve (ThicknessAlongStrokeShader.base Curve self))
                  (total_thickness (fst svt))
                  (ThicknessAlongStrokeShader.__value_min Curve self
                   + CurveMappingModifier.evaluate
                       Curve evaluateCurveMappingF
                       (ThicknessAlongStrokeShader.base Curve self) (snd svt)
                     * delta)
                = Ok v
                /\ blended_total
                     (ThicknessBlenderMixIn.__position
                        (ThicknessAlongStrokeShader.blender Curve self))
                     (ThicknessBlenderMixIn.__ratio
                        (ThicknessAlongStrokeShader.blender Curve self))
                     v (total_thickness svert'))
         pairs vs'.
Proof.
  intros Hblend Hpos.
  induction pairs as [| [svert t0] rest IH].
  - exists []. split; [reflexivity | constructor].
  - destruct IH as (vs' & Hvs & Hall).
    cbn [ThicknessAlongStrokeShader.shade_loop].
    unfold ThicknessAlongStrokeShader.shade_pair.
    destruct (thickness (attribute svert)) as [R0 L0] eqn:Hth.
    set (b := ThicknessAlongStrokeShader.__value_min Curve self
              + CurveMappingModifier.evaluate
                  Curve evaluateCurveMappingF
                  (ThicknessAlongStrokeShader.base Curve self) t0 * delta).
    destruct (blend_known_ok
                (CurveMappingModifier.base Curve (ThicknessAlongStrokeShader.base Curve self))
                (R0 + L0) b Hblend) as (v & Hv).
    destruct (blend_thickness_known_sides
                (ThicknessAlongStrokeShader.blender Curve self)
                (CurveMappingModifier.base Curve (ThicknessAlongStrokeShader.base Curve self))
                R0 L0 b v Hpos Hv) as (o & i & Hoi & Hsum & Hrel).
    rewrite Hoi. cbn [bind fst snd]. rewrite Hvs. cbn [bind].
    eexists. split; [reflexivity|]. constructor; [| exact Hall].
    cbn [fst snd].
    destruct (set_thickness_total
                BORDER SILHOUETTE
                (ThicknessBlenderMixIn.base (ThicknessAlongStrokeShader.blender Curve self))
                svert o i) as [Ht Hs].
    split; [exact Hs|].
    exists v. split.
    + unfold total_thickness. rewrite Hth. cbn [fst snd]. exact Hv.
    + unfold blended_total. rewrite Ht. split.
      * exact Hsum.
      * intros E. destruct (Hrel E) as [Ho Hi]. rewrite Ho, Hi. reflexivity.
Qed.

(** [ThicknessAlongStrokeShader.shade] with a known blend mode and a known
    position shades the stroke without error: every vertex is shaded and
    only thicknesses change.  Each vertex has a blended value [v], the blend
    of its old total thickness with
    [value_min + evaluate(t) * (value_max - value_min)]; for CENTER, INSIDE
    and OUTSIDE the new total thickness of the vertex is [v], for RELATIVE it
    is the sum of the two sides [v * ratio] and [v - v * ratio]. *)
Theorem ThicknessAlongStrokeShader_shade_sides
        (BORDER SILHOUETTE : Z) (Curve : Type)
        (evaluateCurveMappingF : Curve -> Z -> R -> R)
        (self : ThicknessAlongStrokeShader.t Curve) (stroke : Stroke) :
  known_blend (ScalarBlendModifier.__blend
                 (CurveMappingModifier.base Curve (ThicknessAlongStrokeShader.base Curve self)))
  = true ->
  known_position (ThicknessBlenderMixIn.__position
                    (ThicknessAlongStrokeShader.blender Curve self)) = true ->
  exists stroke',
    ThicknessAlongStrokeShader.shade
      BORDER SILHOUETTE Curve evaluateCurveMappingF self stroke = Ok stroke'
    /\ List.length (vertices stroke') = List.length (vertices stroke)
    /\ length_2d stroke' = length_2d stroke
    /\ Forall2
         (fun svt svert' =>
            same_but_thickness (fst svt) svert'
            /\ exists v,
                ScalarBlendModifier.blend
                  (CurveMappingModifier.base Curve (ThicknessAlongStrokeShader.base Curve self))
                  (total_thickness (fst svt))
                  (ThicknessAlongStrokeShader.__value_min Curve self
                   + CurveMappingModifier.evaluate
                       Curve evaluateCurveMappingF
                       (ThicknessAlongStrokeShader.base Curve self) (snd svt)
                     * (ThicknessAlongStrokeShader.__value_max Curve self
                        - ThicknessAlongStrokeShader.__value_min Curve self))
                = Ok v
                /\ blended_total
                     (ThicknessBlenderMixIn.__position
                        (ThicknessAlongStrokeShader.blender Curve self))
                     (ThicknessBlenderMixIn.__ratio
                        (ThicknessAlongStrokeShader.blender Curve self))
                     v (total_thickness svert'))
         (combine (vertices stroke) (Utils.iter_t2d_along_stroke stroke))
         (vertices stroke').
Proof.
  intros Hblend Hpos. unfold ThicknessAlongStrokeShader.shade.
  destruct (thickness_shade_loop_ok
              BORDER SILHOUETTE Curve evaluateCurveMappingF self
              (ThicknessAlongStrokeShader.__value_max Curve self
               - ThicknessAlongStrokeShader.__value_min Curve self)
              (combine (vertices stroke) (Utils.iter_t2d_along_stroke stroke))
              Hblend Hpos) as (vs' & Hvs & Hall).
  rewrite Hvs. cbn [bind]. eexists. split; [reflexivity|]. cbn [vertices length_2d].
  split; [| split; [reflexivity | exact Hall]].
  rewrite <- (Forall2_length Hall). apply iter_t2d_covers_stroke.
Qed.

Lemma ThicknessAlongStrokeShader_shade_sides_witness :
  let v x y := mkStrokeVertex (vec2 x y) (vec3 0 0 0)
                              (mkFEdge 0 false (vec3 0 0 0) false false false 0 0)
                              (mkAttribute 1 (1, 2)) in
  let stroke := mkStroke [v 0 0; v 3 4] 5 in
  let self := ThicknessAlongStrokeShader.mk
                unit
                (ThicknessBlenderMixIn.mk (ThicknessModifierMixIn.mk true) "CENTER" (1/2))
                (CurveMappingModifier.mk unit (ScalarBlendModifier.mk "ADD" 1)
                                         "LINEAR" false tt)
                2 6 in
  exists stroke',
    ThicknessAlongStrokeShader.shade 2 1 unit (fun _ _ t0 => t0) self stroke = Ok stroke'
    /\ List.length (vertices stroke') = List.length (vertices stroke).
Proof.
  intros v stroke self.
  destruct (ThicknessAlongStrokeShader_shade_sides
              2 1 unit (fun _ _ t0 => t0) self stroke eq_refl eq_refl)
    as (stroke' & Hs & Hl & _).
  exists stroke'. split; assumption.
Defined.

(** ** Properties of the alpha modifiers *)

Lemma alpha_shade_loop_ok
      (Curve : Type) (evaluateCurveMappingF : Curve -> Z -> R -> R)
      (self : CurveMappingModifier.t Curve) (pairs : list (StrokeVertex * R)) :
  known_blend (ScalarBlendModifier.__blend (CurveMappingModifier.base Curve self)) = true ->
  exists vs',
    AlphaAlongStrokeShader.shade_loop Curve evaluateCurveMappingF self pairs = Ok vs'
    /\ Forall2
         (fun svt svert' =>
            same_but_alpha (fst svt) svert'
            /\ ScalarBlendModifier.blend
                 (CurveMappingModifier.base Curve self)
                 (alpha (attribute (fst svt)))
                 (CurveMappingModifier.evaluate Curve evaluateCurveMappingF self (snd svt))
               = Ok (alpha (attribute svert')))
         pairs vs'.
Proof.
  intros Hblend. induction pairs as [| [svert t0] rest IH].
  - exists []. split; [reflexivity | constructor].
  - destruct IH as (vs' & Hvs & Hall).
    cbn [AlphaAlongStrokeShader.shade_loop].
    destruct (blend_known_ok
                (CurveMappingModifier.base Curve self)
                (alpha (attribute svert))
                (CurveMappingModifier.evaluate Curve evaluateCurveMappingF self t0)
                Hblend) as (v & Hv).
    rewrite Hv, Hvs. cbn [bind].
    eexists. split; [reflexivity|]. constructor; [| exact Hall].
    cbn [fst snd]. split; [| exact Hv].
    unfold same_but_alpha, AlphaAlongStrokeShader.set_alpha. cbn. repeat split.
Qed.

(** The alpha modifiers with a known blend mode never raise: along the
    stroke, and by distance from the camera for every range, each vertex of
    the stroke is shaded, only its alpha changes, and the new alpha is the
    blend of the old one with the curve evaluated at the value the vertex is
    paired with: its relative abscissa along the stroke, or the distance
    ratio that [iter_distance_from_camera] yields for it. *)
Theorem alpha_shaders_blend_mapped
        (Curve : Type) (evaluateCurveMappingF : Curve -> Z -> R -> R)
        (self : CurveMappingModifier.t Curve) (stroke : Stroke) :
  known_blend (ScalarBlendModifier.__blend (CurveMappingModifier.base Curve self)) = true ->
  (exists stroke',
      AlphaAlongStrokeShader.shade Curve evaluateCurveMappingF self stroke = Ok stroke'
      /\ List.length (vertices stroke') = List.length (vertices stroke)
      /\ Forall2
           (fun svt svert' =>
              same_but_alpha (fst svt) svert'
              /\ ScalarBlendModifier.blend
                   (CurveMappingModifier.base Curve self)
                   (alpha (attribute (fst svt)))
                   (CurveMappingModifier.evaluate Curve evaluateCurveMappingF self (snd svt))
                 = Ok (alpha (attribute svert')))
           (combine (vertices stroke) (Utils.iter_t2d_along_stroke stroke))
           (vertices stroke'))
  /\ (forall range_min range_max : R,
         exists ts stroke',
           Utils.iter_distance_from_camera stroke range_min range_max = Ok ts
           /\ List.length ts = List.length (vertices stroke)
           /\ AlphaDistanceFromCameraShader.shade
                Curve evaluateCurveMappingF
                (AlphaDistanceFromCameraShader.mk Curve self range_min range_max) stroke
              = Ok stroke'
           /\ List.length (vertices stroke') = List.length (vertices stroke)
           /\ Forall2
                (fun svt svert' =>
                   same_but_alpha (fst svt) svert'
                   /\ ScalarBlendModifier.blend
                        (CurveMappingModifier.base Curve self)
                        (alpha (attribute (fst svt)))
                        (CurveMappingModifier.evaluate
                           Curve evaluateCurveMappingF self (snd svt))
                      = Ok (alpha (attribute svert')))
                (combine (vertices stroke) ts)
                (vertices stroke')).
Proof.
  intros Hblend. split.
  - unfold AlphaAlongStrokeShader.shade.
    destruct (alpha_shade_loop_ok
                Curve evaluateCurveMappingF self
                (combine (vertices stroke) (Utils.iter_t2d_along_stroke stroke)) Hblend)
      as (vs' & Hvs & Hall).
    rewrite Hvs. cbn [bind]. eexists. split; [reflexivity|]. cbn [vertices].
    split; [| exact Hall].
    rewrite <- (Forall2_length Hall). apply iter_t2d_covers_stroke.
  - intros range_min range_max. unfold AlphaDistanceFromCameraShader.shade.
    cbn [AlphaDistanceFromCameraShader.__range_min
           AlphaDistanceFromCameraShader.__range_max AlphaDistanceFromCameraShader.base].
    assert (Hit : exists ts,
               Utils.iter_distance_from_camera stroke range_min range_max = Ok ts
               /\ List.length ts = List.length (vertices stroke)).
    { unfold Utils.iter_distance_from_camera.
      induction (vertices stroke) as [| svert rest IH].
      - exists []. split; reflexivity.
      - destruct IH as (ts & Hts & Hlen).
        destruct (distance_from_camera_step_total range_min range_max svert)
          as (t0 & Ht0 & _).
        exists (t0 :: ts). cbn [Utils.collect]. rewrite Ht0, Hts. cbn [bind List.length].
        split; [reflexivity | lia]. }
    destruct Hit as (ts & Hts & Hlen). exists ts. rewrite Hts. cbn [bind].
    destruct (alpha_shade_loop_ok
                Curve evaluateCurveMappingF self (combine (vertices stroke) ts) Hblend)
      as (vs' & Hvs & Hall).
    rewrite Hvs. cbn [bind]. eexists.
    split; [reflexivity|]. split; [exact Hlen|]. split; [reflexivity|].
    cbn [vertices]. split; [| exact Hall].
    rewrite <- (Forall2_length Hall), length_combine. lia.
Qed.

Lemma alpha_shaders_blend_mapped_witness :
  let v x y := mkStrokeVertex (vec2 x y) (vec3 0 0 0)
                              (mkFEdge 0 false (vec3 0 0 0) false false false 0 0)
                              (mkAttribute 1 (1, 2)) in
  let stroke := mkStroke [v 0 0; v 3 4] 5 in
  let self := CurveMappingModifier.mk unit (ScalarBlendModifier.mk "DIVIDE" (1/2))
                                      "LINEAR" true tt in
  exists ts stroke',
    Utils.iter_distance_from_camera stroke 5 1 = Ok ts
    /\ List.length ts = List.length (vertices stroke)
    /\ AlphaDistanceFromCameraShader.shade
         unit (fun _ _ t0 => t0) (AlphaDistanceFromCameraShader.mk unit self 5 1) stroke
       = Ok stroke'
    /\ List.length (vertices stroke') = List.length (vertices stroke)
    /\ Forall2
         (fun svt svert' =>
            same_but_alpha (fst svt) svert'
            /\ ScalarBlendModifier.blend
                 (CurveMappingModifier.base unit self)
                 (alpha (attribute (fst svt)))
                 (CurveMappingModifier.evaluate unit (fun _ _ t0 => t0) self (snd svt))
               = Ok (alpha (attribute svert')))
         (combine (vertices stroke) ts)
         (vertices stroke').
Proof.
  intros v stroke self.
  apply (proj2 (alpha_shaders_blend_mapped unit (fun _ _ t0 => t0) self stroke eq_refl) 5 1).
Defined.

(** ** Further properties of the dash-pattern split controller *)

Lemma controller_lists_kept (self : SplitPatternController.t) :
  (SplitPatternController.start_pos (snd (SplitPatternController.start self))
   = SplitPatternController.start_pos self
   /\ SplitPatternController.stop_pos (snd (SplitPatternController.start self))
      = SplitPatternController.stop_pos self)
  /\ (SplitPatternController.start_pos (snd (SplitPatternController.stop self))
      = SplitPatternController.start_pos self
      /\ SplitPatternController.stop_pos (snd (SplitPatternController.stop self))
         = SplitPatternController.stop_pos self).
Proof.
  split.
  - unfold SplitPatternController.start. cbn.
    repeat match goal with
           | |- context [nth_error ?l ?i] => destruct (nth_error l i)
           | |- context [Rlt_dec ?a ?b] => destruct (Rlt_dec a b)
           end; cbn; split; reflexivity.
  - unfold SplitPatternController.stop.
    destruct (Rgt_dec (SplitPatternController.start_len self) 0); cbn;
      repeat match goal with
             | |- context [nth_error ?l ?i] => destruct (nth_error l i)
             | |- context [Rlt_dec ?a ?b] => destruct (Rlt_dec a b)
             | |- context [match ?l with [] => _ | _ :: _ => _ end] => destruct l
             end; cbn; split; reflexivity.
Qed.

Lemma controller_indices_kept (self : SplitPatternController.t) :
  (SplitPatternController.start_idx self
   < List.length (SplitPatternController.start_pos self))%nat ->
  (SplitPatternController.stop_idx self
   < List.length (SplitPatternController.stop_pos self))%nat ->
  (exists b, fst (SplitPatternController.start self) = Ok b)
  /\ (exists b, fst (SplitPatternController.stop self) = Ok b)
  /\ (SplitPatternController.start_idx (snd (SplitPatternController.start self))
      < List.length (SplitPatternController.start_pos self))%nat
  /\ (SplitPatternController.stop_idx (snd (SplitPatternController.start self))
      < List.length (SplitPatternController.stop_pos self))%nat
  /\ (SplitPatternController.start_idx (snd (SplitPatternController.stop self))
      < List.length (SplitPatternController.start_pos self))%nat
  /\ (SplitPatternController.stop_idx (snd (SplitPatternController.stop self))
      < List.length (SplitPatternController.stop_pos self))%nat.
Proof.
  intros Hs Ht.
  assert (Hstart : exists b,
             fst (SplitPatternController.start self) = Ok b
             /\ (SplitPatternController.start_idx (snd (SplitPatternController.start self))
                 < List.length (SplitPatternController.start_pos self))%nat
             /\ (SplitPatternController.stop_idx (snd (SplitPatternController.start self))
                 < List.length (SplitPatternController.stop_pos self))%nat).
  { unfold SplitPatternController.start. cbn.
    destruct (nth_error (SplitPatternController.start_pos self)
                        (SplitPatternController.start_idx self)) as [p |] eqn:E;
      [| apply nth_error_None in E; lia].
    destruct (Rlt_dec _ _); cbn; eexists; (split; [reflexivity|]); split; try assumption.
    all: try (apply Nat.mod_upper_bound; lia). }
  assert (Hstop : exists b,
             fst (SplitPatternController.stop self) = Ok b
             /\ (SplitPatternController.start_idx (snd (SplitPatternController.stop self))
                 < List.length (SplitPatternController.start_pos self))%nat
             /\ (SplitPatternController.stop_idx (snd (SplitPatternController.stop self))
                 < List.length (SplitPatternController.stop_pos self))%nat).
  { unfold SplitPatternController.stop.
    destruct (Rgt_dec (SplitPatternController.start_len self) 0); cbn.
    - destruct (SplitPatternController.stop_pos self) as [| p ps] eqn:E;
        [cbn in Ht; lia|].
      cbn. destruct (Rlt_dec _ _); cbn; eexists; (split; [reflexivity|]); split; try lia.
      all: try (apply Nat.mod_upper_bound; cbn; lia).
    - destruct (nth_error (SplitPatternController.stop_pos self)
                          (SplitPatternController.stop_idx self)) as [p |] eqn:E;
        [| apply nth_error_None in E; lia].
      destruct (Rlt_dec _ _); cbn; eexists; (split; [reflexivity|]); split; try assumption.
      all: try (apply Nat.mod_upper_bound; lia). }
  destruct Hstart as (b1 & H1 & H2 & H3). destruct Hstop as (b2 & H4 & H5 & H6).
  repeat split; eauto.
Qed.

Lemma controller_init_lists (pattern : list R) (sampling : R) :
  List.length (SplitPatternController.start_pos
                 (SplitPatternController.__init__ pattern sampling))
  = (List.length pattern - 1)%nat
  /\ List.length (SplitPatternController.stop_pos
                    (SplitPatternController.__init__ pattern sampling))
     = (List.length pattern - 1)%nat
  /\ SplitPatternController.start_idx (SplitPatternController.__init__ pattern sampling)
     = 0%nat
  /\ SplitPatternController.stop_idx (SplitPatternController.__init__ pattern sampling)
     = 0%nat.
Proof.
  unfold SplitPatternController.__init__, SplitPatternController.init. cbn.
  rewrite !length_map. unfold Utils.pairwise. rewrite length_combine.
  repeat split; destruct pattern; cbn [tl List.length]; lia.
Qed.

(** The controller raises exactly for a pattern of fewer than two entries.
    For such a pattern every call of [start()] and of [stop()] raises
    IndexError; for a pattern of two or more entries no call, after any
    sequence of earlier calls, ever raises. *)
Theorem controller_raises_only_for_short_pattern
        (pattern : list R) (sampling : R) (calls : list bool) :
  let self := SplitPatternController.after_calls
                calls (SplitPatternController.__init__ pattern sampling) in
  ((List.length pattern < 2)%nat ->
   fst (SplitPatternController.start self) = Raise IndexError
   /\ fst (SplitPatternController.stop self) = Raise IndexError)
  /\ ((2 <= List.length pattern)%nat ->
      (exists b, fst (SplitPatternController.start self) = Ok b)
      /\ (exists b, fst (SplitPatternController.stop self) = Ok b)).
Proof.
  cbv zeta.
  destruct (controller_init_lists pattern sampling) as (Hsp & Htp & Hsi & Hti).
  set (self0 := SplitPatternController.__init__ pattern sampling) in *.
  clearbody self0. split.
  - intros Hlen.
    assert (Hs : SplitPatternController.start_pos self0 = []).
    { destruct (SplitPatternController.start_pos self0); [reflexivity | cbn in Hsp; lia]. }
    assert (Ht : SplitPatternController.stop_pos self0 = []).
    { destruct (SplitPatternController.stop_pos self0); [reflexivity | cbn in Htp; lia]. }
    clear Hsp Htp Hsi Hti. revert self0 Hs Ht.
    induction calls as [| c rest IH]; intros self0 Hs Ht.
    + cbn [SplitPatternController.after_calls]. split.
      * unfold SplitPatternController.start. cbn. rewrite Hs.
        destruct (SplitPatternController.start_idx self0); reflexivity.
      * unfold SplitPatternController.stop.
        destruct (Rgt_dec _ 0); cbn; rewrite Ht;
          [reflexivity | destruct (SplitPatternController.stop_idx self0); reflexivity].
    + cbn [SplitPatternController.after_calls].
      destruct (controller_lists_kept self0) as [[H1 H2] [H3 H4]].
      apply IH; destruct c; congruence.
  - intros Hlen.
    assert (Hs : (SplitPatternController.start_idx self0
                  < List.length (SplitPatternController.start_pos self0))%nat) by lia.
    assert (Ht : (SplitPatternController.stop_idx self0
                  < List.length (SplitPatternController.stop_pos self0))%nat) by lia.
    clear Hsp Htp Hsi Hti. revert self0 Hs Ht.
    induction calls as [| c rest IH]; intros self0 Hs Ht.
    + cbn [SplitPatternController.after_calls].
      destruct (controller_indices_kept self0 Hs Ht) as (H1 & H2 & _). auto.
    + cbn [SplitPatternController.after_calls].
      destruct (controller_indices_kept self0 Hs Ht) as (_ & _ & H3 & H4 & H5 & H6).
      destruct (controller_lists_kept self0) as [[E1 E2] [E3 E4]].
      apply IH; destruct c; congruence.
Qed.

Lemma controller_raises_only_for_short_pattern_witness :
  let self := SplitPatternController.after_calls
                [true; false; false; true]
                (SplitPatternController.__init__ [3; 1; 2] 1) in
  (exists b, fst (SplitPatternController.start self) = Ok b)
  /\ (exists b, fst (SplitPatternController.stop self) = Ok b).
Proof.
  apply (proj2 (controller_raises_only_for_short_pattern
                  [3; 1; 2] 1 [true; false; false; true])).
  cbn. lia.
Defined.

Lemma succ_mod (n N : nat) :
  (1 <= N)%nat ->
  (S n mod N = if n mod N =? N - 1 then 0 else S (n mod N))%nat.
Proof.
  intros HN.
  pose proof (Nat.div_mod_eq n N) as Hn.
  pose proof (Nat.mod_upper_bound n N ltac:(lia)) as Hb.
  destruct (Nat.eqb_spec (n mod N) (N - 1)) as [E | E].
  - symmetry. apply (Nat.mod_unique (S n) N (S (n / N)) 0); nia.
  - symmetry. apply (Nat.mod_unique (S n) N (n / N) (S (n mod N))); nia.
Qed.

Lemma after_stops_last (n : nat) (self : SplitPatternController.t) :
  SplitPatternController.after_stops (S n) self
  = snd (SplitPatternController.stop (SplitPatternController.after_stops n self)).
Proof.
  revert self. induction n as [| n IH]; intros self.
  - reflexivity.
  - change (SplitPatternController.after_stops (S (S n)) self)
      with (SplitPatternController.after_stops (S n)
              (snd (SplitPatternController.stop self))).
    rewrite IH. reflexivity.
Qed.

(** Whether [k] sampling steps reach within half a step of [N] steps. *)
Lemma boundary_test (s : R) (k N : nat) :
  0 < s ->
  (k <= N)%nat ->
  (Rabs (INR k * s - INR N * s) < s / 2) <-> k = N.
Proof.
  intros Hs Hk. split.
  - intros H. destruct (Nat.eq_dec k N) as [E | E]; [exact E | exfalso].
    assert (Hle : INR k + 1 <= INR N).
    { rewrite <- S_INR. apply le_INR. lia. }
    unfold Rabs in H. destruct (Rcase_abs _); nra.
  - intros ->. replace (INR N * s - INR N * s) with 0 by ring.
    rewrite Rabs_R0. lra.
Qed.

Section Periods.

Variables (s d g : R) (M G : nat).
Hypothesis Hs : 0 < s.
Hypothesis Hd : d = INR M * s.
Hypothesis Hg : g = INR G * s.

Lemma period_init_started :
  SplitPatternController.__init__ [d; g] s = controller_started s d g 0.
Proof.
  unfold controller_started, SplitPatternController.__init__, SplitPatternController.init.
  cbn. f_equal. ring.
Qed.

Lemma period_init_stopped :
  SplitPatternController.__init__ [d; g] s = controller_stopped s d g 0.
Proof.
  unfold controller_stopped, SplitPatternController.__init__, SplitPatternController.init.
  cbn. f_equal. ring.
Qed.

Lemma period_start_step (k : nat) :
  (S k <= M + G)%nat ->
  SplitPatternController.start (controller_started s d g k)
  = if (S k =? M + G)%nat
    then (Ok true, controller_started s d g 0)
    else (Ok false, controller_started s d g (S k)).
Proof.
  intros Hk. unfold SplitPatternController.start, controller_started, py_abs.
  cbn -[INR Nat.modulo Nat.eqb].
  assert (Hsum : d + g = INR (M + G) * s) by (rewrite plus_INR; subst d g; ring).
  assert (Hacc : INR k * s + s = INR (S k) * s) by (rewrite S_INR; ring).
  pose proof (boundary_test s (S k) (M + G) Hs Hk) as Htest.
  rewrite <- Hacc, <- Hsum in Htest.
  destruct (Rlt_dec _ _) as [Hlt | Hge]; destruct (Nat.eqb_spec (S k) (M + G)) as [E | E].
  - replace (INR 0 * s) with 0 by (simpl; ring). reflexivity.
  - exfalso. apply E. apply Htest. exact Hlt.
  - exfalso. apply Hge. apply Htest. exact E.
  - rewrite Hacc. reflexivity.
Qed.

Lemma period_stop_step (k : nat) :
  (S (S k) <= M)%nat ->
  SplitPatternController.stop (controller_stopped s d g k)
  = if (S (S k) =? M)%nat
    then (Ok true, controller_stopped s d g 0)
    else (Ok false, controller_stopped s d g (S k)).
Proof.
  intros Hk. unfold SplitPatternController.stop, controller_stopped, py_abs.
  cbn -[INR Nat.modulo Nat.eqb].
  destruct (Rgt_dec 0 0) as [H0 | _]; [lra|]. cbn -[INR Nat.modulo Nat.eqb].
  assert (Hacc : INR (S k) * s + s = INR (S (S k)) * s)
    by (rewrite (S_INR (S k)); ring).
  pose proof (boundary_test s (S (S k)) M Hs Hk) as Htest.
  rewrite <- Hacc, <- Hd in Htest.
  destruct (Rlt_dec _ _) as [Hlt | Hge]; destruct (Nat.eqb_spec (S (S k)) M) as [E | E].
  - replace (INR 1 * s) with s by (simpl; ring). reflexivity.
  - exfalso. apply E. apply Htest. exact Hlt.
  - exfalso. apply Hge. apply Htest. exact E.
  - rewrite Hacc. reflexivity.
Qed.

Lemma period_after_starts (n : nat) :
  (1 <= M + G)%nat ->
  SplitPatternController.after_starts n (SplitPatternController.__init__ [d; g] s)
  = controller_started s d g (n mod (M + G)).
Proof.
  intros HN. induction n as [| n IH].
  - rewrite period_init_started, Nat.Div0.mod_0_l. reflexivity.
  - pose proof (Nat.mod_upper_bound n (M + G) ltac:(lia)) as Hb.
    rewrite after_starts_last, IH, period_start_step by lia.
    rewrite (succ_mod n (M + G) HN).
    destruct (Nat.eqb_spec (S (n mod (M + G))) (M + G)) as [E | E];
      destruct (Nat.eqb_spec (n mod (M + G)) (M + G - 1)) as [E' | E'];
      try lia; reflexivity.
Qed.

Lemma period_after_stops (n : nat) :
  (2 <= M)%nat ->
  SplitPatternController.after_stops n (SplitPatternController.__init__ [d; g] s)
  = controller_stopped s d g (n mod (M - 1)).
Proof.
  intros HM. induction n as [| n IH].
  - rewrite period_init_stopped, Nat.Div0.mod_0_l. reflexivity.
  - pose proof (Nat.mod_upper_bound n (M - 1) ltac:(lia)) as Hb.
    rewrite after_stops_last, IH, period_stop_step by lia.
    rewrite (succ_mod n (M - 1) ltac:(lia)).
    destruct (Nat.eqb_spec (S (S (n mod (M - 1)))) M) as [E | E];
      destruct (Nat.eqb_spec (n mod (M - 1)) (M - 1 - 1)) as [E' | E'];
      try lia; reflexivity.
Qed.

Lemma period_start_call (n : nat) :
  (1 <= M + G)%nat ->
  SplitPatternController.start_call n (SplitPatternController.__init__ [d; g] s)
  = Ok (S n mod (M + G) =? 0)%nat.
Proof.
  intros HN. unfold SplitPatternController.start_call.
  pose proof (Nat.mod_upper_bound n (M + G) ltac:(lia)) as Hb.
  rewrite period_after_starts, period_start_step by lia.
  rewrite (succ_mod n (M + G) HN).
  destruct (Nat.eqb_spec (S (n mod (M + G))) (M + G)) as [E | E];
    destruct (Nat.eqb_spec (n mod (M + G)) (M + G - 1)) as [E' | E'];
    try lia; reflexivity.
Qed.

Lemma period_stop_call (n : nat) :
  (2 <= M)%nat ->
  SplitPatternController.stop_call n (SplitPatternController.__init__ [d; g] s)
  = Ok (S n mod (M - 1) =? 0)%nat.
Proof.
  intros HM. unfold SplitPatternController.stop_call.
  pose proof (Nat.mod_upper_bound n (M - 1) ltac:(lia)) as Hb.
  rewrite period_after_stops, period_stop_step by lia.
  rewrite (succ_mod n (M - 1) ltac:(lia)).
  destruct (Nat.eqb_spec (S (S (n mod (M - 1)))) M) as [E | E];
    destruct (Nat.eqb_spec (n mod (M - 1)) (M - 1 - 1)) as [E' | E'];
    try lia; reflexivity.
Qed.

End Periods.

(** The periods of a one-dash pattern.  For a dash of [M] and a gap of [G]
    sampling steps (sampling step [s > 0]), successive calls of [start()]
    return True exactly on every [(M + G)]-th call; successive calls of
    [stop()] return True exactly on every [(M - 1)]-th call when the dash has
    at least two steps. *)
Theorem one_dash_pattern_periods (s d g : R) (M G : nat) :
  0 < s -> d = INR M * s -> g = INR G * s ->
  ((1 <= M + G)%nat ->
   forall n, SplitPatternController.start_call
               n (SplitPatternController.__init__ [d; g] s)
             = Ok (S n mod (M + G) =? 0)%nat)
  /\ ((2 <= M)%nat ->
      forall n, SplitPatternController.stop_call
                  n (SplitPatternController.__init__ [d; g] s)
                = Ok (S n mod (M - 1) =? 0)%nat).
Proof.
  intros Hs Hd Hg. split.
  - intros HN n. apply (period_start_call s d g M G Hs Hd Hg n HN).
  - intros HM n. apply (period_stop_call s d g M Hs Hd n HM).
Qed.

Lemma one_dash_pattern_periods_witness :
  SplitPatternController.stop_call 8 (SplitPatternController.__init__ [10; 5] 1)
  = Ok (9 mod (10 - 1) =? 0)%nat.
Proof.
  refine (proj2 (one_dash_pattern_periods 1 10 5 10 5 _ _ _) _ 8%nat).
  - lra.
  - simpl. lra.
  - simpl. lra.
  - lia.
Defined.

(** ** Properties of the remaining predicates *)

Lemma nondecreasing_tail (x : R) (l : list R) :
  nondecreasing (x :: l) ->
  nondecreasing l /\ (forall y, hd_error l = Some y -> x <= y).
Proof.
  intros H. split.
  - intros i a b Ha Hb. apply (H (S i) a b); assumption.
  - intros y Hy. destruct l as [| z l]; [discriminate|]. cbn in Hy. inversion Hy; subst.
    apply (H 0%nat x y); reflexivity.
Qed.

Lemma length_split_spaced (limit last : R) (ts : list R) :
  nondecreasing ts ->
  (forall y, hd_error ts = Some y -> last <= y) ->
  spaced limit last
         (fired (Length2DThresholdUP0D.calls (Length2DThresholdUP0D.mk limit last) ts) ts).
Proof.
  revert last. induction ts as [| t0 rest IH]; intros last Hmono Hhd.
  - exact I.
  - destruct (nondecreasing_tail t0 rest Hmono) as [Hrest Hnext].
    specialize (Hhd t0 eq_refl).
    cbn [Length2DThresholdUP0D.calls]. unfold Length2DThresholdUP0D.__call__.
    cbn [Length2DThresholdUP0D._t Length2DThresholdUP0D._length_limit].
    destruct (Rlt_dec t0 last) as [Hlt | _]; [lra|].
    destruct (Rlt_dec (t0 - last) limit) as [Hclose | Hfar]; cbn [fst snd].
    + unfold fired. cbn [combine filter fst]. fold (fired
        (Length2DThresholdUP0D.calls (Length2DThresholdUP0D.mk limit last) rest) rest).
      apply IH; [exact Hrest|]. intros y Hy. specialize (Hnext y Hy). lra.
    + unfold fired. cbn [combine filter fst map snd]. fold (fired
        (Length2DThresholdUP0D.calls (Length2DThresholdUP0D.mk limit t0) rest) rest).
      split; [lra|]. apply IH; [exact Hrest | exact Hnext].
Qed.

(** Along one chain (abscissas that never decrease and are not negative) the
    fixed-length split predicate puts its split points at least
    [length_limit] apart, the first one at least [length_limit] from the
    start. *)
Theorem length_split_points_spaced (length_limit : R) (ts : list R) :
  nondecreasing ts ->
  Forall (fun t0 => 0 <= t0) ts ->
  spaced length_limit 0
         (fired (Length2DThresholdUP0D.calls
                   (Length2DThresholdUP0D.__init__ length_limit) ts) ts).
Proof.
  intros Hmono Hpos. unfold Length2DThresholdUP0D.__init__.
  apply length_split_spaced; [exact Hmono|].
  intros y Hy. destruct ts as [| t0 rest]; [discriminate|].
  cbn in Hy. inversion Hy; subst. inversion Hpos; assumption.
Qed.

Lemma length_split_points_spaced_witness :
  spaced 2 0 (fired (Length2DThresholdUP0D.calls
                       (Length2DThresholdUP0D.__init__ 2) [0; 1; 2; 3; 5]) [0; 1; 2; 3; 5]).
Proof.
  apply (length_split_points_spaced 2 [0; 1; 2; 3; 5]).
  - intros i a b Ha Hb.
    destruct i as [| [| [| [| [| i]]]]]; cbn in Ha, Hb;
      try discriminate; inversion Ha; inversion Hb; subst; lra.
  - repeat constructor; lra.
Defined.

(** [LengthThresholdUP1D] keeps a chain exactly when its length respects
    each bound that is given; both bounds are inclusive. *)
Theorem length_threshold_inclusive (self : LengthThresholdUP1D.t) (length : R) :
  LengthThresholdUP1D.__call__ self length = true
  <-> (forall m, LengthThresholdUP1D._length_min self = Some m -> m <= length)
      /\ (forall M, LengthThresholdUP1D._length_max self = Some M -> length <= M).
Proof.
  destruct self as [[m |] [M |]]; unfold LengthThresholdUP1D.__call__; cbn.
  - destruct (Rlt_dec length m), (Rgt_dec length M); split;
      try discriminate; try reflexivity.
    all: try (intros [H1 H2]; specialize (H1 m eq_refl); specialize (H2 M eq_refl); lra).
    intros _. split; intros x Hx; inversion Hx; subst; lra.
  - destruct (Rlt_dec length m); split; try discriminate; try reflexivity.
    + intros [H1 _]. specialize (H1 m eq_refl). lra.
    + intros _. split; intros x Hx; inversion Hx; subst; lra.
  - destruct (Rgt_dec length M); split; try discriminate; try reflexivity.
    + intros [_ H2]. specialize (H2 M eq_refl). lra.
    + intros _. split; intros x Hx; inversion Hx; subst; lra.
  - split; [| reflexivity]. intros _. split; intros x Hx; discriminate.
Qed.

Lemma length_threshold_inclusive_witness :
  LengthThresholdUP1D.__call__ (LengthThresholdUP1D.mk (Some 2) (Some 5)) 5 = true.
Proof.
  apply (proj2 (length_threshold_inclusive (LengthThresholdUP1D.mk (Some 2) (Some 5)) 5)).
  split; intros x Hx; inversion Hx; subst; lra.
Defined.

(** [FaceMarkOneUP1D] never raises: it answers True exactly when some
    feature edge of the ViewEdge is marked by the either-side rule, and
    whenever the loop of [FaceMarkBothUP1D] finds a marked edge it finds one
    too. *)
Theorem FaceMarkOneUP1D_spec (BORDER : Z) (inter : ViewEdge) :
  FaceMarkOneUP1D.__call__ BORDER inter
  = Ok (existsb (one_side_marked BORDER) (fedges inter))
  /\ (FaceMarkBothUP1D.loop BORDER (fedges inter) = true ->
      FaceMarkOneUP1D.__call__ BORDER inter = Ok true).
Proof.
  assert (Hloop : forall fe, FaceMarkOneUP1D.loop BORDER fe
                             = existsb (one_side_marked BORDER) fe).
  { induction fe as [| e rest IH]; [reflexivity|].
    cbn [FaceMarkOneUP1D.loop existsb]. rewrite IH.
    assert (Hm : FaceMarkOneUP1D.marked BORDER e = one_side_marked BORDER e).
    { unfold FaceMarkOneUP1D.marked, one_side_marked.
      destruct (is_smooth e); [reflexivity|].
      destruct (Z.land (nature e) BORDER =? 0)%Z; cbn [negb];
        [apply orb_comm | reflexivity]. }
    rewrite Hm. destruct (one_side_marked BORDER e); reflexivity. }
  unfold FaceMarkOneUP1D.__call__. cbn [read_local bind]. split.
  - rewrite Hloop. reflexivity.
  - intros Hboth. f_equal. induction (fedges inter) as [| e rest IH]; [discriminate|].
    cbn [FaceMarkBothUP1D.loop FaceMarkOneUP1D.loop] in *.
    unfold FaceMarkBothUP1D.marked, FaceMarkOneUP1D.marked in *.
    destruct (is_smooth e).
    + destruct (face_mark e); [reflexivity | apply IH; exact Hboth].
    + destruct (negb (Z.land (nature e) BORDER =? 0)%Z).
      * destruct (face_mark_left e); [reflexivity | apply IH; exact Hboth].
      * destruct (face_mark_right e), (face_mark_left e); cbn in *;
          try reflexivity; apply IH; exact Hboth.
Qed.

Lemma FaceMarkOneUP1D_spec_witness :
  FaceMarkOneUP1D.__call__
    2 (mkViewEdge [mkFEdge 4 false (vec3 0 0 0) false true true 0 0])
  = Ok true.
Proof.
  apply (proj2 (FaceMarkOneUP1D_spec
                  2 (mkViewEdge [mkFEdge 4 false (vec3 0 0 0) false true true 0 0]))).
  reflexivity.
Defined.

(** ** Seed *)

Lemma after_gets_last (n : nat) (self : Seed.t) :
  Seed.after_gets (S n) self = snd (Seed.get (Seed.after_gets n self) (-1)).
Proof.
  revert self. induction n as [| n IH]; intros self.
  - reflexivity.
  - change (Seed.after_gets (S (S n)) self)
      with (Seed.after_gets (S n) (snd (Seed.get self (-1)))).
    rewrite IH. reflexivity.
Qed.

Lemma after_gets_state (now : Z) (n : nat) :
  Seed.after_gets n (Seed.__init__ now)
  = Seed.mk (2 ^ 15) ((now + Z.of_nat n) mod 2 ^ 15).
Proof.
  induction n as [| n IH].
  - cbn [Seed.after_gets]. unfold Seed.__init__. f_equal. f_equal. lia.
  - rewrite after_gets_last, IH. unfold Seed.get. cbn [Z.ltb Z.compare snd Seed.t_max Seed.t_].
    f_equal. rewrite Z.add_mod_idemp_l by lia. f_equal. lia.
Qed.

(** The seed generator: a non-negative seed is returned verbatim and leaves
    the counter alone; every negative seed advances the counter by one modulo
    2^15, so the [n]-th generated seed is [(now + n) mod 2^15], lies in
    [0, 2^15), and differs from each of the next [2^15 - 1] generated
    seeds. *)
Theorem Seed_get_spec (now : Z) :
  (forall (self : Seed.t) (seed : Z), (0 <= seed)%Z -> Seed.get self seed = (seed, self))
  /\ (forall (self : Seed.t) (seed : Z), (seed < 0)%Z -> Seed.get self seed = Seed.get self (-1))
  /\ (forall n : nat,
         let generated := fst (Seed.get (Seed.after_gets n (Seed.__init__ now)) (-1)) in
         generated = ((now + Z.of_nat n + 1) mod 2 ^ 15)%Z
         /\ (0 <= generated < 2 ^ 15)%Z)
  /\ (forall n k : nat,
         (0 < Z.of_nat k < 2 ^ 15)%Z ->
         fst (Seed.get (Seed.after_gets n (Seed.__init__ now)) (-1))
         <> fst (Seed.get (Seed.after_gets (n + k) (Seed.__init__ now)) (-1))).
Proof.
  assert (Hgen : forall n : nat,
             fst (Seed.get (Seed.after_gets n (Seed.__init__ now)) (-1))
             = ((now + Z.of_nat n + 1) mod 2 ^ 15)%Z).
  { intros n. rewrite after_gets_state. unfold Seed.get.
    cbn [Z.ltb Z.compare fst Seed.t_max Seed.t_].
    rewrite Z.add_mod_idemp_l by lia. reflexivity. }
  split; [| split; [| split]].
  - intros self seed Hseed. unfold Seed.get.
    destruct (Z.ltb_spec seed 0); [lia | reflexivity].
  - intros self seed Hseed. unfold Seed.get.
    destruct (Z.ltb_spec seed 0); [reflexivity | lia].
  - intros n. cbv zeta. rewrite Hgen. split; [reflexivity|].
    apply Z.mod_pos_bound. lia.
  - intros n k Hk. rewrite !Hgen. intros Heq.
    change (2 ^ 15)%Z with 32768%Z in Heq, Hk.
    rewrite Nat2Z.inj_add in Heq.
    pose proof (Z.div_mod (now + Z.of_nat n + 1) 32768 ltac:(lia)) as H1.
    pose proof (Z.div_mod (now + (Z.of_nat n + Z.of_nat k) + 1) 32768 ltac:(lia)) as H2.
    rewrite <- Heq in H2. lia.
Qed.

Lemma Seed_get_spec_witness :
  fst (Seed.get (Seed.after_gets 3 (Seed.__init__ 100000)) (-1))
  <> fst (Seed.get (Seed.after_gets (3 + 5) (Seed.__init__ 100000)) (-1)).
Proof.
  apply (proj2 (proj2 (proj2 (Seed_get_spec 100000))) 3%nat 5%nat).
  change (2 ^ 15)%Z with 32768%Z. lia.
Defined.

(** ** The split pattern assembled by [process] *)

Lemma both_positive_true (dash gap : R) :
  Process.both_positive dash gap = true -> 0 < dash /\ 0 < gap.
Proof.
  unfold Process.both_positive.
  destruct (Rgt_dec dash 0), (Rgt_dec gap 0); try discriminate. intros _. lra.
Qed.

Lemma both_positive_false (dash gap : R) :
  Process.both_positive dash gap = false <-> ~ (0 < dash /\ 0 < gap).
Proof.
  unfold Process.both_positive.
  destruct (Rgt_dec dash 0), (Rgt_dec gap 0); split; intros H;
    try reflexivity; try discriminate; try lra.
  all: exfalso; apply H; lra.
Qed.

(** The pattern [process] assembles is the list of the dash/gap pairs
    whose two values are positive, in the order 1, 2, 3 and dash before gap;
    so it has an even number of entries, all positive.  A controller is
    built exactly when at least one pair qualifies; it is the controller of
    that pattern with sampling 1, and no call of [start()] or [stop()] on
    it, after any sequence of calls, ever raises. *)
Theorem process_split_pattern_pairs (dash1 gap1 dash2 gap2 dash3 gap3 : R) :
  let pattern := Process.split_pattern dash1 gap1 dash2 gap2 dash3 gap3 in
  pattern = qualifying_pair dash1 gap1 ++ qualifying_pair dash2 gap2
            ++ qualifying_pair dash3 gap3
  /\ Nat.Even (List.length pattern)
  /\ Forall (fun x => 0 < x) pattern
  /\ (Process.split_controller dash1 gap1 dash2 gap2 dash3 gap3 = None
      <-> ~ (0 < dash1 /\ 0 < gap1) /\ ~ (0 < dash2 /\ 0 < gap2)
          /\ ~ (0 < dash3 /\ 0 < gap3))
  /\ (forall self calls,
         Process.split_controller dash1 gap1 dash2 gap2 dash3 gap3 = Some self ->
         self = SplitPatternController.__init__ pattern 1
         /\ (exists b, fst (SplitPatternController.start
                              (SplitPatternController.after_calls calls self)) = Ok b)
         /\ (exists b, fst (SplitPatternController.stop
                              (SplitPatternController.after_calls calls self)) = Ok b)).
Proof.
  cbv zeta.
  assert (Hshape : Nat.Even (List.length
                               (Process.split_pattern dash1 gap1 dash2 gap2 dash3 gap3))
                   /\ Forall (fun x => 0 < x)
                             (Process.split_pattern dash1 gap1 dash2 gap2 dash3 gap3)
                   /\ (List.length (Process.split_pattern dash1 gap1 dash2 gap2 dash3 gap3)
                       = 0%nat
                       <-> Process.both_positive dash1 gap1 = false
                           /\ Process.both_positive dash2 gap2 = false
                           /\ Process.both_positive dash3 gap3 = false)).
  { unfold Process.split_pattern.
    destruct (Process.both_positive dash1 gap1) eqn:E1;
      destruct (Process.both_positive dash2 gap2) eqn:E2;
      destruct (Process.both_positive dash3 gap3) eqn:E3;
      try apply both_positive_true in E1; try apply both_positive_true in E2;
      try apply both_positive_true in E3; cbn.
    all: split; [| split].
    all: try (repeat constructor; lra).
    all: try (split; [discriminate | intros (? & ? & ?); discriminate]).
    all: try (split; [intros _; repeat split | reflexivity]).
    - exists 3%nat. reflexivity.
    - exists 2%nat. reflexivity.
    - exists 2%nat. reflexivity.
    - exists 1%nat. reflexivity.
    - exists 2%nat. reflexivity.
    - exists 1%nat. reflexivity.
    - exists 1%nat. reflexivity.
    - exists 0%nat. reflexivity. }
  destruct Hshape as (Heven & Hall & Hzero).
  split.
  { unfold Process.split_pattern, qualifying_pair, Process.both_positive.
    repeat match goal with
           | |- context [Rgt_dec ?a ?b] => destruct (Rgt_dec a b)
           | |- context [Rlt_dec ?a ?b] => destruct (Rlt_dec a b)
           end; try reflexivity; exfalso; lra. }
  split; [exact Heven | split; [exact Hall | split]].
  - rewrite <- !both_positive_false. unfold Process.split_controller.
    destruct (Nat.ltb_spec 0 (List.length
                                (Process.split_pattern dash1 gap1 dash2 gap2 dash3 gap3)))
      as [Hlt | Hge].
    + split; [discriminate | intros H; apply Hzero in H; lia].
    + split; [intros _; apply Hzero; lia | reflexivity].
  - intros self calls Hself. unfold Process.split_controller in Hself.
    destruct (Nat.ltb_spec 0 (List.length
                                (Process.split_pattern dash1 gap1 dash2 gap2 dash3 gap3)))
      as [Hlt | Hge]; [| discriminate].
    inversion Hself; subst self. split; [reflexivity|].
    assert (Hlen : (2 <= List.length
                          (Process.split_pattern dash1 gap1 dash2 gap2 dash3 gap3))%nat).
    { destruct Heven as [m Hm]. lia. }
    clear Hzero Hall Heven Hself Hlt.
    destruct (controller_init_lists
                (Process.split_pattern dash1 gap1 dash2 gap2 dash3 gap3) 1)
      as (Hsp & Htp & Hsi & Hti).
    set (self0 := SplitPatternController.__init__
                    (Process.split_pattern dash1 gap1 dash2 gap2 dash3 gap3) 1) in *.
    assert (Hs : (SplitPatternController.start_idx self0
                  < List.length (SplitPatternController.start_pos self0))%nat) by lia.
    assert (Ht : (SplitPatternController.stop_idx self0
                  < List.length (SplitPatternController.stop_pos self0))%nat) by lia.
    clearbody self0. clear Hsp Htp Hsi Hti. revert self0 Hs Ht.
    induction calls as [| c rest IH]; intros self0 Hs Ht.
    + cbn [SplitPatternController.after_calls].
      destruct (controller_indices_kept self0 Hs Ht) as (H1 & H2 & _). auto.
    + cbn [SplitPatternController.after_calls].
      destruct (controller_indices_kept self0 Hs Ht) as (_ & _ & H3 & H4 & H5 & H6).
      destruct (controller_lists_kept self0) as [[E1 E2] [E3 E4]].
      apply IH; destruct c; congruence.
Qed.

Lemma process_split_pattern_pairs_witness :
  exists b, fst (SplitPatternController.start
                   (SplitPatternController.after_calls
                      [true; false]
                      (SplitPatternController.__init__ [3; 1; 2; 2] 1))) = Ok b.
Proof.
  refine (proj1 (proj2 (proj2 (proj2 (proj2 (proj2
                   (process_split_pattern_pairs 3 1 0 4 2 2))))
                   (SplitPatternController.__init__ [3; 1; 2; 2] 1)
                   [true; false] _))).
  unfold Process.split_controller, Process.split_pattern, Process.both_positive.
  repeat match goal with
         | |- context [Rgt_dec ?a ?b] => destruct (Rgt_dec a b); try lra
         end.
  reflexivity.
Defined.

(** ** The 2D transform *)

Lemma transform_fixed (self : Transform2DShader.t) (pv : Vector2) :
  Transform2DShader.transform self pv pv = pv.
Proof.
  unfold Transform2DShader.transform, add2, sub2. destruct pv as [x y]. cbn [vx vy].
  f_equal; ring.
Qed.

Section Transform2D.

Variable u_of : StrokeVertex -> R.
Variable update_length : Stroke -> Stroke.
Variable self : Transform2DShader.t.

Lemma pivot_stable (pivot : Transform2DShader.Pivot) (pv0 : Vector2)
      (done todo : list StrokeVertex) :
  Transform2DShader.pivot_value pivot (done ++ todo) = Ok pv0 ->
  Transform2DShader.pivot_value pivot (map (moved self pv0) done ++ todo) = Ok pv0.
Proof.
  destruct pivot as [j | v]; [| trivial].
  unfold Transform2DShader.pivot_value, getitem.
  destruct (Nat.lt_ge_cases j (List.length done)) as [Hj | Hj].
  - rewrite !nth_error_app1 by (rewrite ?length_map; exact Hj).
    rewrite nth_error_map.
    destruct (nth_error done j) as [sv |]; [| discriminate].
    cbn. intros H. inversion H as [Hp]. unfold Transform2DShader.set_point. cbn [point].
    rewrite Hp, transform_fixed. reflexivity.
  - rewrite !nth_error_app2 by (rewrite ?length_map; exact Hj).
    rewrite length_map. trivial.
Qed.

Lemma shade_loop_value (pivot : Transform2DShader.Pivot) (pv0 : Vector2)
      (todo done : list StrokeVertex) :
  Transform2DShader.pivot_value pivot (done ++ todo) = Ok pv0 ->
  Transform2DShader.shade_loop self (Some pivot) (map (moved self pv0) done) todo
  = Ok (map (moved self pv0) (done ++ todo)).
Proof.
  revert done. induction todo as [| svert rest IH]; intros done Hpv.
  - rewrite app_nil_r. reflexivity.
  - cbn [Transform2DShader.shade_loop read_local bind].
    rewrite (pivot_stable pivot pv0 done (svert :: rest) Hpv). cbn [bind].
    change (map (moved self pv0) done
            ++ [Transform2DShader.set_point
                  svert (Transform2DShader.transform self pv0 (point svert))])
      with (map (moved self pv0) done ++ map (moved self pv0) [svert]).
    rewrite <- map_app.
    rewrite IH by (rewrite <- app_assoc; exact Hpv).
    rewrite <- app_assoc. reflexivity.
Qed.

Lemma shade_with_pivot (pivot : Transform2DShader.Pivot) (pv0 : Vector2) (stroke : Stroke) :
  Transform2DShader.find_pivot u_of self (vertices stroke) = Ok (Some pivot) ->
  Transform2DShader.pivot_value pivot (vertices stroke) = Ok pv0 ->
  Transform2DShader.shade u_of update_length self stroke
  = Ok (update_length (mkStroke (map (moved self pv0) (vertices stroke))
                                (length_2d stroke))).
Proof.
  intros Hfind Hpv. unfold Transform2DShader.shade. rewrite Hfind. cbn [bind].
  pose proof (shade_loop_value pivot pv0 (vertices stroke) [] Hpv) as Hloop.
  cbn [map app] in Hloop. rewrite Hloop. reflexivity.
Qed.

End Transform2D.

(** [Transform2DShader.shade] moves every vertex by the same map around the
    position the pivot had before the loop, although for START and END the
    pivot is the live point of a vertex that the loop itself rewrites (the
    pivot vertex is mapped onto itself).  The pivot position is the first
    point for START, the last point for END, the given coordinates for
    ABSOLUTE and the mean of the points for CENTER. *)
Theorem transform2d_shade_modes
        (u_of : StrokeVertex -> R) (update_length : Stroke -> Stroke)
        (self : Transform2DShader.t) (stroke : Stroke) :
  let shaded pv :=
      Ok (update_length (mkStroke (map (moved self pv) (vertices stroke))
                                  (length_2d stroke))) in
  (Transform2DShader.__pivot self = "START"%string ->
   forall v0 rest, vertices stroke = v0 :: rest ->
     Transform2DShader.shade u_of update_length self stroke = shaded (point v0)
     /\ moved self (point v0) v0 = v0)
  /\ (Transform2DShader.__pivot self = "END"%string ->
      forall front v, vertices stroke = front ++ [v] ->
        Transform2DShader.shade u_of update_length self stroke = shaded (point v)
        /\ moved self (point v) v = v)
  /\ (Transform2DShader.__pivot self = "ABSOLUTE"%string ->
      Transform2DShader.shade u_of update_length self stroke
      = shaded (vec2 (Transform2DShader.__pivot_x self) (Transform2DShader.__pivot_y self)))
  /\ (Transform2DShader.__pivot self = "CENTER"%string ->
      vertices stroke <> [] ->
      Transform2DShader.shade u_of update_length self stroke
      = shaded (scale2 (1 / INR (List.length (vertices stroke)))
                       (fold_left add2 (map point (vertices stroke)) (vec2 0 0)))).
Proof.
  cbv zeta.
  assert (Hfix : forall v, moved self (point v) v = v).
  { intros v. unfold moved, Transform2DShader.set_point. rewrite transform_fixed.
    destruct v; reflexivity. }
  split; [| split; [| split]].
  - intros Hp v0 rest Hvs. split; [| apply Hfix].
    apply (shade_with_pivot u_of update_length self (Transform2DShader.PivotOf 0)).
    + unfold Transform2DShader.find_pivot. rewrite Hp, Hvs. reflexivity.
    + rewrite Hvs. reflexivity.
  - intros Hp front v Hvs. split; [| apply Hfix].
    apply (shade_with_pivot u_of update_length self
             (Transform2DShader.PivotOf (List.length (vertices stroke) - 1))).
    + unfold Transform2DShader.find_pivot. rewrite Hp. cbn [String.eqb].
      destruct (vertices stroke) as [| w ws] eqn:E; [destruct front; discriminate|].
      reflexivity.
    + unfold Transform2DShader.pivot_value, getitem. rewrite Hvs.
      rewrite length_app. cbn [List.length].
      replace (List.length front + 1 - 1)%nat with (List.length front) by lia.
      rewrite nth_error_app2 by lia. rewrite Nat.sub_diag. reflexivity.
  - intros Hp.
    apply (shade_with_pivot u_of update_length self
             (Transform2DShader.PivotValue
                (vec2 (Transform2DShader.__pivot_x self)
                      (Transform2DShader.__pivot_y self)))).
    + unfold Transform2DShader.find_pivot. rewrite Hp. reflexivity.
    + reflexivity.
  - intros Hp Hne.
    apply (shade_with_pivot u_of update_length self
             (Transform2DShader.PivotValue
                (scale2 (1 / INR (List.length (vertices stroke)))
                        (fold_left add2 (map point (vertices stroke)) (vec2 0 0))))).
    + unfold Transform2DShader.find_pivot. rewrite Hp. cbn [String.eqb].
      rewrite py_div_nonzero; [reflexivity|].
      apply not_0_INR. destruct (vertices stroke); [contradiction | discriminate].
    + reflexivity.
Qed.

Lemma transform2d_shade_modes_witness :
  let v x y := mkStrokeVertex (vec2 x y) (vec3 0 0 0)
                              (mkFEdge 0 false (vec3 0 0 0) false false false 0 0)
                              (mkAttribute 1 (0, 0)) in
  let self := Transform2DShader.mk "END" (vec2 2 2) 0 1 0 0 0 in
  let stroke := mkStroke [v 1 1; v 4 5] 5 in
  Transform2DShader.shade (fun _ => 0) (fun st => st) self stroke
  = Ok (mkStroke (map (moved self (vec2 4 5)) [v 1 1; v 4 5]) 5).
Proof.
  intros v self stroke.
  refine (proj1 (proj1 (proj2 (transform2d_shade_modes (fun _ => 0) (fun st => st)
                                                       self stroke))
                       eq_refl [v 1 1] (v 4 5) eq_refl)).
Defined.

(** On a stroke without vertices [Transform2DShader.shade] raises IndexError
    for the pivots START, END and PARAM and ZeroDivisionError for CENTER;
    only ABSOLUTE shades it.  For PARAM on a stroke of a single vertex whose
    [u] does not exceed the pivot parameter, the pairwise loop binds nothing
    and reading [svert] raises UnboundLocalError. *)
Theorem transform2d_shade_errors
        (u_of : StrokeVertex -> R) (update_length : Stroke -> Stroke)
        (self : Transform2DShader.t) (stroke : Stroke) :
  (vertices stroke = [] ->
   (Transform2DShader.__pivot self = "START"%string
    \/ Transform2DShader.__pivot self = "END"%string
    \/ Transform2DShader.__pivot self = "PARAM"%string ->
    Transform2DShader.shade u_of update_length self stroke = Raise IndexError)
   /\ (Transform2DShader.__pivot self = "CENTER"%string ->
       Transform2DShader.shade u_of update_length self stroke = Raise ZeroDivisionError)
   /\ (Transform2DShader.__pivot self = "ABSOLUTE"%string ->
       Transform2DShader.shade u_of update_length self stroke
       = Ok (update_length (mkStroke [] (length_2d stroke)))))
  /\ (forall v,
         vertices stroke = [v] ->
         Transform2DShader.__pivot self = "PARAM"%string ->
         u_of v <= Transform2DShader.__pivot_u self ->
         Transform2DShader.shade u_of update_length self stroke
         = Raise (UnboundLocalError "svert")).
Proof.
  unfold Transform2DShader.shade, Transform2DShader.find_pivot. split.
  - intros Hvs. rewrite Hvs. split; [| split].
    + intros [Hp | [Hp | Hp]]; rewrite Hp; reflexivity.
    + intros Hp. rewrite Hp. cbn [String.eqb List.length INR]. unfold py_div.
      destruct (Req_dec_T 0 0) as [_ | H]; [reflexivity | contradiction H; reflexivity].
    + intros Hp. rewrite Hp. reflexivity.
  - intros v Hvs Hp Hu. rewrite Hvs, Hp. cbn [String.eqb getitem nth_error bind].
    destruct (Rlt_dec (Transform2DShader.__pivot_u self) (u_of v)); [lra | reflexivity].
Qed.

Lemma transform2d_shade_errors_witness :
  Transform2DShader.shade (fun _ => 0) (fun st => st)
                          (Transform2DShader.mk "CENTER" (vec2 1 1) 1 0 0 0 0)
                          (mkStroke [] 0)
  = Raise ZeroDivisionError.
Proof.
  refine (proj1 (proj2 (proj1 (transform2d_shade_errors
                                 (fun _ => 0) (fun st => st)
                                 (Transform2DShader.mk "CENTER" (vec2 1 1) 1 0 0 0 0)
                                 (mkStroke [] 0)) eq_refl)) eq_refl).
Defined.

(** ** The curve mapping *)

(** [CurveMappingModifier] checks its mapping name when it is constructed:
    any name but LINEAR and CURVE raises AssertionError, whatever the blend
    mode.  The LINEAR mapping keeps [0, 1] within [0, 1], and inverting
    mirrors it: the plain and the inverted value of a [t] add up to 1. *)
Theorem curve_mapping_linear
        (Curve : Type) (evaluateCurveMappingF : Curve -> Z -> R -> R)
        (blend : string) (influence : R) (curve : Curve) :
  (forall mapping invert,
      mapping <> "LINEAR"%string -> mapping <> "CURVE"%string ->
      CurveMappingModifier.__init__ Curve blend influence mapping invert curve
      = Raise AssertionError)
  /\ (forall invert,
         exists self,
           CurveMappingModifier.__init__ Curve blend influence "LINEAR" invert curve
           = Ok self
           /\ (forall t0, 0 <= t0 <= 1 ->
                 0 <= CurveMappingModifier.evaluate Curve evaluateCurveMappingF self t0
                 <= 1))
  /\ (forall plain inverted,
         CurveMappingModifier.__init__ Curve blend influence "LINEAR" false curve
         = Ok plain ->
         CurveMappingModifier.__init__ Curve blend influence "LINEAR" true curve
         = Ok inverted ->
         forall t0,
           CurveMappingModifier.evaluate Curve evaluateCurveMappingF plain t0
           + CurveMappingModifier.evaluate Curve evaluateCurveMappingF inverted t0 = 1).
Proof.
  split; [| split].
  - intros mapping invert H1 H2. unfold CurveMappingModifier.__init__. cbn [bind
      ScalarBlendModifier.__init__].
    destruct (String.eqb_spec mapping "LINEAR"); [contradiction|].
    destruct (String.eqb_spec mapping "CURVE"); [contradiction|]. reflexivity.
  - intros invert. eexists. split; [reflexivity|].
    intros t0 Ht. unfold CurveMappingModifier.evaluate, CurveMappingModifier.LINEAR. cbn.
    destruct invert; lra.
  - intros plain inverted Hp Hi t0. cbn in Hp, Hi. inversion Hp; inversion Hi; subst.
    unfold CurveMappingModifier.evaluate, CurveMappingModifier.LINEAR. cbn. lra.
Qed.

Lemma curve_mapping_linear_witness :
  CurveMappingModifier.__init__ unit "FOO" 1 "SMOOTH" false tt = Raise AssertionError.
Proof.
  apply (proj1 (curve_mapping_linear unit (fun _ _ t0 => t0) "FOO" 1 tt)); discriminate.
Defined.
